(** * Waste-incident platform: classification, similarity and analytics

    A shallow embedding of the computational core of the backend
    ([app/modules/ai/service.py], [app/modules/analytics/service.py],
    [app/core/config.py]) together with the properties stated about it.

    Conventions of the embedding.
    - Python [int] is [Z].  A Python [float] is modelled twice.  Module
      [Binary64] gives the IEEE 754 binary64 numbers, with the operations
      rounded as the interpreter rounds them; on it [AI64] and
      [Analytics64] embed the classifier, the anomaly detection and the
      trend loop, and every statement about a number that the program
      returns is made there.  [AI] and [Analytics] embed the code on exact
      numbers, a rational [Q] in the AI service and a real [R] in the
      analytics service (which takes a square root); they carry the
      statements about order, membership and ranges, which rounding to
      the nearest float leaves as they are.
    - [str] is [string] over ASCII; [str.lower] and [str.isalpha] are their
      ASCII restrictions.
    - A [dict] that is iterated is an association list in insertion order;
      a [dict] that is only looked up is a [gmap].
    - An exception is an explicit value: third-party calls that may raise
      return [option], the service methods return [result].
    - Third-party functions (the sentence encoder, scikit-learn's
      [cosine_similarity], NLTK's [word_tokenize]) and the rows returned by
      the database are parameters. *)

From Stdlib Require Import ZArith QArith Qround Qminmax Qabs Reals Psatz Lia.
From Stdlib Require Import List String Ascii Bool Permutation Sorted.
From stdpp Require Import gmap strings.
From Stdlib Require SpecFloat.
Import ListNotations.
Open Scope string_scope.

(* ================================================================== *)
(** * Python built-ins used by the services *)
(* ================================================================== *)

Module Py.
Local Open Scope Q_scope.

(** [a < b] on floats, as a boolean. *)
Definition Qlt_bool (a b : Q) : bool := negb (Qle_bool b a).

(** [max(xs, key=key)]: the first element whose key is maximal;
    [None] stands for the [ValueError] raised on an empty sequence. *)
Fixpoint max_from {A : Type} (key : A -> Q) (best : A) (xs : list A) : A :=
  match xs with
  | [] => best
  | x :: rest =>
      if Qlt_bool (key best) (key x) then max_from key x rest
      else max_from key best rest
  end.

Definition max_by {A : Type} (key : A -> Q) (xs : list A) : option A :=
  match xs with
  | [] => None
  | x :: rest => Some (max_from key x rest)
  end.

(** [sorted(xs, key=key, reverse=True)] and [xs.sort(key=key, reverse=True)]:
    a stable sort by descending key (equal keys keep their order).
    [key_lt x y] decides [key(x) < key(y)]. *)
Fixpoint insert_desc {A : Type} (key_lt : A -> A -> bool) (x : A)
  (sorted : list A) : list A :=
  match sorted with
  | [] => [x]
  | y :: rest =>
      if key_lt x y then y :: insert_desc key_lt x rest
      else x :: y :: rest
  end.

Fixpoint sort_desc_by {A : Type} (key_lt : A -> A -> bool) (xs : list A)
  : list A :=
  match xs with
  | [] => []
  | x :: rest => insert_desc key_lt x (sort_desc_by key_lt rest)
  end.

Definition by_key {A : Type} (key : A -> Q) (x y : A) : bool :=
  Qlt_bool (key x) (key y).

Definition sort_desc {A : Type} (key : A -> Q) (xs : list A) : list A :=
  sort_desc_by (by_key key) xs.

(** [xs[:n]]: the first [n] elements, and for a negative [n] all but the
    last [-n] elements. *)
Definition slice_to {A : Type} (xs : list A) (n : Z) : list A :=
  if (n <? 0)%Z then firstn (length xs - Z.to_nat (- n)) xs
  else firstn (Z.to_nat n) xs.

(** [round(x, ndigits)] on an exact number: the nearest multiple of
    [10^-ndigits], a tie going to the even neighbour. *)
Definition round_half_even (q : Q) : Z :=
  let f := Qfloor q in
  match Qcompare (q - inject_Z f) (1 # 2) with
  | Lt => f
  | Gt => (f + 1)%Z
  | Eq => if Z.even f then f else (f + 1)%Z
  end.

Fixpoint pow10 (ndigits : nat) : positive :=
  match ndigits with
  | O => 1%positive
  | S k => (10 * pow10 k)%positive
  end.

Definition round (q : Q) (ndigits : nat) : Q :=
  let p := pow10 ndigits in
  Qred (round_half_even (q * inject_Z (Zpos p)) # p).

(** [d.get(k, default)] and [d[k] = v] on an insertion-ordered dict. *)
Fixpoint dict_get {V : Type} (d : list (string * V)) (k : string) (dflt : V) : V :=
  match d with
  | [] => dflt
  | (k', v) :: rest => if String.eqb k' k then v else dict_get rest k dflt
  end.

Fixpoint dict_set {V : Type} (d : list (string * V)) (k : string) (v : V)
  : list (string * V) :=
  match d with
  | [] => [(k, v)]
  | (k', v') :: rest =>
      if String.eqb k' k then (k', v) :: rest else (k', v') :: dict_set rest k v
  end.

(** [s.lower()] *)
Definition is_upper (c : ascii) : bool :=
  let n := nat_of_ascii c in (65 <=? n)%nat && (n <=? 90)%nat.

Definition is_lower (c : ascii) : bool :=
  let n := nat_of_ascii c in (97 <=? n)%nat && (n <=? 122)%nat.

Definition lower_char (c : ascii) : ascii :=
  if is_upper c then ascii_of_nat (nat_of_ascii c + 32) else c.

Fixpoint lower (s : string) : string :=
  match s with
  | EmptyString => EmptyString
  | String c rest => String (lower_char c) (lower rest)
  end.

(** [s.isalpha()]: non-empty and made of letters only. *)
Fixpoint all_alpha (s : string) : bool :=
  match s with
  | EmptyString => true
  | String c rest => (is_upper c || is_lower c) && all_alpha rest
  end.

Definition isalpha (s : string) : bool :=
  match s with
  | EmptyString => false
  | _ => all_alpha s
  end.

(** [needle in hay] on strings: [needle] occurs as a substring. *)
Fixpoint contains (needle hay : string) : bool :=
  String.prefix needle hay
  || match hay with
     | EmptyString => false
     | String _ rest => contains needle rest
     end.

(** [s.split()]: the maximal runs of non-whitespace characters. *)
Definition is_space (c : ascii) : bool :=
  let n := nat_of_ascii c in
  ((9 <=? n)%nat && (n <=? 13)%nat) || ((28 <=? n)%nat && (n <=? 32)%nat).

Fixpoint split_from (cur : string) (s : string) : list string :=
  match s with
  | EmptyString => match cur with EmptyString => [] | _ => [cur] end
  | String c rest =>
      if is_space c then
        match cur with
        | EmptyString => split_from EmptyString rest
        | _ => cur :: split_from EmptyString rest
        end
      else split_from (cur ++ String c EmptyString) rest
  end.

Definition split (s : string) : list string := split_from EmptyString s.

(** Exceptions that reach the caller. *)
Inductive exn : Type :=
| RuntimeError (msg : string).

Inductive result (A : Type) : Type :=
| Return (a : A)
| Raise (e : exn).
Arguments Return {A} a.
Arguments Raise {A} e.

End Py.

(* ================================================================== *)
(** * app/core/config.py *)
(* ================================================================== *)

Module Settings.

Definition SIMILARITY_THRESHOLD : Q := 75 # 100.

End Settings.

(* ================================================================== *)
(** * app/modules/ai/service.py *)
(* ================================================================== *)

Module AI.
Import Py.
Local Open Scope Q_scope.

(** An embedding is a list of floats. *)
Definition Embedding : Type := list Q.

(** [WASTE_CATEGORIES]: the keyword list of every category, in the order
    of the dict literal. *)
Definition WASTE_CATEGORIES : list (string * list string) :=
  [ ("plastic",
      ["plastic"; "bottle"; "bag"; "packaging"; "container"; "wrapper";
       "polythene"; "polyethylene"; "pet"; "hdpe"; "pvc"; "straw";
       "cup"; "lid"; "film"]);
    ("organic",
      ["food"; "organic"; "kitchen"; "vegetable"; "fruit"; "compost";
       "biodegradable"; "garden"; "plant"; "waste"; "banana"; "apple";
       "leftover"; "spoiled"; "rotten"]);
    ("paper",
      ["paper"; "cardboard"; "newspaper"; "magazine"; "box"; "carton";
       "tissue"; "document"; "book"; "notebook"; "envelope"]);
    ("glass",
      ["glass"; "bottle"; "jar"; "window"; "broken glass"; "mirror";
       "wine bottle"; "beer bottle"; "glassware"]);
    ("metal",
      ["metal"; "can"; "aluminum"; "steel"; "tin"; "iron"; "copper";
       "foil"; "wire"; "scrap metal"; "battery"]);
    ("electronic",
      ["electronic"; "e-waste"; "computer"; "phone"; "mobile"; "laptop";
       "television"; "tv"; "monitor"; "cable"; "charger"; "battery";
       "appliance"; "device"; "gadget"]);
    ("hazardous",
      ["chemical"; "hazardous"; "toxic"; "paint"; "oil"; "solvent";
       "battery"; "pesticide"; "medicine"; "pharmaceutical"; "dangerous";
       "flammable"; "corrosive"]);
    ("textile",
      ["clothing"; "fabric"; "textile"; "cloth"; "clothes"; "shirt";
       "pants"; "dress"; "shoes"; "leather"; "rag"]);
    ("construction",
      ["construction"; "demolition"; "concrete"; "brick"; "wood";
       "debris"; "rubble"; "tile"; "drywall"; "lumber"]);
    ("mixed",
      ["mixed"; "general"; "household"; "municipal"; "various";
       "assorted"; "multiple"; "diverse"]) ].

(** A stored incident, as far as the similarity search reads it. *)
Record Incident : Type := {
  id : Z;
  description : string;
  embedding : option Embedding
}.

(** The service object.  [model] is [None] until [initialize] has run;
    the encoder answers [None] when [encode] raises.  [category_embeddings]
    is a dict in insertion order, so its categories are distinct. *)
Record AIService : Type := {
  model : option (string -> option Embedding);
  stopwords : list string;
  category_embeddings : list (string * Embedding)
}.

(** The inner loop over one keyword list: [(score, matches)]. *)
Definition keyword_loop (keywords : list string) (description_lower : string)
  : Z * Z :=
  fold_left
    (fun (acc : Z * Z) (keyword : string) =>
       let '(score, matches) := acc in
       if contains keyword description_lower
       then ((score + Z.of_nat (length (split keyword)))%Z, (matches + 1)%Z)
       else (score, matches))
    keywords (0%Z, 0%Z).

(** The loop over the categories: the dict [keyword_scores] ([scores] in
    the fallback), filled in the order of [WASTE_CATEGORIES]. *)
Definition keyword_scores_over (table : list (string * list string))
  (description_lower : string) : list (string * Q) :=
  fold_left
    (fun (keyword_scores : list (string * Q)) (entry : string * list string) =>
       let '(category, keywords) := entry in
       let '(score, matches) := keyword_loop keywords description_lower in
       if (0 <? matches)%Z
       then dict_set keyword_scores category
              (inject_Z score / inject_Z (Z.of_nat (length keywords)))
       else keyword_scores)
    table [].

Definition _classify_by_keywords_only (description : string) : string * Q :=
  let description_lower := lower description in
  let scores := keyword_scores_over WASTE_CATEGORIES description_lower in
  match max_by snd scores with
  | None => ("unclassified", 0)
  | Some best_category =>
      let max_score := snd best_category in
      let confidence := Qmin (max_score * 2) 1 in
      (fst best_category, round confidence 2)
  end.

Section WithLibraries.

(** scikit-learn's [cosine_similarity] on two row vectors; [None] when it
    raises (vectors of different or zero length). *)
Variable cosine_similarity : Embedding -> Embedding -> option Q.

(** NLTK's [word_tokenize]; [None] when it raises. *)
Variable word_tokenize : string -> option (list string).

(** Stage 1 of [classify_waste_type]: the dict [semantic_scores];
    [None] when a call raises. *)
Fixpoint semantic_scores_over (description_embedding : Embedding)
  (embeddings : list (string * Embedding)) : option (list (string * Q)) :=
  match embeddings with
  | [] => Some []
  | (category, category_embedding) :: rest =>
      match cosine_similarity description_embedding category_embedding with
      | None => None
      | Some similarity =>
          match semantic_scores_over description_embedding rest with
          | None => None
          | Some semantic_scores => Some ((category, similarity) :: semantic_scores)
          end
      end
  end.

(** The body of the [try] block of [classify_waste_type]; [None] when an
    exception is raised inside it. *)
Definition classify_try (encode : string -> option Embedding)
  (embeddings : list (string * Embedding)) (description : string)
  : option (string * Q) :=
  match encode description with
  | None => None
  | Some description_embedding =>
      match semantic_scores_over description_embedding embeddings with
      | None => None
      | Some semantic_scores =>
          match max_by snd semantic_scores with
          | None => None
          | Some best_semantic_category =>
              let semantic_category := fst best_semantic_category in
              let semantic_confidence := snd best_semantic_category in
              let description_lower := lower description in
              let keyword_scores :=
                keyword_scores_over WASTE_CATEGORIES description_lower in
              if Qle_bool (50 # 100) semantic_confidence then
                let keyword_boost :=
                  dict_get keyword_scores semantic_category 0 * (2 # 10) in
                let final_confidence :=
                  Qmin (semantic_confidence + keyword_boost) 1 in
                Some (semantic_category, round final_confidence 2)
              else
                match max_by snd keyword_scores with
                | Some best_keyword_match =>
                    let keyword_category := fst best_keyword_match in
                    let keyword_confidence :=
                      Qmin (snd best_keyword_match * 2) 1 in
                    let final_confidence :=
                      if String.eqb semantic_category keyword_category then
                        let semantic_boost := semantic_confidence * (3 # 10) in
                        Qmin (keyword_confidence + semantic_boost) 1
                      else keyword_confidence in
                    Some (keyword_category, round final_confidence 2)
                | None =>
                    Some (semantic_category, round semantic_confidence 2)
                end
          end
      end
  end.

Definition classify_waste_type (self : AIService) (description : string)
  : result (string * Q) :=
  match model self, category_embeddings self with
  | None, _ | _, [] => Raise (RuntimeError "AI Service not initialized")
  | Some encode, embeddings =>
      match classify_try encode embeddings description with
      | Some answer => Return answer
      | None => Return (_classify_by_keywords_only description)
      end
  end.

(** [word_freq[word] = word_freq.get(word, 0) + 1] for every kept token. *)
Definition count_words (keywords : list string) : list (string * Z) :=
  fold_left
    (fun (word_freq : list (string * Z)) (word : string) =>
       dict_set word_freq word (dict_get word_freq word 0%Z + 1)%Z)
    keywords [].

Definition extract_keywords (self : AIService) (description : string)
  (top_n : Z) : list string :=
  match word_tokenize (lower description) with
  | None => []
  | Some tokens =>
      let keywords :=
        List.filter
          (fun word =>
             isalpha word
             && negb (existsb (String.eqb word) (stopwords self))
             && (2 <? String.length word)%nat)
          tokens in
      let word_freq := count_words keywords in
      let sorted_keywords :=
        sort_desc (fun item => inject_Z (snd item)) word_freq in
      map fst (slice_to sorted_keywords top_n)
  end.

(** The scan of [find_similar_incidents] over the fetched rows: the list
    [similarities]; [None] when [cosine_similarity] raises. *)
Definition similarity_scan (current_embedding : Embedding) (threshold : Q)
  (all_incidents : list Incident) : option (list (Incident * Q)) :=
  fold_left
    (fun (acc : option (list (Incident * Q))) (incident : Incident) =>
       match acc with
       | None => None
       | Some similarities =>
           match embedding incident with
           | Some incident_embedding =>
               if (0 <? length incident_embedding)%nat then
                 match cosine_similarity current_embedding incident_embedding with
                 | None => None
                 | Some similarity =>
                     if Qle_bool threshold similarity
                     then Some (similarities ++ [(incident, similarity)])%list
                     else Some similarities
                 end
               else Some similarities
           | None => Some similarities
           end
       end)
    all_incidents (Some []).

(** [db] is the content of the incidents table, in the order in which the
    database returns rows. *)
Definition find_similar_incidents (db : list Incident)
  (current_incident_id : Z) (embedding_ : Embedding)
  (threshold : option Q) (limit : Z) : list Incident :=
  let threshold :=
    match threshold with
    | None => Settings.SIMILARITY_THRESHOLD
    | Some t => t
    end in
  let all_incidents :=
    List.filter
      (fun incident =>
         negb (Z.eqb (id incident) current_incident_id)
         && match embedding incident with Some _ => true | None => false end)
      db in
  match all_incidents with
  | [] => []
  | _ =>
      match similarity_scan embedding_ threshold all_incidents with
      | None => []
      | Some similarities =>
          let similarities := sort_desc snd similarities in
          map fst (slice_to similarities limit)
      end
  end.

End WithLibraries.

End AI.

(* ================================================================== *)
(** * app/modules/analytics/service.py *)
(* ================================================================== *)

Module Analytics.
Local Open Scope R_scope.

(** [a < b] on floats, as a boolean. *)
Definition Rlt_bool (a b : R) : bool := if Rlt_dec a b then true else false.

(** [round(x, ndigits)] on an exact real. *)
Definition round_half_even (x : R) : Z :=
  let f := Zfloor x in
  if Rlt_dec (x - IZR f) (1 / 2) then f
  else if Rlt_dec (1 / 2) (x - IZR f) then (f + 1)%Z
  else if Z.even f then f else (f + 1)%Z.

Definition round (x : R) (ndigits : nat) : R :=
  let p := IZR (Zpos (Py.pow10 ndigits)) in
  IZR (round_half_even (x * p)) / p.

(** [sum(xs)] on ints and on floats, [len(xs)] as a float divisor. *)
Definition sum (xs : list Z) : Z := fold_left Z.add xs 0%Z.

Definition fsum (xs : list R) : R := fold_left Rplus xs 0.

Definition len {A : Type} (xs : list A) : R := INR (length xs).

Inductive Severity : Type := high | medium.

Inductive Trend : Type := rising | falling | stable | new.

(** ** detect_anomalies *)

Record Anomaly : Type := {
  location : string;
  count : Z;
  mean : R;
  threshold : R;
  severity : Severity
}.

(** [rows] is the result of the grouped query, one [(location, count)] row
    per location; the second query returns the rows of the same grouping
    whose count exceeds the threshold. *)
Definition detect_anomalies (rows : list (string * Z))
  (threshold_multiplier : R) : list Anomaly :=
  let location_counts := map snd rows in
  match location_counts with
  | [] => []
  | _ =>
      let mean_count := IZR (sum location_counts) / len location_counts in
      let threshold := mean_count * threshold_multiplier in
      let anomalous :=
        List.filter (fun row => Rlt_bool threshold (IZR (snd row))) rows in
      map
        (fun row =>
           {| location := fst row;
              count := snd row;
              mean := round mean_count 2;
              threshold := round threshold 2;
              severity :=
                if Rlt_bool (threshold * (15 / 10)) (IZR (snd row))
                then high else medium |})
        anomalous
  end.

(** ** _detect_daily_spikes *)

Record Spike : Type := {
  spike_date : Z;
  spike_count : Z;
  spike_mean : R;
  spike_threshold_ : R;
  spike_severity : Severity
}.

(** [daily_counts] is the result of the grouped query, one [(date, count)]
    row per day, ordered by date; a date is its day number. *)
Definition _detect_daily_spikes (daily_counts : list (Z * Z))
  (spike_threshold : R) : list Spike :=
  if (length daily_counts <? 3)%nat then []
  else
    let counts := map snd daily_counts in
    let mean_count := IZR (sum counts) / len counts in
    let variance :=
      fsum (map (fun x => (IZR x - mean_count) ^ 2) counts) / len counts in
    let std_dev := sqrt variance in
    let threshold := mean_count + spike_threshold * std_dev in
    fold_left
      (fun (spikes : list Spike) (row : Z * Z) =>
         let '(date, count) := row in
         if Rlt_bool threshold (IZR count) then
           (spikes ++
            [ {| spike_date := date;
                 spike_count := count;
                 spike_mean := round mean_count 1;
                 spike_threshold_ := round threshold 1;
                 spike_severity :=
                   if Rlt_bool (mean_count + 4 * std_dev) (IZR count)
                   then high else medium |} ])%list
         else spikes)
      daily_counts [].

(** ** analyze_trends *)

(** A [trend_item]; a stable item has no ["severity"] key. *)
Record TrendItem : Type := {
  waste_type : string;
  current_count : Z;
  previous_count : Z;
  change_percentage : R;
  change_absolute : Z;
  trend : Trend;
  trend_severity : option Severity
}.

Record NewType : Type := {
  new_waste_type : string;
  new_count : Z;
  new_trend : Trend
}.

Record Summary : Type := {
  total_waste_types : nat;
  trending_up : nat;
  trending_down : nat;
  stable_count : nat
}.

Record TrendReport : Type := {
  period_days : Z;
  rising_trends : list TrendItem;
  falling_trends : list TrendItem;
  stable_trends : list TrendItem;
  new_waste_types : list NewType;
  spikes : list Spike;
  summary : Summary
}.

(** The four lists filled by the loop over the waste types. *)
Record Buckets : Type := {
  b_rising : list TrendItem;
  b_falling : list TrendItem;
  b_stable : list TrendItem;
  b_new : list NewType
}.

(** One iteration of the loop body. *)
Definition trend_step (current_counts previous_counts : gmap string Z)
  (acc : Buckets) (wt : string) : Buckets :=
  let current := default 0%Z (current_counts !! wt) in
  let previous := default 0%Z (previous_counts !! wt) in
  if (previous =? 0)%Z && (0 <? current)%Z then
    {| b_rising := b_rising acc; b_falling := b_falling acc;
       b_stable := b_stable acc;
       b_new := (b_new acc ++
                 [ {| new_waste_type := wt; new_count := current;
                      new_trend := new |} ])%list |}
  else if (0 <? previous)%Z then
    let change := IZR (current - previous) / IZR previous * 100 in
    let trend_item (t : Trend) (s : option Severity) :=
      {| waste_type := wt;
         current_count := current;
         previous_count := previous;
         change_percentage := round change 1;
         change_absolute := (current - previous)%Z;
         trend := t;
         trend_severity := s |} in
    if Rlt_bool 20 change then
      {| b_rising :=
           (b_rising acc ++
            [ trend_item rising
                (Some (if Rlt_bool 50 change then high else medium)) ])%list;
         b_falling := b_falling acc; b_stable := b_stable acc;
         b_new := b_new acc |}
    else if Rlt_bool change (-20) then
      {| b_rising := b_rising acc;
         b_falling :=
           (b_falling acc ++
            [ trend_item falling
                (Some (if Rlt_bool change (-50) then high else medium)) ])%list;
         b_stable := b_stable acc; b_new := b_new acc |}
    else
      {| b_rising := b_rising acc; b_falling := b_falling acc;
         b_stable := (b_stable acc ++ [ trend_item stable None ])%list;
         b_new := b_new acc |}
  else acc.

Definition by_abs_change (x y : TrendItem) : bool :=
  Rlt_bool (Rabs (change_percentage x)) (Rabs (change_percentage y)).

(** [current_counts] and [previous_counts] are the results of the two
    grouped queries over the current and the previous window,
    [daily_counts] the rows read by the spike detector.  The set of waste
    types is visited in the order of [elements].  The ["analysis_date"]
    entry of the report, a reading of the clock, is left out. *)
Definition analyze_trends (current_counts previous_counts : gmap string Z)
  (daily_counts : list (Z * Z)) (days : Z) : TrendReport :=
  let all_waste_types : gset string :=
    dom current_counts ∪ dom previous_counts in
  let buckets :=
    fold_left (trend_step current_counts previous_counts)
      (elements all_waste_types)
      {| b_rising := []; b_falling := []; b_stable := []; b_new := [] |} in
  let rising_trends := Py.sort_desc_by by_abs_change (b_rising buckets) in
  let falling_trends := Py.sort_desc_by by_abs_change (b_falling buckets) in
  let spikes := _detect_daily_spikes daily_counts (25 / 10) in
  {| period_days := days;
     rising_trends := rising_trends;
     falling_trends := falling_trends;
     stable_trends := b_stable buckets;
     new_waste_types := b_new buckets;
     spikes := spikes;
     summary :=
       {| total_waste_types := size all_waste_types;
          trending_up := length rising_trends;
          trending_down := length falling_trends;
          stable_count := length (b_stable buckets) |} |}.

End Analytics.

(* ================================================================== *)
(** * Vocabulary of the specification *)
(* ================================================================== *)

Module Spec.
Import Py AI.
Local Open Scope Q_scope.

(** [x] is the first element of [xs] whose key is maximal: the arg-max,
    ties going to the earliest entry. *)
Definition is_first_max {A : Type} (key : A -> Q) (xs : list A) (x : A) : Prop :=
  exists pre post,
    xs = (pre ++ x :: post)%list
    /\ Forall (fun y => key y < key x) pre
    /\ Forall (fun y => key y <= key x) post.

(** The order produced by a stable sort by descending key: a larger key
    comes first, and among equal keys the element that [before] puts
    first. *)
Definition stable_order {A : Type} (key : A -> Q) (before : A -> A -> Prop)
  (x y : A) : Prop :=
  key y < key x \/ (key x == key y /\ before x y).

(** The keyword score of a keyword list on a lower-cased text: the word
    counts of the keywords that occur in the text as substrings, summed
    and divided by the length of the list. *)
Definition word_count (keyword : string) : Z := Z.of_nat (length (split keyword)).

Definition matched_keywords (keywords : list string) (text_lower : string)
  : list string :=
  List.filter (fun keyword => contains keyword text_lower) keywords.

Fixpoint total (xs : list Z) : Z :=
  match xs with
  | [] => 0%Z
  | x :: rest => (x + total rest)%Z
  end.

Definition keyword_score (keywords : list string) (text_lower : string) : Q :=
  inject_Z (total (map word_count (matched_keywords keywords text_lower)))
  / inject_Z (Z.of_nat (length keywords)).

(** The keyword score of a category, 0 for a category without keywords. *)
Fixpoint keywords_of (table : list (string * list string)) (category : string)
  : option (list string) :=
  match table with
  | [] => None
  | (c, keywords) :: rest =>
      if String.eqb c category then Some keywords else keywords_of rest category
  end.

Definition keyword_score_of (category : string) (text_lower : string) : Q :=
  match keywords_of WASTE_CATEGORIES category with
  | Some keywords => keyword_score keywords text_lower
  | None => 0
  end.

(** The categories with at least one matching keyword, with their scores,
    in table order. *)
Definition scored_categories (table : list (string * list string))
  (text_lower : string) : list (string * Q) :=
  map (fun entry => (fst entry, keyword_score (snd entry) text_lower))
    (List.filter
       (fun entry =>
          match matched_keywords (snd entry) text_lower with
          | [] => false
          | _ => true
          end)
       table).

(** The outcome of the semantic stage: the similarity of the text to every
    category, [None] when the encoder or the similarity raises. *)
Definition semantic_scores (cosine_similarity : Embedding -> Embedding -> option Q)
  (self : AIService) (text : string) : option (list (string * Q)) :=
  match model self with
  | None => None
  | Some encode =>
      match encode text with
      | None => None
      | Some e => semantic_scores_over cosine_similarity e (category_embeddings self)
      end
  end.

(** The cosine similarity of two vectors of Euclidean norm 1 is their dot
    product; this instance serves for concrete evaluations. *)
Fixpoint dot (a b : Embedding) : Q :=
  match a, b with
  | x :: a', y :: b' => x * y + dot a' b'
  | _, _ => 0
  end.

Definition cosine_of_unit_vectors (a b : Embedding) : option Q :=
  if (length a =? length b)%nat && (0 <? length a)%nat
  then Some (Qred (dot a b)) else None.

(** A candidate of the similarity search and its score. *)
Definition similarity_of (cosine_similarity : Embedding -> Embedding -> option Q)
  (query : Embedding) (incident : Incident) : option Q :=
  match embedding incident with
  | Some e => cosine_similarity query e
  | None => None
  end.

Definition scanned (exclude_id : Z) (incident : Incident) : bool :=
  negb (Z.eqb (id incident) exclude_id)
  && match embedding incident with
     | Some e => (0 <? length e)%nat
     | None => false
     end.

Definition qualifies (cosine_similarity : Embedding -> Embedding -> option Q)
  (query : Embedding) (exclude_id : Z) (threshold : Q) (incident : Incident)
  : bool :=
  scanned exclude_id incident
  && match similarity_of cosine_similarity query incident with
     | Some s => Qle_bool threshold s
     | None => false
     end.

(** The scan of the similarity search without the threshold: every
    scanned candidate with its score, [None] when a similarity raises. *)
Fixpoint similarities_of (cosine_similarity : Embedding -> Embedding -> option Q)
  (query : Embedding) (incidents : list Incident)
  : option (list (Incident * Q)) :=
  match incidents with
  | [] => Some []
  | incident :: rest =>
      match embedding incident with
      | Some e =>
          if (0 <? length e)%nat then
            match cosine_similarity query e with
            | None => None
            | Some s =>
                match similarities_of cosine_similarity query rest with
                | None => None
                | Some sims => Some ((incident, s) :: sims)
                end
            end
          else similarities_of cosine_similarity query rest
      | None => similarities_of cosine_similarity query rest
      end
  end.

(** [a] occurs in [l], and its first occurrence comes before any
    occurrence of [b]. *)
Definition first_before (a b : string) (l : list string) : Prop :=
  a <> b /\
  exists pre post, l = (pre ++ a :: post)%list /\ ~ In a pre /\ ~ In b pre.

(** The number of occurrences of a token. *)
Definition frequency (w : string) (tokens : list string) : nat :=
  count_occ string_dec tokens w.

(** [a] ranks before [b]: it is more frequent, or as frequent and seen
    first. *)
Definition ranks_before (tokens : list string) (a b : string) : Prop :=
  (frequency b tokens < frequency a tokens)%nat
  \/ (frequency a tokens = frequency b tokens /\ first_before a b tokens).

(** What the frequency dict holds after the tokens [done]: every distinct
    token once, with its number of occurrences, in first-seen order. *)
Definition counted (done : list string) (word_freq : list (string * Z)) : Prop :=
  List.NoDup (map fst word_freq)
  /\ (forall w, In w (map fst word_freq) <-> In w done)
  /\ (forall w c, In (w, c) word_freq -> c = Z.of_nat (frequency w done))
  /\ StronglySorted (fun a b => first_before a b done) (map fst word_freq).

(** The tokens that [extract_keywords] keeps. *)
Definition kept (stopwords : list string) (word : string) : bool :=
  isalpha word
  && negb (existsb (String.eqb word) stopwords)
  && (2 <? String.length word)%nat.

End Spec.

Module AnalyticsSpec.
Import Analytics.
Local Open Scope R_scope.

(** The arithmetic mean and the population standard deviation of a list of
    counts. *)
Fixpoint Rtotal (xs : list R) : R :=
  match xs with
  | [] => 0
  | x :: rest => x + Rtotal rest
  end.

Definition population_mean (counts : list Z) : R :=
  Rtotal (map IZR counts) / INR (length counts).



(** Buckets of the loop over the waste types. *)
Definition empty_buckets : Buckets :=
  {| b_rising := []; b_falling := []; b_stable := []; b_new := [] |}.

Definition join_buckets (a b : Buckets) : Buckets :=
  {| b_rising := (b_rising a ++ b_rising b)%list;
     b_falling := (b_falling a ++ b_falling b)%list;
     b_stable := (b_stable a ++ b_stable b)%list;
     b_new := (b_new a ++ b_new b)%list |}.

End AnalyticsSpec.

(* ================================================================== *)
(** * Concrete inputs *)
(* ================================================================== *)

Module Examples.
Import Py AI Spec.
Local Open Scope Q_scope.

(** A service whose encoder places every text on the unit vector
    [(3/5, 4/5)], with two reference embeddings. *)
Definition two_axis_service : AIService :=
  {| model := Some (fun _ => Some [3 # 5; 4 # 5]);
     stopwords := ["the"; "and"; "was"; "near"];
     category_embeddings := [("plastic", [1; 0]); ("glass", [0; 1])] |}.

(** A service whose encoder is weakly aligned with the first reference. *)
Definition weak_service : AIService :=
  {| model := Some (fun _ => Some [1; 0]);
     stopwords := [];
     category_embeddings := [("plastic", [5 # 13; 12 # 13]); ("glass", [0; 1])] |}.

(** A service whose encoder points away from every reference. *)
Definition opposite_service : AIService :=
  {| model := Some (fun _ => Some [-1; 0]);
     stopwords := [];
     category_embeddings := [("plastic", [1; 0]); ("glass", [1; 0])] |}.

(** A service whose encoder raises. *)
Definition failing_service : AIService :=
  {| model := Some (fun _ => None);
     stopwords := [];
     category_embeddings := [("plastic", [1; 0]); ("glass", [0; 1])] |}.

(** A small incidents table: unit embeddings, one row without embedding,
    one with an empty embedding. *)
Definition incidents_table : list Incident :=
  [ {| id := 1; description := "bottles by the river"; embedding := Some [1; 0] |};
    {| id := 2; description := "glass on the pavement"; embedding := Some [4 # 5; 3 # 5] |};
    {| id := 3; description := "old sofa"; embedding := Some [0; 1] |};
    {| id := 4; description := "not processed yet"; embedding := None |};
    {| id := 5; description := "empty vector"; embedding := Some [] |};
    {| id := 6; description := "more bottles"; embedding := Some [1; 0] |} ].

(** Seven days with ten incidents on six of them and fifty on the last. *)
Definition week : list (Z * Z) :=
  [ (1, 10); (2, 10); (3, 10); (4, 10); (5, 10); (6, 10); (7, 50) ]%Z.

(** Incident counts of four locations. *)
Definition location_rows : list (string * Z) :=
  [ ("A", 5); ("B", 5); ("C", 5); ("D", 40) ]%Z.

(** A tokenizer that splits on whitespace. *)
Definition whitespace_tokenize (text : string) : option (list string) :=
  Some (split text).

End Examples.

(* ================================================================== *)
(** * app/modules/ai/service.py: start-up and incident processing *)
(* ================================================================== *)

Module AILifecycle.
Import Py AI.
Local Open Scope Q_scope.

(** [WASTE_CATEGORY_DESCRIPTIONS]: the reference text of every category,
    in the order of the dict literal. *)
Definition WASTE_CATEGORY_DESCRIPTIONS : list (string * string) :=
  [
    ("plastic",
       "Plastic waste including bottles, bags, packaging, "
       ++ "containers, wrappers, polythene, polyethylene, PET bottles, "
       ++ "HDPE containers, PVC materials, straws, cups, lids, plastic "
       ++ "film, and synthetic polymers");
    ("organic",
       "Organic and biodegradable waste including food scraps, "
       ++ "kitchen waste, vegetables, fruits, compostable materials, "
       ++ "garden waste, plant matter, banana peels, apple cores, "
       ++ "leftovers, spoiled food, rotten produce, and natural "
       ++ "biodegradable matter");
    ("paper",
       "Paper and cardboard waste including newspapers, magazines, "
       ++ "cardboard boxes, cartons, tissue paper, documents, books, "
       ++ "notebooks, envelopes, and paper packaging materials");
    ("glass",
       "Glass waste including bottles, jars, broken glass, window "
       ++ "glass, mirrors, wine bottles, beer bottles, glassware, and "
       ++ "glass containers");
    ("metal",
       "Metal waste including cans, aluminum, steel, tin, iron, "
       ++ "copper, metal foil, wire, scrap metal, batteries with metal "
       ++ "components, and metallic materials");
    ("electronic",
       "Electronic waste and e-waste including computers, phones, "
       ++ "mobile devices, laptops, televisions, monitors, cables, "
       ++ "chargers, batteries, appliances, electronic devices, and "
       ++ "gadgets");
    ("hazardous",
       "Hazardous and toxic waste including chemicals, toxic "
       ++ "substances, paint, oil, solvents, batteries, pesticides, "
       ++ "medicines, pharmaceuticals, dangerous materials, flammable "
       ++ "substances, and corrosive materials");
    ("textile",
       "Textile and fabric waste including clothing, fabric scraps, "
       ++ "cloth, clothes, shirts, pants, dresses, shoes, leather "
       ++ "items, and rags");
    ("construction",
       "Construction and demolition waste including concrete, "
       ++ "bricks, wood, debris, rubble, tiles, drywall, lumber, and "
       ++ "building materials");
    ("mixed",
       "Mixed and general waste including household waste, municipal "
       ++ "waste, various types of waste, assorted waste materials, "
       ++ "multiple waste types, and diverse waste materials") ].

(** What a method lets escape: an exception of its own, or the exception
    of a third-party call passed on unchanged. *)
Inductive raised : Type :=
| Own (e : exn)
| ThirdParty.

Inductive outcome (A : Type) : Type :=
| Done (a : A)
| Fail (r : raised).
Arguments Done {A} a.
Arguments Fail {A} r.

Definition not_initialized : raised :=
  Own (RuntimeError "AI Service not initialized").

Definition generate_embedding (self : AIService) (text : string)
  : outcome Embedding :=
  match model self with
  | None => Fail not_initialized
  | Some encode =>
      match encode text with
      | Some embedding => Done embedding
      | None => Fail ThirdParty
      end
  end.

(** The dict returned by [process_incident]. *)
Record Processed : Type := {
  waste_type : string;
  confidence : Q;
  keywords : list string;
  embedding : Embedding
}.

Section WithLibraries.

Variable cosine_similarity : Embedding -> Embedding -> option Q.
Variable word_tokenize : string -> option (list string).

Definition process_incident (self : AIService) (description location : string)
  : outcome Processed :=
  match classify_waste_type cosine_similarity self description with
  | Raise e => Fail (Own e)
  | Return (waste_type, confidence) =>
      let keywords := extract_keywords word_tokenize self description 5 in
      let combined_text := description ++ " " ++ location in
      match generate_embedding self combined_text with
      | Fail r => Fail r
      | Done embedding =>
          Done {| waste_type := waste_type;
                  confidence := confidence;
                  keywords := keywords;
                  embedding := embedding |}
      end
  end.

End WithLibraries.

(** The singleton instance together with the class flag [_initialized]. *)
Record Service : Type := {
  self : AIService;
  _initialized : bool
}.

(** The instance as [__init__] leaves it. *)
Definition fresh : Service :=
  {| self := {| model := None; stopwords := []; category_embeddings := [] |};
     _initialized := false |}.

(** The loop of [initialize] over the category descriptions: the dict
    [category_embeddings] as the loop leaves it, and whether it ran to
    its end ([false] when [encode] raised). *)
Fixpoint encode_categories (encode : string -> option Embedding)
  (descriptions : list (string * string))
  (category_embeddings : list (string * Embedding))
  : list (string * Embedding) * bool :=
  match descriptions with
  | [] => (category_embeddings, true)
  | (category, description) :: rest =>
      match encode description with
      | None => (category_embeddings, false)
      | Some e =>
          encode_categories encode rest (dict_set category_embeddings category e)
      end
  end.

Section Loading.

(** [stopwords.words('english')], after the NLTK look-ups and downloads,
    and [SentenceTransformer(settings.AI_MODEL_NAME)]; [None] when they
    raise. *)
Variable load_stopwords : option (list string).
Variable load_model : option (string -> option Embedding).

Definition initialize (service : Service) : Service * outcome unit :=
  if _initialized service then (service, Done tt)
  else
    match load_stopwords with
    | None => (service, Fail ThirdParty)
    | Some words =>
        match load_model with
        | None =>
            ({| self := {| model := model (self service);
                           stopwords := words;
                           category_embeddings :=
                             category_embeddings (self service) |};
                _initialized := false |},
             Fail ThirdParty)
        | Some encode =>
            let '(embeddings, complete) :=
              encode_categories encode WASTE_CATEGORY_DESCRIPTIONS
                (category_embeddings (self service)) in
            ({| self := {| model := Some encode;
                           stopwords := words;
                           category_embeddings := embeddings |};
                _initialized := complete |},
             if complete then Done tt else Fail ThirdParty)
        end
    end.

End Loading.

End AILifecycle.

(* ================================================================== *)
(** * app/modules/incidents/routes.py: semantic search *)
(* ================================================================== *)

Module Routes.
Import Py AI AILifecycle.
Local Open Scope Q_scope.

(** The answer of a route: the body of a 200 response, or the
    [HTTPException] with status 500 raised in the [except] clause. *)
Inductive response (A : Type) : Type :=
| Ok (body : A)
| InternalServerError.
Arguments Ok {A} body.
Arguments InternalServerError {A}.

Section WithLibraries.

Variable cosine_similarity : Embedding -> Embedding -> option Q.
Variable load_stopwords : option (list string).
Variable load_model : option (string -> option Embedding).

(** [db] is the content of the incidents table, in the order in which the
    database returns rows. *)
Definition semantic_search (service : Service) (db : list Incident)
  (query : string) (threshold : Q) (limit : Z)
  : Service * response (list Incident) :=
  let '(service, started) := initialize load_stopwords load_model service in
  match started with
  | Fail _ => (service, InternalServerError)
  | Done _ =>
      match generate_embedding (self service) query with
      | Fail _ => (service, InternalServerError)
      | Done query_embedding =>
          let all_incidents :=
            List.filter
              (fun incident =>
                 match AI.embedding incident with
                 | Some _ => true
                 | None => false
                 end)
              db in
          match all_incidents with
          | [] => (service, Ok [])
          | _ =>
              match
                similarity_scan cosine_similarity query_embedding threshold
                  all_incidents
              with
              | None => (service, InternalServerError)
              | Some similarities =>
                  let similarities := sort_desc snd similarities in
                  (service, Ok (map fst (slice_to similarities limit)))
              end
          end
      end
  end.

End WithLibraries.

End Routes.

(* ================================================================== *)
(** * app/modules/analytics/service.py: keyword frequency and series *)
(* ================================================================== *)

Module AnalyticsQueries.
Import Py.
Local Open Scope Z_scope.

(** [collections.Counter(xs)]: every distinct element with its number of
    occurrences, in first-seen order. *)
Definition Counter (xs : list string) : list (string * Z) :=
  fold_left
    (fun (counts : list (string * Z)) (x : string) =>
       dict_set counts x (dict_get counts x 0 + 1))
    xs [].

(** [counter.most_common(n)]: the [n] entries of largest count, a tie
    going to the entry seen first; nothing for [n <= 0]. *)
Definition most_common (counts : list (string * Z)) (n : Z)
  : list (string * Z) :=
  firstn (Z.to_nat n) (sort_desc (fun item => inject_Z (snd item)) counts).

Record KeywordCount : Type := {
  keyword : string;
  count : Z
}.

(** [rows] is the column [keywords] of the incidents that have one. *)
Definition get_keyword_frequency (rows : list (list string)) (limit : Z)
  : list KeywordCount :=
  let all_keywords :=
    fold_left
      (fun (all_keywords : list string) (row : list string) =>
         match row with
         | [] => all_keywords
         | _ => (all_keywords ++ row)%list
         end)
      rows [] in
  let keyword_counts := Counter all_keywords in
  map (fun item => {| keyword := fst item; count := snd item |})
    (most_common keyword_counts limit).

(** [key in d] on an insertion-ordered dict. *)
Definition dict_has {V : Type} (d : list (string * V)) (k : string) : bool :=
  existsb (fun entry => String.eqb (fst entry) k) d.

(** [rows] is the result of the grouped query, one [(date, waste_type,
    count)] row per day and waste type, ordered by date; a date is its day
    number. *)
Definition get_waste_type_trends (rows : list (Z * string * Z))
  : list (string * list (Z * Z)) :=
  fold_left
    (fun (trends : list (string * list (Z * Z))) (row : Z * string * Z) =>
       let '(date, waste_type, count) := row in
       let trends :=
         if dict_has trends waste_type then trends
         else dict_set trends waste_type [] in
       dict_set trends waste_type
         (dict_get trends waste_type [] ++ [(date, count)])%list)
    rows [].

End AnalyticsQueries.

(* ================================================================== *)
(** * Vocabulary for the start-up of the AI service *)
(* ================================================================== *)

Module LifecycleSpec.
Import Py AI AILifecycle.

(** A service that has not been started, or whose start-up failed: the
    flag is down and the categories stored so far are the first ones of
    the description table. *)
Definition restartable (service : Service) : Prop :=
  _initialized service = false
  /\ exists n,
       map fst (category_embeddings (self service))
       = firstn n (map fst WASTE_CATEGORY_DESCRIPTIONS).

(** The embeddings of the reference texts, category by category; [None]
    when the encoder raises on one of them. *)
Fixpoint embeddings_of (encode : string -> option Embedding)
  (descriptions : list (string * string)) : option (list (string * Embedding)) :=
  match descriptions with
  | [] => Some []
  | (category, description) :: rest =>
      match encode description, embeddings_of encode rest with
      | Some e, Some others => Some ((category, e) :: others)
      | _, _ => None
      end
  end.

(** A service whose start-up stopped after two categories. *)
Definition half_started : Service :=
  {| self := {| model := None; stopwords := ["the"];
                category_embeddings :=
                  [("plastic", [0%Q; 1%Q]); ("organic", [0%Q; 1%Q])] |};
     _initialized := false |}.

(** A service whose encoder answers every text with the same unit vector,
    started or not. *)
Definition started_service : Service :=
  {| self := Examples.two_axis_service; _initialized := true |}.

Definition constant_encoder (text : string) : option Embedding :=
  Some [(3 # 5)%Q; (4 # 5)%Q].

(** An encoder that raises on the reference text of glass. *)
Definition glass_blind_encoder (text : string) : option Embedding :=
  if contains "Glass waste" text then None else Some [1%Q; 0%Q].

(** An encoder that raises on one text. *)
Definition picky_encoder (text : string) : option Embedding :=
  if String.eqb text "Broken glass" then None else Some [1%Q; 0%Q].

Definition picky_service : AIService :=
  {| model := Some picky_encoder;
     stopwords := ["the"];
     category_embeddings := [("plastic", [1%Q; 0%Q]); ("glass", [0%Q; 1%Q])] |}.

End LifecycleSpec.

(* ================================================================== *)
(** * Vocabulary for the waste type series *)
(* ================================================================== *)

Module QueriesSpec.

(** The [(date, count)] points of a waste type, in the order of the
    rows. *)
Definition series_of (waste_type : string) (rows : list (Z * string * Z))
  : list (Z * Z) :=
  map (fun row => (fst (fst row), snd row))
    (List.filter (fun row => String.eqb (snd (fst row)) waste_type) rows).

End QueriesSpec.

(* ================================================================== *)
(** * Python floats as IEEE 754 binary64 numbers *)
(* ================================================================== *)

(** The operations of a Python [float], on the specification of binary64
    arithmetic of the Standard Library ([SpecFloat], precision 53, largest
    exponent 1024): every operation rounds to the nearest representable
    number, a tie going to the even mantissa. *)
Module Binary64.
Import SpecFloat.

Definition prec : Z := 53.
Definition emax : Z := 1024.

Definition float : Type := spec_float.

(** [a + b], [a - b], [a * b], [a < b], [a <= b] and [abs(a)] on floats. *)
Definition add : float -> float -> float := SFadd prec emax.
Definition sub : float -> float -> float := SFsub prec emax.
Definition mul : float -> float -> float := SFmul prec emax.
Definition ltb : float -> float -> bool := SFltb.
Definition leb : float -> float -> bool := SFleb.
Definition abs : float -> float := SFabs.

Definition is_nan (x : float) : bool :=
  match x with
  | S754_nan => true
  | _ => false
  end.

(** [float(z)], the conversion that precedes an operation of an [int]
    with a [float]. *)
Definition of_int (z : Z) : float := binary_normalize prec emax z 0 false.

(** [a / b] on two [int]s, for [b <> 0]: the quotient of the integers,
    rounded once. *)
Definition exact (z : Z) : float :=
  match z with
  | Z0 => S754_zero false
  | Zpos p => S754_finite false p 0
  | Zneg p => S754_finite true p 0
  end.

Definition true_div (a b : Z) : float := SFdiv prec emax (exact a) (exact b).

(** A decimal literal with [ndigits] digits after the point: [decimal 25 2]
    is the float that Python reads from [0.25]. *)
Definition decimal (digits : Z) (ndigits : nat) : float :=
  true_div digits (Zpos (Py.pow10 ndigits)).

Definition zero : float := S754_zero false.
Definition one : float := of_int 1.

(** [min(a, b)]: the second argument when it is smaller, else the first. *)
Definition min (a b : float) : float := if ltb b a then b else a.

(** The number a finite float stands for. *)
Definition to_Q (x : float) : Q :=
  match x with
  | S754_finite s m e =>
      let v := cond_Zopp s (Zpos m) in
      match e with
      | Zneg p => Qmake v (2 ^ p)
      | _ => inject_Z (v * 2 ^ e)
      end
  | _ => 0%Q
  end.

(** [round(x, ndigits)] for a small [ndigits >= 0]: the value of [x] is
    rounded to [ndigits] decimals, a tie going to the even digit, and the
    decimal is read back as a float; zeros, infinities and NaN are
    returned as they are. *)
Definition round (x : float) (ndigits : nat) : float :=
  match x with
  | S754_finite s _ _ =>
      let p := Zpos (Py.pow10 ndigits) in
      let digits := Py.round_half_even (to_Q x * inject_Z p) in
      if (digits =? 0)%Z then S754_zero s else true_div digits p
  | _ => x
  end.

(** [x < z] and [x > z] for a float and an [int]: Python compares the two
    numbers exactly, without converting the int. *)
Definition compare_int (x : float) (z : Z) : option comparison :=
  match x with
  | S754_nan => None
  | S754_infinity s => Some (if s then Lt else Gt)
  | _ => Some (Qcompare (to_Q x) (inject_Z z))
  end.

Definition lt_int (x : float) (z : Z) : bool :=
  match compare_int x z with
  | Some Lt => true
  | _ => false
  end.

Definition gt_int (x : float) (z : Z) : bool :=
  match compare_int x z with
  | Some Gt => true
  | _ => false
  end.

(** [max(xs, key=key)] with float keys: the first element whose key is
    not exceeded; [None] stands for the [ValueError] raised on an empty
    sequence. *)
Fixpoint max_from {A : Type} (key : A -> float) (best : A) (xs : list A) : A :=
  match xs with
  | [] => best
  | x :: rest =>
      if ltb (key best) (key x) then max_from key x rest
      else max_from key best rest
  end.

Definition max_by {A : Type} (key : A -> float) (xs : list A) : option A :=
  match xs with
  | [] => None
  | x :: rest => Some (max_from key x rest)
  end.

(** The order of the floats other than NaN is the lexicographic order of
    their ranks: the class (infinities outside, zeros in the middle), then
    exponent and mantissa, both negated for a negative number. *)
Definition rank (x : float) : option (Z * Z * Z) :=
  match x with
  | S754_nan => None
  | S754_infinity true => Some (-2, 0, 0)%Z
  | S754_infinity false => Some (2, 0, 0)%Z
  | S754_zero _ => Some (0, 0, 0)%Z
  | S754_finite true m e => Some (-1, - e, Zneg m)%Z
  | S754_finite false m e => Some (1, e, Zpos m)%Z
  end.

Definition lex (a b : Z * Z * Z) : comparison :=
  match (fst (fst a) ?= fst (fst b))%Z with
  | Eq =>
      match (snd (fst a) ?= snd (fst b))%Z with
      | Eq => (snd a ?= snd b)%Z
      | c => c
      end
  | c => c
  end.

End Binary64.

(* ================================================================== *)
(** * app/modules/ai/service.py: classification on binary64 floats *)
(* ================================================================== *)

(** The classifier once more, with the scores as the binary64 numbers
    that Python computes; an embedding stays a list of exact numbers, which
    is read by the similarity only.  The keyword loop, the tables and the
    service object are those of [AI]. *)
Module AI64.
Import Py AI Binary64.

Definition keyword_scores_over (table : list (string * list string))
  (description_lower : string) : list (string * float) :=
  fold_left
    (fun (keyword_scores : list (string * float))
         (entry : string * list string) =>
       let '(category, keywords) := entry in
       let '(score, matches) := keyword_loop keywords description_lower in
       if (0 <? matches)%Z
       then dict_set keyword_scores category
              (true_div score (Z.of_nat (length keywords)))
       else keyword_scores)
    table [].

Definition _classify_by_keywords_only (description : string)
  : string * float :=
  let description_lower := lower description in
  let scores := keyword_scores_over WASTE_CATEGORIES description_lower in
  match max_by snd scores with
  | None => ("unclassified", zero)
  | Some best_category =>
      let max_score := snd best_category in
      let confidence := min (mul max_score (of_int 2)) one in
      (fst best_category, round confidence 2)
  end.

Section WithLibraries.

(** scikit-learn's [cosine_similarity] on two row vectors, converted by
    [float(similarity)]; [None] when it raises. *)
Variable cosine_similarity : Embedding -> Embedding -> option float.

Fixpoint semantic_scores_over (description_embedding : Embedding)
  (embeddings : list (string * Embedding)) : option (list (string * float)) :=
  match embeddings with
  | [] => Some []
  | (category, category_embedding) :: rest =>
      match cosine_similarity description_embedding category_embedding with
      | None => None
      | Some similarity =>
          match semantic_scores_over description_embedding rest with
          | None => None
          | Some semantic_scores => Some ((category, similarity) :: semantic_scores)
          end
      end
  end.

(** The body of the [try] block of [classify_waste_type]; [None] when an
    exception is raised inside it. *)
Definition classify_try (encode : string -> option Embedding)
  (embeddings : list (string * Embedding)) (description : string)
  : option (string * float) :=
  match encode description with
  | None => None
  | Some description_embedding =>
      match semantic_scores_over description_embedding embeddings with
      | None => None
      | Some semantic_scores =>
          match max_by snd semantic_scores with
          | None => None
          | Some best_semantic_category =>
              let semantic_category := fst best_semantic_category in
              let semantic_confidence := snd best_semantic_category in
              let description_lower := lower description in
              let keyword_scores :=
                keyword_scores_over WASTE_CATEGORIES description_lower in
              if leb (decimal 50 2) semantic_confidence then
                let keyword_boost :=
                  mul (dict_get keyword_scores semantic_category (of_int 0))
                    (decimal 2 1) in
                let final_confidence :=
                  min (add semantic_confidence keyword_boost) one in
                Some (semantic_category, round final_confidence 2)
              else
                match max_by snd keyword_scores with
                | Some best_keyword_match =>
                    let keyword_category := fst best_keyword_match in
                    let keyword_confidence :=
                      min (mul (snd best_keyword_match) (of_int 2)) one in
                    let final_confidence :=
                      if String.eqb semantic_category keyword_category then
                        let semantic_boost :=
                          mul semantic_confidence (decimal 3 1) in
                        min (add keyword_confidence semantic_boost) one
                      else keyword_confidence in
                    Some (keyword_category, round final_confidence 2)
                | None =>
                    Some (semantic_category, round semantic_confidence 2)
                end
          end
      end
  end.

Definition classify_waste_type (self : AIService) (description : string)
  : result (string * float) :=
  match model self, category_embeddings self with
  | None, _ | _, [] => Raise (RuntimeError "AI Service not initialized")
  | Some encode, embeddings =>
      match classify_try encode embeddings description with
      | Some answer => Return answer
      | None => Return (_classify_by_keywords_only description)
      end
  end.

End WithLibraries.

End AI64.

(* ================================================================== *)
(** * app/modules/analytics/service.py: anomalies and trends on binary64
      floats *)
(* ================================================================== *)

(** [detect_anomalies] and the trend loop of [analyze_trends] once more,
    with the means, thresholds and percentages as the binary64 numbers
    that Python computes. *)
Module Analytics64.
Import Py Binary64.

Abbreviation Severity := Analytics.Severity.
Abbreviation high := Analytics.high.
Abbreviation medium := Analytics.medium.
Abbreviation Trend := Analytics.Trend.
Abbreviation rising := Analytics.rising.
Abbreviation falling := Analytics.falling.
Abbreviation stable := Analytics.stable.
Abbreviation new := Analytics.new.

(** ** detect_anomalies *)

Record Anomaly : Type := {
  location : string;
  count : Z;
  mean : float;
  threshold : float;
  severity : Severity
}.

(** [rows] is the result of the grouped query, one [(location, count)] row
    per location; the second query returns the rows of the same grouping
    whose count exceeds the threshold, a comparison that the database
    makes on double precision numbers.  [row[1] > threshold * 1.5] is
    Python's comparison of an int with a float. *)
Definition detect_anomalies (rows : list (string * Z))
  (threshold_multiplier : float) : list Anomaly :=
  let location_counts := map snd rows in
  match location_counts with
  | [] => []
  | _ =>
      let mean_count :=
        true_div (Analytics.sum location_counts)
          (Z.of_nat (length location_counts)) in
      let threshold := mul mean_count threshold_multiplier in
      let anomalous :=
        List.filter (fun row => ltb threshold (of_int (snd row))) rows in
      map
        (fun row =>
           {| location := fst row;
              count := snd row;
              mean := round mean_count 2;
              threshold := round threshold 2;
              severity :=
                if lt_int (mul threshold (decimal 15 1)) (snd row)
                then high else medium |})
        anomalous
  end.

(** ** analyze_trends *)

(** A [trend_item]; a stable item has no ["severity"] key. *)
Record TrendItem : Type := {
  waste_type : string;
  current_count : Z;
  previous_count : Z;
  change_percentage : float;
  change_absolute : Z;
  trend : Trend;
  trend_severity : option Severity
}.

Abbreviation NewType := Analytics.NewType.
Abbreviation Summary := Analytics.Summary.

Record TrendReport (Spike : Type) : Type := {
  period_days : Z;
  rising_trends : list TrendItem;
  falling_trends : list TrendItem;
  stable_trends : list TrendItem;
  new_waste_types : list NewType;
  spikes : list Spike;
  summary : Summary
}.
Arguments period_days {Spike} _.
Arguments rising_trends {Spike} _.
Arguments falling_trends {Spike} _.
Arguments stable_trends {Spike} _.
Arguments new_waste_types {Spike} _.
Arguments spikes {Spike} _.
Arguments summary {Spike} _.

(** The four lists filled by the loop over the waste types. *)
Record Buckets : Type := {
  b_rising : list TrendItem;
  b_falling : list TrendItem;
  b_stable : list TrendItem;
  b_new : list NewType
}.

(** One iteration of the loop body. *)
Definition trend_step (current_counts previous_counts : gmap string Z)
  (acc : Buckets) (wt : string) : Buckets :=
  let current := default 0%Z (current_counts !! wt) in
  let previous := default 0%Z (previous_counts !! wt) in
  if (previous =? 0)%Z && (0 <? current)%Z then
    {| b_rising := b_rising acc; b_falling := b_falling acc;
       b_stable := b_stable acc;
       b_new := (b_new acc ++
                 [ {| Analytics.new_waste_type := wt;
                      Analytics.new_count := current;
                      Analytics.new_trend := new |} ])%list |}
  else if (0 <? previous)%Z then
    let change :=
      mul (true_div (current - previous) previous) (of_int 100) in
    let trend_item (t : Trend) (s : option Severity) :=
      {| waste_type := wt;
         current_count := current;
         previous_count := previous;
         change_percentage := round change 1;
         change_absolute := (current - previous)%Z;
         trend := t;
         trend_severity := s |} in
    if gt_int change 20 then
      {| b_rising :=
           (b_rising acc ++
            [ trend_item rising
                (Some (if gt_int change 50 then high else medium)) ])%list;
         b_falling := b_falling acc; b_stable := b_stable acc;
         b_new := b_new acc |}
    else if lt_int change (-20) then
      {| b_rising := b_rising acc;
         b_falling :=
           (b_falling acc ++
            [ trend_item falling
                (Some (if lt_int change (-50) then high else medium)) ])%list;
         b_stable := b_stable acc; b_new := b_new acc |}
    else
      {| b_rising := b_rising acc; b_falling := b_falling acc;
         b_stable := (b_stable acc ++ [ trend_item stable None ])%list;
         b_new := b_new acc |}
  else acc.

Definition by_abs_change (x y : TrendItem) : bool :=
  ltb (abs (change_percentage x)) (abs (change_percentage y)).

(** [current_counts] and [previous_counts] are the results of the two
    grouped queries, [spikes] is what [_detect_daily_spikes] returned (the
    detector is modelled in [Analytics]).  The set of waste types is
    visited in the order of [elements].  The ["analysis_date"] entry of the
    report, a reading of the clock, is left out. *)
Definition analyze_trends {Spike : Type}
  (current_counts previous_counts : gmap string Z)
  (spikes : list Spike) (days : Z) : TrendReport Spike :=
  let all_waste_types : gset string :=
    dom current_counts ∪ dom previous_counts in
  let buckets :=
    fold_left (trend_step current_counts previous_counts)
      (elements all_waste_types)
      {| b_rising := []; b_falling := []; b_stable := []; b_new := [] |} in
  let rising_trends := Py.sort_desc_by by_abs_change (b_rising buckets) in
  let falling_trends := Py.sort_desc_by by_abs_change (b_falling buckets) in
  {| period_days := days;
     rising_trends := rising_trends;
     falling_trends := falling_trends;
     stable_trends := b_stable buckets;
     new_waste_types := b_new buckets;
     spikes := spikes;
     summary :=
       {| Analytics.total_waste_types := size all_waste_types;
          Analytics.trending_up := length rising_trends;
          Analytics.trending_down := length falling_trends;
          Analytics.stable_count := length (b_stable buckets) |} |}.

End Analytics64.

(* ================================================================== *)
(** * Vocabulary of the statements on binary64 floats *)
(* ================================================================== *)

Module Spec64.
Import Py AI Spec Binary64.

(** [x] is the first element of [xs] whose key is maximal in the order of
    the floats. *)
Definition is_first_max {A : Type} (key : A -> float) (xs : list A) (x : A)
  : Prop :=
  exists pre post,
    xs = (pre ++ x :: post)%list
    /\ Forall (fun y => ltb (key y) (key x) = true) pre
    /\ Forall (fun y => leb (key y) (key x) = true) post.

(** The keyword score of a keyword list on a lower-cased text: the word
    counts of the keywords that occur in the text, summed and divided by
    the length of the list. *)
Definition keyword_score (keywords : list string) (text_lower : string)
  : float :=
  true_div (total (map word_count (matched_keywords keywords text_lower)))
    (Z.of_nat (length keywords)).

(** The keyword score of a category, 0 for a category without a matching
    keyword. *)
Definition keyword_score_of (category : string) (text_lower : string)
  : float :=
  match keywords_of WASTE_CATEGORIES category with
  | Some keywords =>
      match matched_keywords keywords text_lower with
      | [] => zero
      | _ => keyword_score keywords text_lower
      end
  | None => zero
  end.

(** The categories with at least one matching keyword, with their scores,
    in table order. *)
Definition scored_categories (table : list (string * list string))
  (text_lower : string) : list (string * float) :=
  map (fun entry => (fst entry, keyword_score (snd entry) text_lower))
    (List.filter
       (fun entry =>
          match matched_keywords (snd entry) text_lower with
          | [] => false
          | _ => true
          end)
       table).

(** The outcome of the semantic stage. *)
Definition semantic_scores
  (cosine_similarity : Embedding -> Embedding -> option float)
  (self : AIService) (text : string) : option (list (string * float)) :=
  match model self with
  | None => None
  | Some encode =>
      match encode text with
      | None => None
      | Some e =>
          AI64.semantic_scores_over cosine_similarity e
            (category_embeddings self)
      end
  end.

(** The float nearest to a rational, and a similarity that answers with
    the float nearest to the dot product. *)
Definition of_Q (q : Q) : float := true_div (Qnum q) (Zpos (Qden q)).

Definition cosine_of_unit_vectors (a b : Embedding) : option float :=
  option_map of_Q (Spec.cosine_of_unit_vectors a b).

(** A service with the one reference category [mixed], and a similarity
    that answers every pair of vectors with the same number. *)
Definition mixed_service : AIService :=
  {| model := Some (fun _ => Some [1%Q; 0%Q]);
     stopwords := [];
     category_embeddings := [("mixed", [1%Q; 0%Q])] |}.

Definition constant_similarity (s : float) (a b : Embedding) : option float :=
  Some s.

End Spec64.

Module AnalyticsSpec64.
Import Py Spec Binary64 Analytics64.

(** The arithmetic mean of a list of counts. *)
Definition mean_of (counts : list Z) : float :=
  true_div (total counts) (Z.of_nat (length counts)).

(** The percentage change of a count over the previous window. *)
Definition change_percent (current previous : Z) : float :=
  mul (true_div (current - previous) previous) (of_int 100).

(** The record built for a waste type whose previous count is positive. *)
Definition trend_record (wt : string) (current previous : Z) (t : Trend)
  (s : option Severity) : TrendItem :=
  {| waste_type := wt;
     current_count := current;
     previous_count := previous;
     change_percentage := round (change_percent current previous) 1;
     change_absolute := (current - previous)%Z;
     trend := t;
     trend_severity := s |}.

(** The trend and the severity that go with a percentage change: rising
    above +20, falling below -20, stable otherwise; a rising or falling
    trend is of high severity when the change exceeds 50 in absolute value
    and of medium severity otherwise, a stable trend has no severity. *)
Definition classify_change (change : float) : Trend * option Severity :=
  let s := if gt_int (abs change) 50 then high else medium in
  if gt_int change 20 then (rising, Some s)
  else if lt_int change (-20) then (falling, Some s)
  else (stable, None).

(** The list of the report that holds the records of a trend. *)
Definition trends_of {Spike : Type} (t : Trend) (report : TrendReport Spike)
  : list TrendItem :=
  match t with
  | Analytics.rising => rising_trends report
  | Analytics.falling => falling_trends report
  | Analytics.stable => stable_trends report
  | Analytics.new => []
  end.

(** Buckets of the loop over the waste types. *)
Definition empty_buckets : Buckets :=
  {| b_rising := []; b_falling := []; b_stable := []; b_new := [] |}.

Definition single_bucket (item : TrendItem) : Buckets :=
  match trend item with
  | Analytics.rising =>
      {| b_rising := [item]; b_falling := []; b_stable := []; b_new := [] |}
  | Analytics.falling =>
      {| b_rising := []; b_falling := [item]; b_stable := []; b_new := [] |}
  | Analytics.stable =>
      {| b_rising := []; b_falling := []; b_stable := [item]; b_new := [] |}
  | Analytics.new => empty_buckets
  end.

Definition join_buckets (a b : Buckets) : Buckets :=
  {| b_rising := (b_rising a ++ b_rising b)%list;
     b_falling := (b_falling a ++ b_falling b)%list;
     b_stable := (b_stable a ++ b_stable b)%list;
     b_new := (b_new a ++ b_new b)%list |}.

End AnalyticsSpec64.

(* ================================================================== *)
(** * Facts about the Python built-ins *)
(* ================================================================== *)

Module PyFacts.
Import Py Spec.
Local Open Scope Q_scope.

(** ** Comparison and maximum *)

Lemma Qlt_bool_true (a b : Q) : Qlt_bool a b = true <-> a < b.
Proof.
  unfold Qlt_bool. rewrite negb_true_iff.
  split; intros H.
  - apply Qnot_le_lt. intros Hle. apply Qle_bool_iff in Hle. congruence.
  - destruct (Qle_bool b a) eqn:E; [|reflexivity].
    apply Qle_bool_iff in E. exfalso. exact (Qlt_not_le _ _ H E).
Qed.

Lemma Qlt_bool_false (a b : Q) : Qlt_bool a b = false <-> b <= a.
Proof.
  unfold Qlt_bool. rewrite negb_false_iff. apply Qle_bool_iff.
Qed.

Lemma max_from_keeps {A : Type} (key : A -> Q) (post : list A) (b : A) :
  Forall (fun y => key y <= key b) post -> max_from key b post = b.
Proof.
  induction post as [|y post IH]; intros H; simpl; [reflexivity|].
  inversion H as [|? ? Hy Hpost]; subst.
  destruct (Qlt_bool (key b) (key y)) eqn:E.
  - apply Qlt_bool_true in E. exfalso. exact (Qlt_not_le _ _ E Hy).
  - apply IH, Hpost.
Qed.

Lemma max_from_reaches {A : Type} (key : A -> Q) (pre post : list A) (x : A) :
  forall best,
    key best < key x ->
    Forall (fun y => key y < key x) pre ->
    Forall (fun y => key y <= key x) post ->
    max_from key best (pre ++ x :: post) = x.
Proof.
  induction pre as [|p pre IH]; intros best Hb Hpre Hpost; simpl.
  - apply Qlt_bool_true in Hb. rewrite Hb. apply max_from_keeps, Hpost.
  - inversion Hpre as [|? ? Hp Hpre']; subst.
    destruct (Qlt_bool (key best) (key p)); apply IH; assumption.
Qed.

Lemma max_by_first_max {A : Type} (key : A -> Q) (xs : list A) (x : A) :
  is_first_max key xs x -> max_by key xs = Some x.
Proof.
  intros (pre & post & -> & Hpre & Hpost).
  destruct pre as [|p pre]; simpl.
  - f_equal. apply max_from_keeps, Hpost.
  - inversion Hpre; subst. f_equal. apply max_from_reaches; assumption.
Qed.

Lemma max_from_first_max {A : Type} (key : A -> Q) (xs : list A) :
  forall done best,
    is_first_max key done best ->
    is_first_max key (done ++ xs) (max_from key best xs).
Proof.
  induction xs as [|x xs IH]; intros done best Hmax; simpl.
  - rewrite app_nil_r. exact Hmax.
  - replace (done ++ x :: xs)%list with ((done ++ [x]) ++ xs)%list
      by (rewrite <- app_assoc; reflexivity).
    destruct Hmax as (pre & post & -> & Hpre & Hpost).
    destruct (Qlt_bool (key best) (key x)) eqn:E; apply IH.
    + apply Qlt_bool_true in E.
      exists (pre ++ best :: post)%list, []. split; [reflexivity|].
      split; [|constructor].
      apply Forall_app. split.
      * eapply List.Forall_impl; [|exact Hpre]. intros y Hy. simpl in Hy.
        eapply Qlt_trans; eassumption.
      * constructor; [exact E|].
        eapply List.Forall_impl; [|exact Hpost]. intros y Hy. simpl in Hy.
        eapply Qle_lt_trans; eassumption.
    + apply Qlt_bool_false in E.
      exists pre, (post ++ [x])%list. split.
      * rewrite <- app_assoc. reflexivity.
      * split; [exact Hpre|]. apply Forall_app. split; [exact Hpost|].
        constructor; [exact E|constructor].
Qed.

Lemma max_by_nonempty {A : Type} (key : A -> Q) (xs : list A) :
  xs <> [] -> exists x, max_by key xs = Some x /\ is_first_max key xs x.
Proof.
  destruct xs as [|x xs]; [congruence|]. intros _.
  exists (max_from key x xs). split; [reflexivity|].
  apply (max_from_first_max key xs [x] x).
  exists [], []. repeat split; constructor.
Qed.

(** ** Rounding *)

Lemma round_half_even_comp (q q' : Q) :
  q == q' -> round_half_even q = round_half_even q'.
Proof.
  intros H. unfold round_half_even.
  rewrite (Qfloor_comp _ _ H).
  assert (Hc : (q - inject_Z (Qfloor q') ?= 1 # 2)
               = (q' - inject_Z (Qfloor q') ?= 1 # 2)).
  { apply Qcompare_comp; [|reflexivity]. rewrite H. reflexivity. }
  rewrite Hc. reflexivity.
Qed.

Lemma round_comp (q q' : Q) (n : nat) : q == q' -> round q n = round q' n.
Proof.
  intros H. unfold round. apply Qred_complete.
  rewrite (round_half_even_comp (q * inject_Z (Zpos (pow10 n)))
             (q' * inject_Z (Zpos (pow10 n)))); [reflexivity|].
  rewrite H. reflexivity.
Qed.

Lemma round_half_even_range (q : Q) :
  (Qfloor q <= round_half_even q <= Qfloor q + 1)%Z.
Proof.
  unfold round_half_even.
  destruct (q - inject_Z (Qfloor q) ?= 1 # 2); [destruct (Z.even _)| |]; lia.
Qed.

Lemma round_half_even_lower (q : Q) (k : Z) :
  inject_Z k <= q -> (k <= round_half_even q)%Z.
Proof.
  intros H. pose proof (round_half_even_range q) as [Hr _].
  apply Qfloor_resp_le in H. rewrite Qfloor_Z in H. lia.
Qed.

Lemma round_half_even_upper (q : Q) (k : Z) :
  q <= inject_Z k -> (round_half_even q <= k)%Z.
Proof.
  intros H.
  pose proof (Qfloor_resp_le _ _ H) as Hf. rewrite Qfloor_Z in Hf.
  destruct (Z.eq_dec (Qfloor q) k) as [E|E].
  - (* q = k exactly: the fractional part is 0 *)
    unfold round_half_even.
    assert (Hq : q - inject_Z (Qfloor q) == 0).
    { pose proof (Qfloor_le q) as Hl. rewrite E in *.
      apply Qle_antisym.
      - apply (Qplus_le_l _ _ (inject_Z k)). ring_simplify. exact H.
      - apply (Qplus_le_l _ _ (inject_Z k)). ring_simplify. exact Hl. }
    assert (Hc : (q - inject_Z (Qfloor q) ?= 1 # 2) = Lt).
    { rewrite (Qcompare_comp _ _ Hq (1 # 2) (1 # 2) (Qeq_refl _)). reflexivity. }
    rewrite Hc. lia.
  - pose proof (round_half_even_range q). lia.
Qed.

Lemma round_lower (q : Q) (k : Z) (n : nat) :
  inject_Z k <= q -> inject_Z k <= round q n.
Proof.
  intros H. unfold round. rewrite Qred_correct.
  set (p := pow10 n).
  assert (Hk : (k * Zpos p <= round_half_even (q * inject_Z (Zpos p)))%Z).
  { apply round_half_even_lower. rewrite inject_Z_mult.
    apply Qmult_le_compat_r; [exact H|]. unfold Qle. simpl. lia. }
  unfold Qle. simpl. lia.
Qed.

Lemma round_upper (q : Q) (k : Z) (n : nat) :
  q <= inject_Z k -> round q n <= inject_Z k.
Proof.
  intros H. unfold round. rewrite Qred_correct.
  set (p := pow10 n).
  assert (Hk : (round_half_even (q * inject_Z (Zpos p)) <= k * Zpos p)%Z).
  { apply round_half_even_upper. rewrite inject_Z_mult.
    apply Qmult_le_compat_r; [exact H|]. unfold Qle. simpl. lia. }
  unfold Qle. simpl. lia.
Qed.

(** ** Sorting and slicing *)

Lemma insert_desc_perm {A : Type} (key_lt : A -> A -> bool) (x : A) (s : list A) :
  Permutation (insert_desc key_lt x s) (x :: s).
Proof.
  induction s as [|y s IH]; simpl; [reflexivity|].
  destruct (key_lt x y); [|reflexivity].
  rewrite IH. apply perm_swap.
Qed.

Lemma sort_desc_by_perm {A : Type} (key_lt : A -> A -> bool) (xs : list A) :
  Permutation (sort_desc_by key_lt xs) xs.
Proof.
  induction xs as [|x xs IH]; simpl; [reflexivity|].
  rewrite insert_desc_perm. apply perm_skip, IH.
Qed.

Lemma StronglySorted_weaken {A : Type} (R R' : A -> A -> Prop) (xs : list A) :
  (forall x y, R x y -> R' x y) -> StronglySorted R xs -> StronglySorted R' xs.
Proof.
  intros Himp. induction 1 as [|x xs Hs IH Hx]; constructor; [exact IH|].
  eapply List.Forall_impl; [|exact Hx]. intros y. apply Himp.
Qed.

Lemma In_firstn {A : Type} (n : nat) (xs : list A) (x : A) :
  In x (firstn n xs) -> In x xs.
Proof.
  revert xs. induction n as [|n IH]; intros [|y xs]; simpl; try tauto.
  intros [H|H]; [left; exact H|right; apply IH, H].
Qed.

Section SortByKey.

Context {A : Type} (key : A -> Q).

Lemma insert_desc_stable (before : A -> A -> Prop) (x : A) (s : list A) :
  StronglySorted (stable_order key before) s ->
  Forall (before x) s ->
  StronglySorted (stable_order key before) (insert_desc (by_key key) x s).
Proof.
  induction s as [|y s IH]; intros Hs Hb; simpl.
  - constructor; constructor.
  - apply StronglySorted_inv in Hs. destruct Hs as [Hs Hy].
    inversion Hb as [|? ? Hxy Hbs]; subst.
    unfold by_key at 1. destruct (Qlt_bool (key x) (key y)) eqn:E.
    + apply Qlt_bool_true in E. constructor; [apply IH; assumption|].
      apply (Permutation_Forall (x := x :: s)).
      * symmetry. apply insert_desc_perm.
      * constructor; [left; exact E|exact Hy].
    + apply Qlt_bool_false in E. constructor; [constructor; assumption|].
      assert (Hle : Forall (fun z => key z <= key x) (y :: s)).
      { constructor; [exact E|].
        eapply List.Forall_impl; [|exact Hy]. intros z [Hz|[Hz _]]; simpl; lra. }
      rewrite List.Forall_forall in Hle, Hb. apply List.Forall_forall.
      intros z Hz. specialize (Hle z Hz). specialize (Hb z Hz).
      destruct (Qlt_le_dec (key z) (key x)) as [Hlt|Hge]; [left; exact Hlt|].
      right. split; [apply Qle_antisym; assumption|exact Hb].
Qed.

Lemma sort_desc_stable (before : A -> A -> Prop) (xs : list A) :
  StronglySorted before xs ->
  StronglySorted (stable_order key before) (sort_desc key xs).
Proof.
  induction xs as [|x xs IH]; intros Hs; simpl; [constructor|].
  apply StronglySorted_inv in Hs. destruct Hs as [Hs Hx].
  apply insert_desc_stable; [apply IH, Hs|].
  apply (Permutation_Forall (x := xs)); [|exact Hx].
  symmetry. apply sort_desc_by_perm.
Qed.

Lemma sort_desc_sorted (xs : list A) :
  StronglySorted (fun x y => key y <= key x) (sort_desc key xs).
Proof.
  assert (H : StronglySorted (fun _ _ => True) xs).
  { induction xs; constructor; [assumption|].
    apply List.Forall_forall. intros; exact I. }
  apply (sort_desc_stable (fun _ _ => True)) in H.
  eapply StronglySorted_weaken; [|exact H].
  intros x y [Hlt|[Heq _]]; lra.
Qed.

Lemma insert_desc_head (x : A) (s : list A) :
  Forall (fun z => key z <= key x) s -> insert_desc (by_key key) x s = x :: s.
Proof.
  destruct s as [|y s]; intros H; simpl; [reflexivity|].
  inversion H as [|? ? Hy _]; subst. unfold by_key.
  apply Qlt_bool_false in Hy. rewrite Hy. reflexivity.
Qed.

(** A stable sort commutes with filtering. *)
Lemma filter_insert_desc (p : A -> bool) (x : A) (s : list A) :
  StronglySorted (fun x y => key y <= key x) s ->
  List.filter p (insert_desc (by_key key) x s)
  = if p x then insert_desc (by_key key) x (List.filter p s) else List.filter p s.
Proof.
  induction s as [|y s IH]; intros Hs; simpl.
  - destruct (p x); reflexivity.
  - apply StronglySorted_inv in Hs. destruct Hs as [Hs Hy].
    unfold by_key at 1. destruct (Qlt_bool (key x) (key y)) eqn:E; simpl.
    + rewrite (IH Hs). destruct (p y), (p x); simpl; try reflexivity.
      unfold by_key at 2. rewrite E. reflexivity.
    + destruct (p x); [|reflexivity].
      symmetry. apply insert_desc_head.
      apply Qlt_bool_false in E.
      assert (Hle : Forall (fun z => key z <= key x) (y :: s)).
      { constructor; [exact E|].
        eapply List.Forall_impl; [|exact Hy]. intros z Hz; simpl in *; lra. }
      rewrite List.Forall_forall in Hle. apply List.Forall_forall.
      intros z Hz. apply Hle.
      change (In z (List.filter p (y :: s))) in Hz.
      apply filter_In in Hz. tauto.
Qed.

Lemma filter_sort_desc (p : A -> bool) (xs : list A) :
  List.filter p (sort_desc key xs) = sort_desc key (List.filter p xs).
Proof.
  induction xs as [|x xs IH]; [reflexivity|].
  change (sort_desc key (x :: xs)) with (insert_desc (by_key key) x (sort_desc key xs)).
  rewrite filter_insert_desc by apply sort_desc_sorted.
  rewrite IH. simpl. destruct (p x); reflexivity.
Qed.

(** In a list sorted by descending key, the elements at or above a
    threshold form a prefix. *)
Lemma filter_threshold_prefix (t : Q) (s : list A) :
  StronglySorted (fun x y => key y <= key x) s ->
  exists rest, s = (List.filter (fun x => Qle_bool t (key x)) s ++ rest)%list.
Proof.
  induction s as [|y s IH]; intros Hs; simpl; [exists []; reflexivity|].
  apply StronglySorted_inv in Hs. destruct Hs as [Hs Hy].
  destruct (Qle_bool t (key y)) eqn:E.
  - destruct (IH Hs) as [rest Hrest]. exists rest. simpl. congruence.
  - exists (y :: s).
    assert (Hnone : List.filter (fun x => Qle_bool t (key x)) s = []).
    { clear IH Hs. induction s as [|z s IHs]; simpl; [reflexivity|].
      inversion Hy as [|? ? Hz Hs']; subst.
      destruct (Qle_bool t (key z)) eqn:Ez.
      - apply Qle_bool_iff in Ez.
        assert (Hty : Qle_bool t (key y) = true)
          by (apply Qle_bool_iff; lra).
        congruence.
      - apply IHs, Hs'. }
    rewrite Hnone. reflexivity.
Qed.

End SortByKey.

Lemma slice_to_nonneg {A : Type} (xs : list A) (n : Z) :
  (0 <= n)%Z -> slice_to xs n = firstn (Z.to_nat n) xs.
Proof.
  intros H. unfold slice_to.
  destruct (n <? 0)%Z eqn:E; [apply Z.ltb_lt in E; lia|reflexivity].
Qed.

Lemma firstn_incl_mono {A : Type} (xs : list A) (m n : nat) :
  (m <= n)%nat -> incl (firstn m xs) (firstn n xs).
Proof.
  intros H x Hx.
  replace m with (Nat.min m n) in Hx by lia.
  rewrite <- firstn_firstn in Hx.
  apply (In_firstn m (firstn n xs) x). exact Hx.
Qed.

Lemma slice_to_prefix {A : Type} (xs rest : list A) (n : Z) :
  incl (slice_to xs n) (slice_to (xs ++ rest) n).
Proof.
  unfold slice_to. destruct (n <? 0)%Z.
  - rewrite length_app.
    intros x Hx.
    assert (Hm : (length xs - Z.to_nat (- n)
                  <= length xs + length rest - Z.to_nat (- n))%nat) by lia.
    apply (firstn_incl_mono _ _ _ Hm) in Hx.
    rewrite firstn_app. apply in_or_app. left.
    exact Hx.
  - intros x Hx. rewrite firstn_app. apply in_or_app. left. exact Hx.
Qed.

(** ** Dictionaries *)


Lemma dict_set_fresh {V : Type} (d : list (string * V)) (k : string) (v : V) :
  ~ In k (map fst d) -> dict_set d k v = (d ++ [(k, v)])%list.
Proof.
  induction d as [|[k' v'] d IH]; intros Hk; simpl; [reflexivity|].
  destruct (String.eqb k' k) eqn:E.
  - apply String.eqb_eq in E. exfalso. apply Hk. left. exact E.
  - rewrite IH; [reflexivity|]. intros Hin. apply Hk. right. exact Hin.
Qed.

Lemma dict_get_absent {V : Type} (d : list (string * V)) (k : string) (dflt : V) :
  ~ In k (map fst d) -> dict_get d k dflt = dflt.
Proof.
  induction d as [|[k' v'] d IH]; intros Hk; simpl; [reflexivity|].
  destruct (String.eqb k' k) eqn:E.
  - apply String.eqb_eq in E. exfalso. apply Hk. left. exact E.
  - apply IH. intros Hin. apply Hk. right. exact Hin.
Qed.

Lemma dict_set_present {V : Type} (d : list (string * V)) (k : string) (v dflt : V) :
  In k (map fst d) ->
  exists pre c post,
    d = (pre ++ (k, c) :: post)%list
    /\ ~ In k (map fst pre)
    /\ dict_get d k dflt = c
    /\ dict_set d k v = (pre ++ (k, v) :: post)%list.
Proof.
  induction d as [|[k' c'] d IH]; intros Hk; [destruct Hk|]. simpl.
  destruct (String.eqb k' k) eqn:E.
  - apply String.eqb_eq in E. subst k'.
    exists [], c', d. simpl. tauto.
  - apply String.eqb_neq in E.
    destruct Hk as [Hk|Hk]; [simpl in Hk; contradiction|].
    destruct (IH Hk) as (pre & c & post & -> & Hpre & Hget & Hset).
    exists ((k', c') :: pre), c, post. simpl.
    split; [reflexivity|]. split; [tauto|]. split; [exact Hget|].
    rewrite Hset. reflexivity.
Qed.

End PyFacts.

(* ================================================================== *)
(** * Properties of the AI service *)
(* ================================================================== *)

Module AIProofs.
Import Py AI Spec Examples PyFacts.
Local Open Scope Q_scope.

(** ** Keyword scoring *)

Lemma keyword_loop_from (keywords : list string) (text_lower : string) :
  forall score matches,
    fold_left
      (fun (acc : Z * Z) (keyword : string) =>
         let '(score, matches) := acc in
         if contains keyword text_lower
         then ((score + Z.of_nat (length (split keyword)))%Z, (matches + 1)%Z)
         else (score, matches))
      keywords (score, matches)
    = ((score + total (map word_count (matched_keywords keywords text_lower)))%Z,
       (matches + Z.of_nat (length (matched_keywords keywords text_lower)))%Z).
Proof.
  induction keywords as [|k keywords IH]; intros score matches; simpl.
  - f_equal; lia.
  - destruct (contains k text_lower) eqn:E; rewrite IH; simpl;
      unfold word_count; f_equal; lia.
Qed.

Lemma keyword_loop_spec (keywords : list string) (text_lower : string) :
  keyword_loop keywords text_lower
  = (total (map word_count (matched_keywords keywords text_lower)),
     Z.of_nat (length (matched_keywords keywords text_lower))).
Proof. unfold keyword_loop. rewrite keyword_loop_from. reflexivity. Qed.

Lemma scored_categories_keys (table : list (string * list string)) (t : string) :
  forall c, In c (map fst (scored_categories table t)) -> In c (map fst table).
Proof.
  intros c. unfold scored_categories. rewrite map_map. simpl.
  rewrite !in_map_iff. intros (e & <- & He). apply filter_In in He.
  exists e. tauto.
Qed.

Lemma keyword_scores_over_from (table : list (string * list string)) (t : string) :
  forall acc,
    List.NoDup (map fst acc ++ map fst table) ->
    fold_left
      (fun (keyword_scores : list (string * Q)) (entry : string * list string) =>
         let '(category, keywords) := entry in
         let '(score, matches) := keyword_loop keywords t in
         if (0 <? matches)%Z
         then dict_set keyword_scores category
                (inject_Z score / inject_Z (Z.of_nat (length keywords)))
         else keyword_scores)
      table acc
    = (acc ++ scored_categories table t)%list.
Proof.
  induction table as [|[c kws] table IH]; intros acc Hnd; simpl.
  - unfold scored_categories. simpl. rewrite app_nil_r. reflexivity.
  - rewrite keyword_loop_spec.
    assert (Hc : ~ In c (map fst acc)).
    { intros Hin. simpl in Hnd. apply List.NoDup_remove_2 in Hnd.
      apply Hnd, in_or_app. left. exact Hin. }
    unfold scored_categories. simpl.
    destruct (matched_keywords kws t) as [|m ms] eqn:Em.
    + simpl. apply IH.
      simpl in Hnd. apply List.NoDup_remove_1 in Hnd. exact Hnd.
    + replace (0 <? Z.of_nat (length (m :: ms)))%Z with true
        by (symmetry; apply Z.ltb_lt; simpl; lia).
      rewrite dict_set_fresh by exact Hc.
      rewrite IH.
      * rewrite <- app_assoc. simpl. unfold keyword_score. rewrite Em.
        reflexivity.
      * rewrite map_app. simpl. rewrite <- app_assoc. simpl.
        simpl in Hnd. exact Hnd.
Qed.

Lemma keyword_scores_over_spec (table : list (string * list string)) (t : string) :
  List.NoDup (map fst table) ->
  keyword_scores_over table t = scored_categories table t.
Proof.
  intros Hnd. unfold keyword_scores_over.
  rewrite keyword_scores_over_from; [reflexivity|exact Hnd].
Qed.

Lemma WASTE_CATEGORIES_NoDup : List.NoDup (map fst WASTE_CATEGORIES).
Proof.
  apply (List.NoDup_count_occ' string_dec). intros c Hc.
  simpl in Hc.
  repeat (destruct Hc as [<-|Hc]; [vm_compute; reflexivity|]).
  destruct Hc.
Qed.

Lemma keyword_scores_spec (t : string) :
  keyword_scores_over WASTE_CATEGORIES t = scored_categories WASTE_CATEGORIES t.
Proof. apply keyword_scores_over_spec, WASTE_CATEGORIES_NoDup. Qed.



Lemma total_word_count_nonneg (ks : list string) :
  (0 <= total (map word_count ks))%Z.
Proof.
  induction ks as [|k ks IH]; simpl; [lia|]. unfold word_count at 1. lia.
Qed.

Lemma keyword_score_nonneg (keywords : list string) (t : string) :
  0 <= keyword_score keywords t.
Proof.
  unfold keyword_score.
  pose proof (total_word_count_nonneg (matched_keywords keywords t)) as H.
  destruct keywords as [|k keywords].
  - unfold Qdiv. simpl. rewrite Qmult_0_r. apply Qle_refl.
  - apply Qle_shift_div_l.
    + change 0 with (inject_Z 0). rewrite <- Zlt_Qlt. simpl length. lia.
    + rewrite Qmult_0_l. change 0 with (inject_Z 0). rewrite <- Zle_Qle.
      exact H.
Qed.

Lemma keyword_score_no_match (keywords : list string) (t : string) :
  matched_keywords keywords t = [] -> keyword_score keywords t == 0.
Proof.
  intros H. unfold keyword_score. rewrite H. simpl.
  unfold Qdiv. apply Qmult_0_l.
Qed.

Lemma dict_get_scored (table : list (string * list string)) (t c : string) :
  List.NoDup (map fst table) ->
  dict_get (scored_categories table t) c 0
  == match keywords_of table c with
     | Some keywords => keyword_score keywords t
     | None => 0
     end.
Proof.
  induction table as [|[c' kws] table IH]; intros Hnd; simpl; [reflexivity|].
  inversion Hnd as [|? ? Hc' Hnd']; subst.
  unfold scored_categories. simpl.
  destruct (String.eqb c' c) eqn:E.
  - apply String.eqb_eq in E. subst c'.
    destruct (matched_keywords kws t) as [|m ms] eqn:Em; simpl.
    + fold (scored_categories table t).
      rewrite dict_get_absent.
      * symmetry. apply keyword_score_no_match, Em.
      * intros Hin. apply Hc'. eapply scored_categories_keys, Hin.
    + rewrite String.eqb_refl. reflexivity.
  - destruct (matched_keywords kws t) as [|m ms] eqn:Em; simpl.
    + apply IH, Hnd'.
    + rewrite E. apply IH, Hnd'.
Qed.

Lemma dict_get_keyword_score (t c : string) :
  dict_get (keyword_scores_over WASTE_CATEGORIES t) c 0 == keyword_score_of c t.
Proof.
  rewrite keyword_scores_spec. unfold keyword_score_of.
  apply dict_get_scored, WASTE_CATEGORIES_NoDup.
Qed.

Lemma keywords_of_In (table : list (string * list string)) (c : string)
  (keywords : list string) :
  keywords_of table c = Some keywords -> In (c, keywords) table.
Proof.
  induction table as [|[c' kws] table IH]; simpl; [discriminate|].
  destruct (String.eqb c' c) eqn:E.
  - apply String.eqb_eq in E. intros [= <-]. left. congruence.
  - intros H. right. apply IH, H.
Qed.

Lemma In_keywords_of (table : list (string * list string)) (c : string)
  (keywords : list string) :
  List.NoDup (map fst table) ->
  In (c, keywords) table -> keywords_of table c = Some keywords.
Proof.
  induction table as [|[c' kws] table IH]; intros Hnd Hin; simpl; [destruct Hin|].
  inversion Hnd as [|? ? Hc' Hnd']; subst.
  destruct Hin as [[= -> ->]|Hin].
  - rewrite String.eqb_refl. reflexivity.
  - destruct (String.eqb c' c) eqn:E.
    + apply String.eqb_eq in E. subst c'. exfalso. apply Hc'.
      apply in_map_iff. exists (c, keywords). split; [reflexivity|exact Hin].
    + apply IH; assumption.
Qed.

Lemma scored_categories_In (table : list (string * list string)) (t c : string)
  (s : Q) :
  In (c, s) (scored_categories table t) ->
  exists keywords,
    In (c, keywords) table
    /\ matched_keywords keywords t <> []
    /\ s = keyword_score keywords t.
Proof.
  unfold scored_categories. rewrite in_map_iff.
  intros ([c' kws] & [= <- <-] & Hin). apply filter_In in Hin.
  destruct Hin as [Hin Hm]. simpl in Hm. exists kws. split; [exact Hin|].
  split; [|reflexivity]. intros E. rewrite E in Hm. discriminate.
Qed.

Lemma scored_categories_empty (t : string) :
  (forall c keywords k,
      In (c, keywords) WASTE_CATEGORIES -> In k keywords ->
      contains k t = false) ->
  scored_categories WASTE_CATEGORIES t = [].
Proof.
  intros Hno.
  destruct (scored_categories WASTE_CATEGORIES t) as [|[c s] rest] eqn:E;
    [reflexivity|].
  assert (Hin : In (c, s) (scored_categories WASTE_CATEGORIES t))
    by (rewrite E; left; reflexivity).
  apply scored_categories_In in Hin. destruct Hin as (kws & Hin & Hm & _).
  exfalso. apply Hm.
  destruct (matched_keywords kws t) as [|m ms] eqn:Em; [reflexivity|].
  assert (Hmin : In m (matched_keywords kws t)) by (rewrite Em; left; reflexivity).
  unfold matched_keywords in Hmin. apply filter_In in Hmin.
  destruct Hmin as [Hk Hc]. rewrite (Hno c kws m Hin Hk) in Hc. discriminate.
Qed.

(** The best keyword category beats every category of the table. *)
Lemma first_max_scored_best (t kcat : string) (ks : Q) :
  is_first_max snd (scored_categories WASTE_CATEGORIES t) (kcat, ks) ->
  ks == keyword_score_of kcat t
  /\ forall c, keyword_score_of c t <= ks.
Proof.
  intros (pre & post & E & Hpre & Hpost).
  assert (Hin : In (kcat, ks) (scored_categories WASTE_CATEGORIES t))
    by (rewrite E; apply in_or_app; right; left; reflexivity).
  destruct (scored_categories_In _ _ _ _ Hin) as (kws & Hk & Hm & ->).
  assert (Hself : keyword_score kws t == keyword_score_of kcat t).
  { unfold keyword_score_of.
    rewrite (In_keywords_of _ _ _ WASTE_CATEGORIES_NoDup Hk). reflexivity. }
  split; [exact Hself|].
  intros c. unfold keyword_score_of.
  destruct (keywords_of WASTE_CATEGORIES c) as [kws'|] eqn:Ek;
    [|apply keyword_score_nonneg].
  destruct (matched_keywords kws' t) as [|m ms] eqn:Em.
  - rewrite (keyword_score_no_match _ _ Em). apply keyword_score_nonneg.
  - apply keywords_of_In in Ek.
    assert (Hin' : In (c, keyword_score kws' t) (scored_categories WASTE_CATEGORIES t)).
    { unfold scored_categories. apply in_map_iff. exists (c, kws').
      split; [reflexivity|]. apply filter_In. split; [exact Ek|].
      simpl. rewrite Em. reflexivity. }
    rewrite E in Hin'. apply in_app_or in Hin'.
    rewrite List.Forall_forall in Hpre, Hpost.
    destruct Hin' as [Hin'|[Heq|Hin']].
    + apply Qlt_le_weak. exact (Hpre _ Hin').
    + apply (f_equal snd) in Heq. simpl in Heq. rewrite <- Heq. apply Qle_refl.
    + exact (Hpost _ Hin').
Qed.

(** ** Classification *)

Lemma semantic_scores_over_In (cosine : Embedding -> Embedding -> option Q)
  (e : Embedding) (embeddings : list (string * Embedding)) :
  forall scores,
    semantic_scores_over cosine e embeddings = Some scores ->
    length scores = length embeddings
    /\ forall c s, In (c, s) scores -> exists e', cosine e e' = Some s.
Proof.
  induction embeddings as [|[c' e'] embeddings IH]; intros scores; simpl.
  - intros [= <-]. split; [reflexivity|]. intros c s [].
  - destruct (cosine e e') as [s'|] eqn:Ec; [|discriminate].
    destruct (semantic_scores_over cosine e embeddings) as [rest|]; [|discriminate].
    intros [= <-]. destruct (IH rest eq_refl) as [Hlen Hin].
    split; [simpl; congruence|].
    intros c s [[= <- <-]|H]; [exists e'; exact Ec|exact (Hin c s H)].
Qed.

(** What [classify_waste_type] does once the semantic stage has answered. *)
Lemma classify_after_semantic (cosine : Embedding -> Embedding -> option Q)
  (self : AIService) (text : string) (scores : list (string * Q))
  (category : string) (confidence : Q) :
  semantic_scores cosine self text = Some scores ->
  is_first_max snd scores (category, confidence) ->
  classify_waste_type cosine self text
  = Return
      (if Qle_bool (50 # 100) confidence then
         (category,
          round
            (Qmin (confidence
                   + dict_get (scored_categories WASTE_CATEGORIES (lower text))
                       category 0 * (2 # 10)) 1) 2)
       else
         match max_by snd (scored_categories WASTE_CATEGORIES (lower text)) with
         | Some best =>
             (fst best,
              round
                (if String.eqb category (fst best)
                 then Qmin (Qmin (snd best * 2) 1 + confidence * (3 # 10)) 1
                 else Qmin (snd best * 2) 1) 2)
         | None => (category, round confidence 2)
         end).
Proof.
  unfold semantic_scores. intros Hs Hmax.
  destruct (model self) as [encode|] eqn:Em; [|discriminate].
  destruct (encode text) as [e|] eqn:Ee; [|discriminate].
  destruct (semantic_scores_over_In _ _ _ _ Hs) as [Hlen _].
  unfold classify_waste_type. rewrite Em.
  destruct (category_embeddings self) as [|ce rest] eqn:Ec.
  - destruct Hmax as (pre & post & -> & _). rewrite length_app in Hlen.
    simpl in Hlen. lia.
  - unfold classify_try. rewrite Ee, Hs, (max_by_first_max _ _ _ Hmax).
    cbn [fst snd]. rewrite keyword_scores_spec.
    destruct (Qle_bool (50 # 100) confidence); [reflexivity|].
    destruct (max_by snd (scored_categories WASTE_CATEGORIES (lower text)));
      reflexivity.
Qed.

(** What [classify_waste_type] does when the semantic stage raises. *)
Lemma classify_after_failure (cosine : Embedding -> Embedding -> option Q)
  (self : AIService) (text : string) :
  model self <> None ->
  category_embeddings self <> [] ->
  semantic_scores cosine self text = None ->
  classify_waste_type cosine self text
  = Return (_classify_by_keywords_only text).
Proof.
  unfold semantic_scores, classify_waste_type, classify_try.
  intros Hm Hc Hs.
  destruct (model self) as [encode|]; [|congruence].
  destruct (category_embeddings self) as [|ce rest] eqn:Ec; [congruence|].
  destruct (encode text) as [e|]; [|reflexivity].
  rewrite Hs. reflexivity.
Qed.


Lemma scored_categories_match (t c k : string) (keywords : list string) :
  In (c, keywords) WASTE_CATEGORIES -> In k keywords -> contains k t = true ->
  scored_categories WASTE_CATEGORIES t <> [].
Proof.
  intros Hc Hk Hm Hnil.
  assert (Hin : In (c, keyword_score keywords t)
                  (scored_categories WASTE_CATEGORIES t)).
  { unfold scored_categories. apply in_map_iff. exists (c, keywords).
    split; [reflexivity|]. apply filter_In. split; [exact Hc|]. simpl.
    destruct (matched_keywords keywords t) as [|m ms] eqn:Em; [|reflexivity].
    assert (Hin : In k (matched_keywords keywords t))
      by (apply filter_In; split; assumption).
    rewrite Em in Hin. destruct Hin. }
  rewrite Hnil in Hin. destruct Hin.
Qed.

(** C9. If the encoder raises during classification, [classify_waste_type]
    does not propagate the error: it returns [("unclassified", 0.0)] when
    no keyword of any category occurs in the text, and otherwise the
    category with the highest keyword score (the first one on a tie) with
    confidence [min(score * 2, 1.0)] rounded to two decimals. *)
Theorem classify_encoder_failure
  (cosine : Embedding -> Embedding -> option Q) (self : AIService)
  (encode : string -> option Embedding) (text : string) :
  model self = Some encode ->
  category_embeddings self <> [] ->
  encode text = None ->
  ((forall c keywords k,
       In (c, keywords) WASTE_CATEGORIES -> In k keywords ->
       contains k (lower text) = false) ->
   classify_waste_type cosine self text = Return ("unclassified", 0))
  /\ ((exists c keywords k,
         In (c, keywords) WASTE_CATEGORIES /\ In k keywords
         /\ contains k (lower text) = true) ->
      exists category score,
        is_first_max snd (scored_categories WASTE_CATEGORIES (lower text))
          (category, score)
        /\ score == keyword_score_of category (lower text)
        /\ (forall c, keyword_score_of c (lower text) <= score)
        /\ classify_waste_type cosine self text
           = Return (category, round (Qmin (score * 2) 1) 2)).
Proof.
  intros Hm Hc He.
  assert (Hrun : classify_waste_type cosine self text
                 = Return (_classify_by_keywords_only text)).
  { apply classify_after_failure; [congruence|exact Hc|].
    unfold semantic_scores. rewrite Hm, He. reflexivity. }
  rewrite Hrun. unfold _classify_by_keywords_only. rewrite keyword_scores_spec.
  split.
  - intros Hno. rewrite (scored_categories_empty _ Hno). reflexivity.
  - intros (c & kws & k & Hin & Hk & Hmatch).
    pose proof (scored_categories_match _ _ _ _ Hin Hk Hmatch) as Hne.
    destruct (max_by_nonempty snd _ Hne) as ([kcat ks] & Hmax & Hfirst).
    exists kcat, ks.
    destruct (first_max_scored_best _ _ _ Hfirst) as [Hself Hbest].
    split; [exact Hfirst|]. split; [exact Hself|]. split; [exact Hbest|].
    rewrite Hmax. reflexivity.
Qed.

Lemma classify_encoder_failure_witness :
  classify_waste_type cosine_of_unit_vectors failing_service "hello there"
  = Return ("unclassified", 0)
  /\ exists category score,
       classify_waste_type cosine_of_unit_vectors failing_service
         "Broken glass near the bottle bank"
       = Return (category, round (Qmin (score * 2) 1) 2).
Proof.
  split.
  - apply (classify_encoder_failure cosine_of_unit_vectors failing_service
             (fun _ => None) "hello there" eq_refl); [discriminate|reflexivity|].
    intros c keywords k Hc Hk.
    simpl in Hc.
    repeat (destruct Hc as [[= <- <-]|Hc];
            [simpl in Hk;
             repeat (destruct Hk as [<-|Hk]; [reflexivity|]); destruct Hk|]).
    destruct Hc.
  - destruct (classify_encoder_failure cosine_of_unit_vectors failing_service
                (fun _ => None) "Broken glass near the bottle bank" eq_refl)
      as [_ H]; [discriminate|reflexivity|].
    destruct H as (category & score & _ & _ & _ & H).
    + exists "glass",
        ["glass"; "bottle"; "jar"; "window"; "broken glass"; "mirror";
         "wine bottle"; "beer bottle"; "glassware"], "glass".
      split; [simpl; do 3 right; left; reflexivity|].
      split; [left; reflexivity|reflexivity].
    + exists category, score. exact H.
Defined.

Lemma Qmin_upper (a : Q) : Qmin a 1 <= inject_Z 1.
Proof. apply Q.le_min_r. Qed.

Lemma Qmin_lower (a : Q) (k : Z) :
  inject_Z k <= a -> (k <= 1)%Z -> inject_Z k <= Qmin a 1.
Proof.
  intros Ha Hk. apply Q.min_glb; [exact Ha|].
  change 1 with (inject_Z 1). rewrite <- Zle_Qle. exact Hk.
Qed.

Lemma dict_get_scored_nonneg (t c : string) :
  0 <= dict_get (scored_categories WASTE_CATEGORIES t) c 0.
Proof.
  rewrite <- keyword_scores_spec, dict_get_keyword_score.
  unfold keyword_score_of.
  destruct (keywords_of WASTE_CATEGORIES c);
    [apply keyword_score_nonneg|apply Qle_refl].
Qed.

Lemma max_by_scored_nonneg (t : string) (best : string * Q) :
  max_by snd (scored_categories WASTE_CATEGORIES t) = Some best ->
  0 <= snd best.
Proof.
  intros H.
  assert (Hne : scored_categories WASTE_CATEGORIES t <> [])
    by (intros E; rewrite E in H; discriminate).
  destruct (max_by_nonempty snd _ Hne) as (x & Hx & pre & post & E & _).
  rewrite H in Hx. injection Hx as <-.
  assert (Hin : In best (scored_categories WASTE_CATEGORIES t))
    by (rewrite E; apply in_or_app; right; left; reflexivity).
  destruct best as [c s]. apply scored_categories_In in Hin.
  destruct Hin as (kws & _ & _ & ->). apply keyword_score_nonneg.
Qed.

Lemma fallback_confidence_range (text : string) :
  0 <= snd (_classify_by_keywords_only text) <= 1.
Proof.
  unfold _classify_by_keywords_only. rewrite keyword_scores_spec.
  destruct (max_by snd (scored_categories WASTE_CATEGORIES (lower text)))
    as [best|] eqn:E; cbn [snd].
  - pose proof (max_by_scored_nonneg _ _ E) as Hs.
    split.
    + apply (round_lower _ 0). apply (Qmin_lower _ 0); [|lia].
      change (inject_Z 0) with 0. lra.
    + apply (round_upper _ 1), Qmin_upper.
  - split; discriminate.
Qed.

(** C2, as amended.  For every text and every encoder output whose cosine
    similarities lie in [[-1,1]], [classify_waste_type] returns, and the
    confidence lies in [[-1,1]]; it is non-negative, hence in [[0,1]], on
    the keyword fallback path and whenever the largest similarity is
    non-negative (in particular on the semantic-primary path). *)
Theorem classify_confidence_range
  (cosine : Embedding -> Embedding -> option Q) (self : AIService)
  (text : string) :
  model self <> None ->
  category_embeddings self <> [] ->
  (forall scores c s,
      semantic_scores cosine self text = Some scores -> In (c, s) scores ->
      -1 <= s <= 1) ->
  exists category confidence,
    classify_waste_type cosine self text = Return (category, confidence)
    /\ -1 <= confidence <= 1
    /\ match semantic_scores cosine self text with
       | None => 0 <= confidence
       | Some scores =>
           forall c s, is_first_max snd scores (c, s) -> 0 <= s -> 0 <= confidence
       end.
Proof.
  intros Hm Hc Hcos.
  destruct (semantic_scores cosine self text) as [scores|] eqn:Hs.
  - (* the semantic stage answered *)
    assert (Hrange : forall c s, In (c, s) scores -> -1 <= s <= 1)
      by (intros c s H; exact (Hcos scores c s eq_refl H)).
    assert (Hne : scores <> []).
    { unfold semantic_scores in Hs.
      destruct (model self) as [encode|]; [|discriminate].
      destruct (encode text) as [e|]; [|discriminate].
      destruct (semantic_scores_over_In _ _ _ _ Hs) as [Hlen _].
      intros E. rewrite E in Hlen. simpl in Hlen.
      destruct (category_embeddings self); [congruence|discriminate]. }
    destruct (max_by_nonempty snd _ Hne) as ([sc s] & Hmax & Hfirst).
    assert (Hs1 : -1 <= s <= 1).
    { destruct Hfirst as (pre & post & E & _). apply (Hrange sc).
      rewrite E. apply in_or_app. right. left. reflexivity. }
    pose proof (classify_after_semantic _ _ _ _ _ _ Hs Hfirst) as Hrun.
    assert (Hsame : forall c' s', is_first_max snd scores (c', s') -> s' = s).
    { intros c' s' H'. apply max_by_first_max in H'. rewrite Hmax in H'.
      congruence. }
    destruct (Qle_bool (50 # 100) s) eqn:Eb.
    + (* semantic primary *)
      apply Qle_bool_iff in Eb.
      pose proof (dict_get_scored_nonneg (lower text) sc) as Hk.
      eexists _, _. split; [exact Hrun|]. split; [split|].
      * apply (round_lower _ (-1)). apply (Qmin_lower _ (-1)); [|lia].
        change (inject_Z (-1)) with (-1). lra.
      * apply (round_upper _ 1), Qmin_upper.
      * intros c' s' _ _.
        apply (round_lower _ 0). apply (Qmin_lower _ 0); [|lia].
        change (inject_Z 0) with 0. lra.
    + destruct (max_by snd (scored_categories WASTE_CATEGORIES (lower text)))
        as [best|] eqn:Ek.
      * (* keyword primary *)
        pose proof (max_by_scored_nonneg _ _ Ek) as Hk.
        assert (Hkc : 0 <= Qmin (snd best * 2) 1 <= 1).
        { split; [|apply Q.le_min_r]. apply Q.min_glb; lra. }
        eexists _, _. split; [exact Hrun|].
        destruct (String.eqb sc (fst best)).
        -- split; [split|].
           ++ apply (round_lower _ (-1)). apply (Qmin_lower _ (-1)); [|lia].
              change (inject_Z (-1)) with (-1). lra.
           ++ apply (round_upper _ 1), Qmin_upper.
           ++ intros c' s' H' Hpos. rewrite (Hsame _ _ H') in Hpos.
              apply (round_lower _ 0). apply (Qmin_lower _ 0); [|lia].
              change (inject_Z 0) with 0. lra.
        -- split; [split|].
           ++ apply (round_lower _ (-1)). change (inject_Z (-1)) with (-1). lra.
           ++ apply (round_upper _ 1). change (inject_Z 1) with 1. lra.
           ++ intros c' s' _ _. apply (round_lower _ 0).
              change (inject_Z 0) with 0. lra.
      * (* low-confidence pass-through *)
        eexists _, _. split; [exact Hrun|]. split; [split|].
        -- apply (round_lower _ (-1)). change (inject_Z (-1)) with (-1). lra.
        -- apply (round_upper _ 1). change (inject_Z 1) with 1. lra.
        -- intros c' s' H' Hpos. rewrite (Hsame _ _ H') in Hpos.
           apply (round_lower _ 0). change (inject_Z 0) with 0. exact Hpos.
  - (* keyword fallback *)
    pose proof (fallback_confidence_range text) as [H0 H1].
    exists (fst (_classify_by_keywords_only text)),
           (snd (_classify_by_keywords_only text)).
    split.
    + rewrite (classify_after_failure _ _ _ Hm Hc Hs).
      destruct (_classify_by_keywords_only text). reflexivity.
    + split; [split|]; [|exact H1|exact H0].
      apply Qle_trans with 0; [discriminate|exact H0].
Qed.

Lemma classify_confidence_range_witness :
  exists category confidence,
    classify_waste_type cosine_of_unit_vectors two_axis_service
      "Broken glass and a bottle"
    = Return (category, confidence)
    /\ -1 <= confidence <= 1.
Proof.
  destruct (classify_confidence_range cosine_of_unit_vectors two_axis_service
              "Broken glass and a bottle")
    as (category & confidence & Hrun & Hrange & _).
  - discriminate.
  - discriminate.
  - intros scores c s [= <-] [[= <- <-]|[[= <- <-]|[]]]; split; discriminate.
  - exists category, confidence. split; assumption.
Defined.

(** C2, as stated, fails: with an encoder output opposite to every
    reference embedding all similarities are -1, no keyword occurs in the
    text, and the returned confidence is -1. *)
Lemma classify_confidence_negative :
  semantic_scores cosine_of_unit_vectors opposite_service "hello there"
  = Some [("plastic", -1); ("glass", -1)]
  /\ classify_waste_type cosine_of_unit_vectors opposite_service "hello there"
     = Return ("plastic", -1)
  /\ ~ (0 <= -1 <= 1).
Proof.
  split; [reflexivity|]. split; [reflexivity|].
  intros [H _]. apply H. reflexivity.
Qed.

(** ** Similarity search *)

Section Similarity.

Context (cosine : Embedding -> Embedding -> option Q).

Lemma similarity_scan_from (query : Embedding) (threshold : Q)
  (incidents : list Incident) :
  forall acc,
    fold_left
      (fun (acc : option (list (Incident * Q))) (incident : Incident) =>
         match acc with
         | None => None
         | Some similarities =>
             match embedding incident with
             | Some incident_embedding =>
                 if (0 <? length incident_embedding)%nat then
                   match cosine query incident_embedding with
                   | None => None
                   | Some similarity =>
                       if Qle_bool threshold similarity
                       then Some (similarities ++ [(incident, similarity)])%list
                       else Some similarities
                   end
                 else Some similarities
             | None => Some similarities
             end
         end)
      incidents acc
    = match acc, similarities_of cosine query incidents with
      | Some similarities, Some sims =>
          Some (similarities
                ++ List.filter (fun p => Qle_bool threshold (snd p)) sims)%list
      | _, _ => None
      end.
Proof.
  induction incidents as [|inc incidents IH]; intros acc; simpl.
  - destruct acc as [similarities|]; [|reflexivity].
    rewrite app_nil_r. reflexivity.
  - rewrite IH. destruct acc as [similarities|]; [|reflexivity].
    destruct (embedding inc) as [e|]; [|reflexivity].
    destruct (0 <? length e)%nat; [|reflexivity].
    destruct (cosine query e) as [s|]; [|reflexivity].
    destruct (similarities_of cosine query incidents) as [sims|];
      [|destruct (Qle_bool threshold s); reflexivity].
    simpl. destruct (Qle_bool threshold s); [|reflexivity].
    rewrite <- app_assoc. reflexivity.
Qed.

Lemma similarity_scan_spec (query : Embedding) (threshold : Q)
  (incidents : list Incident) :
  similarity_scan cosine query threshold incidents
  = match similarities_of cosine query incidents with
    | Some sims =>
        Some (List.filter (fun p => Qle_bool threshold (snd p)) sims)
    | None => None
    end.
Proof.
  unfold similarity_scan. rewrite similarity_scan_from.
  destruct (similarities_of cosine query incidents); reflexivity.
Qed.

(** The search, with the loop replaced by its characterisation. *)
Lemma find_similar_incidents_unfold (db : list Incident) (exclude_id : Z)
  (query : Embedding) (threshold : Q) (limit : Z) :
  find_similar_incidents cosine db exclude_id query (Some threshold) limit
  = match
      similarities_of cosine query
        (List.filter
           (fun incident =>
              negb (Z.eqb (id incident) exclude_id)
              && match embedding incident with
                 | Some _ => true
                 | None => false
                 end) db)
    with
    | Some sims =>
        map fst
          (slice_to
             (sort_desc snd
                (List.filter (fun p => Qle_bool threshold (snd p)) sims))
             limit)
    | None => []
    end.
Proof.
  unfold find_similar_incidents.
  rewrite similarity_scan_spec.
  destruct (List.filter _ db) as [|inc rest] eqn:E;
    [|destruct (similarities_of cosine query (inc :: rest)); reflexivity].
  simpl. unfold slice_to.
  destruct (limit <? 0)%Z; simpl; rewrite ?firstn_nil; reflexivity.
Qed.

Lemma find_similar_incidents_default (db : list Incident) (exclude_id : Z)
  (query : Embedding) (limit : Z) :
  find_similar_incidents cosine db exclude_id query None limit
  = find_similar_incidents cosine db exclude_id query
      (Some Settings.SIMILARITY_THRESHOLD) limit.
Proof. reflexivity. Qed.

Lemma filter_filter_threshold (t1 t2 : Q) (sims : list (Incident * Q)) :
  t1 <= t2 ->
  List.filter (fun p => Qle_bool t2 (snd p))
    (List.filter (fun p => Qle_bool t1 (snd p)) sims)
  = List.filter (fun p => Qle_bool t2 (snd p)) sims.
Proof.
  intros Ht. induction sims as [|[inc s] sims IH]; simpl; [reflexivity|].
  destruct (Qle_bool t1 s) eqn:E1; simpl; rewrite IH; [reflexivity|].
  destruct (Qle_bool t2 s) eqn:E2; [|reflexivity].
  apply Qle_bool_iff in E2.
  assert (H : Qle_bool t1 s = true) by (apply Qle_bool_iff; lra).
  congruence.
Qed.

(** C7. Threshold monotonicity of the similarity search: for thresholds
    [t1 < t2], every incident returned with threshold [t2] is returned
    with threshold [t1], whatever the query, the table, the excluded id
    and the limit. *)
Theorem find_similar_threshold_monotone (db : list Incident) (exclude_id : Z)
  (query : Embedding) (t1 t2 : Q) (limit : Z) :
  t1 < t2 ->
  incl (find_similar_incidents cosine db exclude_id query (Some t2) limit)
       (find_similar_incidents cosine db exclude_id query (Some t1) limit).
Proof.
  intros Ht. rewrite !find_similar_incidents_unfold.
  destruct (similarities_of cosine query _) as [sims|]; [|apply incl_refl].
  set (l1 := sort_desc snd (List.filter (fun p => Qle_bool t1 (snd p)) sims)).
  assert (H2 : sort_desc snd (List.filter (fun p => Qle_bool t2 (snd p)) sims)
               = List.filter (fun p => Qle_bool t2 (snd p)) l1).
  { unfold l1. rewrite filter_sort_desc, filter_filter_threshold by lra.
    reflexivity. }
  rewrite H2.
  destruct (filter_threshold_prefix snd t2 l1) as [rest Hrest];
    [apply sort_desc_sorted|].
  rewrite Hrest at 2.
  apply incl_map, slice_to_prefix.
Qed.

Lemma similarities_of_spec (query : Embedding) (exclude_id : Z) (threshold : Q)
  (db : list Incident) :
  (forall incident,
      In incident db -> scanned exclude_id incident = true ->
      similarity_of cosine query incident <> None) ->
  exists sims,
    similarities_of cosine query
      (List.filter
         (fun incident =>
            negb (Z.eqb (id incident) exclude_id)
            && match embedding incident with
               | Some _ => true
               | None => false
               end) db)
    = Some sims
    /\ map fst (List.filter (fun p => Qle_bool threshold (snd p)) sims)
       = List.filter (qualifies cosine query exclude_id threshold) db
    /\ Forall (fun p => similarity_of cosine query (fst p) = Some (snd p)) sims.
Proof.
  induction db as [|inc db IH]; intros Hdef.
  - exists []. repeat split. constructor.
  - destruct IH as (sims & Hsims & Hmap & Hall).
    { intros i Hi. apply Hdef. right. exact Hi. }
    specialize (Hdef inc (or_introl eq_refl)).
    unfold qualifies, scanned, similarity_of in *. simpl.
    destruct (negb (Z.eqb (id inc) exclude_id)); simpl;
      [|exists sims; repeat split; assumption].
    destruct (embedding inc) as [e|] eqn:Ee; simpl;
      [|exists sims; repeat split; assumption].
    rewrite Ee. destruct (0 <? length e)%nat; simpl;
      [|exists sims; repeat split; assumption].
    destruct (cosine query e) as [s|] eqn:Es; [|exfalso; apply Hdef; reflexivity].
    rewrite Hsims. exists ((inc, s) :: sims). split; [reflexivity|].
    split.
    + simpl. destruct (Qle_bool threshold s); simpl; rewrite Hmap; reflexivity.
    + constructor; [simpl; rewrite Ee; exact Es|exact Hall].
Qed.

Lemma similarities_of_raise (query : Embedding) (incidents : list Incident)
  (incident : Incident) (e : Embedding) :
  In incident incidents ->
  embedding incident = Some e -> (0 <? length e)%nat = true ->
  cosine query e = None ->
  similarities_of cosine query incidents = None.
Proof.
  intros Hin He Hlen Hc.
  induction incidents as [|inc incidents IH]; [destruct Hin|]. simpl.
  destruct Hin as [->|Hin].
  - rewrite He, Hlen, Hc. reflexivity.
  - rewrite (IH Hin).
    destruct (embedding inc) as [e'|]; [|reflexivity].
    destruct (0 <? length e')%nat; [|reflexivity].
    destruct (cosine query e'); reflexivity.
Qed.

Lemma find_similar_incidents_raise (db : list Incident) (exclude_id : Z)
  (query : Embedding) (threshold : option Q) (limit : Z) :
  (exists incident,
      In incident db /\ scanned exclude_id incident = true
      /\ similarity_of cosine query incident = None) ->
  find_similar_incidents cosine db exclude_id query threshold limit = [].
Proof.
  intros (incident & Hin & Hscan & Hsim).
  assert (Hrun : find_similar_incidents cosine db exclude_id query threshold limit
                 = find_similar_incidents cosine db exclude_id query
                     (Some match threshold with
                           | Some t => t
                           | None => 75 # 100
                           end) limit)
    by (destruct threshold; reflexivity).
  rewrite Hrun, find_similar_incidents_unfold.
  unfold scanned, similarity_of in Hscan, Hsim.
  apply andb_true_iff in Hscan. destruct Hscan as [Hid Hemb].
  destruct (embedding incident) as [e|] eqn:Ee; [|discriminate].
  rewrite (similarities_of_raise query _ incident e); [reflexivity| | | |].
  - apply filter_In. split; [exact Hin|]. rewrite Hid, Ee. reflexivity.
  - exact Ee.
  - exact Hemb.
  - exact Hsim.
Qed.

(** C5.  An empty table yields an empty result.  For a [limit] (a number
    of incidents, so not negative), and with the cosine similarity defined
    for every scanned candidate, the result is the first [limit] entries
    of a ranking that lists exactly the candidates with an id other than
    [exclude_id], a non-empty embedding and a similarity at or above the
    threshold, in descending order of similarity; the threshold is 0.75
    when none is supplied.  When the similarity of a scanned candidate
    raises, the exception is caught and the result is empty. *)
Theorem find_similar_incidents_spec (db : list Incident) (exclude_id : Z)
  (query : Embedding) (threshold : option Q) (limit : Z) :
  find_similar_incidents cosine [] exclude_id query threshold limit = []
  /\ ((0 <= limit)%Z ->
      (forall incident,
          In incident db -> scanned exclude_id incident = true ->
          similarity_of cosine query incident <> None) ->
      let t := match threshold with Some t => t | None => 75 # 100 end in
      exists ranked : list (Incident * Q),
        Permutation (map fst ranked)
          (List.filter (qualifies cosine query exclude_id t) db)
        /\ Forall (fun p => similarity_of cosine query (fst p) = Some (snd p))
             ranked
        /\ StronglySorted (fun x y => snd y <= snd x) ranked
        /\ find_similar_incidents cosine db exclude_id query threshold limit
           = map fst (firstn (Z.to_nat limit) ranked)
        /\ (Z.of_nat
              (length
                 (find_similar_incidents cosine db exclude_id query threshold
                    limit))
            <= limit)%Z)
  /\ ((exists incident,
          In incident db /\ scanned exclude_id incident = true
          /\ similarity_of cosine query incident = None) ->
      find_similar_incidents cosine db exclude_id query threshold limit = []).
Proof.
  split; [reflexivity|]. split; [|apply find_similar_incidents_raise].
  intros Hlimit Hdef t.
  assert (Hrun : find_similar_incidents cosine db exclude_id query threshold limit
                 = find_similar_incidents cosine db exclude_id query (Some t) limit)
    by (destruct threshold; reflexivity).
  rewrite Hrun, find_similar_incidents_unfold.
  destruct (similarities_of_spec query exclude_id t db Hdef)
    as (sims & Hsims & Hmap & Hall).
  rewrite Hsims, slice_to_nonneg by exact Hlimit.
  set (kept := List.filter (fun p => Qle_bool t (snd p)) sims) in *.
  exists (sort_desc snd kept).
  split; [|split; [|split; [|split]]].
  - rewrite <- Hmap. apply Permutation_map, sort_desc_by_perm.
  - apply (Permutation_Forall (x := kept)).
    + symmetry. apply sort_desc_by_perm.
    + rewrite List.Forall_forall in Hall. apply List.Forall_forall.
      intros p Hp. apply Hall. apply filter_In in Hp. tauto.
  - apply sort_desc_sorted.
  - reflexivity.
  - rewrite length_map, length_firstn. lia.
Qed.

End Similarity.

Lemma find_similar_threshold_monotone_witness :
  70 # 100 < 90 # 100
  /\ incl
       (find_similar_incidents cosine_of_unit_vectors incidents_table 1
          [1; 0] (Some (90 # 100)) 5)
       (find_similar_incidents cosine_of_unit_vectors incidents_table 1
          [1; 0] (Some (70 # 100)) 5).
Proof.
  split; [reflexivity|].
  apply (find_similar_threshold_monotone cosine_of_unit_vectors
           incidents_table 1 [1; 0] (70 # 100) (90 # 100) 5).
  reflexivity.
Defined.

Lemma find_similar_incidents_spec_witness :
  exists ranked : list (Incident * Q),
    find_similar_incidents cosine_of_unit_vectors incidents_table 1 [1; 0]
      None 5
    = map fst (firstn 5 ranked)
    /\ (length
          (find_similar_incidents cosine_of_unit_vectors incidents_table 1
             [1; 0]%Q None 5) <= 5)%nat.
Proof.
  destruct (find_similar_incidents_spec cosine_of_unit_vectors
              incidents_table 1 [1; 0] None 5) as [_ [H _]].
  destruct H as (ranked & _ & _ & _ & Hrun & Hlen).
  - lia.
  - intros incident Hin Hscan. simpl in Hin.
    repeat (destruct Hin as [<-|Hin]; [vm_compute in Hscan |- *; congruence|]).
    destruct Hin.
  - exists ranked. split; [exact Hrun|]. lia.
Defined.

(** ** Keyword extraction *)

Lemma StronglySorted_map {A B : Type} (f : A -> B) (R : B -> B -> Prop)
  (xs : list A) :
  StronglySorted (fun x y => R (f x) (f y)) xs <-> StronglySorted R (map f xs).
Proof.
  induction xs as [|x xs IH]; simpl.
  - split; constructor.
  - split; intros H; apply StronglySorted_inv in H; destruct H as [Hs Hx];
      (constructor; [apply IH, Hs|]).
    + apply List.Forall_forall. intros y Hy. apply in_map_iff in Hy.
      destruct Hy as (a & <- & Ha). rewrite List.Forall_forall in Hx.
      exact (Hx a Ha).
    + apply List.Forall_forall. intros y Hy. rewrite List.Forall_forall in Hx.
      apply Hx, in_map, Hy.
Qed.

Lemma StronglySorted_weaken_In {A : Type} (R R' : A -> A -> Prop) (xs : list A) :
  (forall x y, In x xs -> In y xs -> R x y -> R' x y) ->
  StronglySorted R xs -> StronglySorted R' xs.
Proof.
  induction xs as [|x xs IH]; intros Himp Hs; [constructor|].
  apply StronglySorted_inv in Hs. destruct Hs as [Hs Hx].
  constructor.
  - apply IH; [|exact Hs]. intros a b Ha Hb. apply Himp; right; assumption.
  - rewrite List.Forall_forall in Hx. apply List.Forall_forall.
    intros y Hy. apply Himp; [left; reflexivity|right; exact Hy|exact (Hx y Hy)].
Qed.

Lemma StronglySorted_app_one {A : Type} (R : A -> A -> Prop) (xs : list A) (x : A) :
  StronglySorted R xs -> Forall (fun y => R y x) xs ->
  StronglySorted R (xs ++ [x]).
Proof.
  induction xs as [|y xs IH]; intros Hs Hx; simpl.
  - constructor; constructor.
  - apply StronglySorted_inv in Hs. destruct Hs as [Hs Hy].
    inversion Hx as [|? ? Hyx Hxs]; subst.
    constructor; [apply IH; assumption|].
    apply Forall_app. split; [exact Hy|constructor; [exact Hyx|constructor]].
Qed.

Lemma StronglySorted_firstn {A : Type} (R : A -> A -> Prop) (n : nat) (xs : list A) :
  StronglySorted R xs -> StronglySorted R (firstn n xs).
Proof.
  revert xs. induction n as [|n IH]; intros [|x xs] Hs; simpl; try constructor.
  - apply IH. apply StronglySorted_inv in Hs. tauto.
  - apply StronglySorted_inv in Hs. destruct Hs as [_ Hx].
    rewrite List.Forall_forall in Hx. apply List.Forall_forall.
    intros y Hy. apply Hx. eapply In_firstn, Hy.
Qed.

Lemma frequency_app (w : string) (xs ys : list string) :
  frequency w (xs ++ ys) = (frequency w xs + frequency w ys)%nat.
Proof. unfold frequency. apply count_occ_app. Qed.

Lemma frequency_absent (w : string) (xs : list string) :
  ~ In w xs -> frequency w xs = 0%nat.
Proof. unfold frequency. apply count_occ_not_In. Qed.

Lemma first_before_snoc (a b w : string) (done : list string) :
  first_before a b done -> first_before a b (done ++ [w]).
Proof.
  intros (Hab & pre & post & -> & Ha & Hb). split; [exact Hab|].
  exists pre, (post ++ [w])%list. rewrite <- app_assoc. simpl. tauto.
Qed.


Lemma in_first_split (a : string) (l : list string) :
  In a l -> exists pre post, l = (pre ++ a :: post)%list /\ ~ In a pre.
Proof.
  induction l as [|x l IH]; intros Ha; [destruct Ha|].
  destruct (string_dec x a) as [->|Hx].
  - exists [], l. split; [reflexivity|intros []].
  - destruct Ha as [Ha|Ha]; [contradiction|].
    destruct (IH Ha) as (pre & post & -> & Hpre).
    exists (x :: pre), post. split; [reflexivity|].
    intros [H|H]; [contradiction|exact (Hpre H)].
Qed.

Lemma first_before_fresh (a w : string) (done : list string) :
  In a done -> ~ In w done -> first_before a w (done ++ [w]).
Proof.
  intros Ha Hw. split; [intros ->; contradiction|].
  destruct (in_first_split _ _ Ha) as (pre & post & -> & Hpre).
  exists pre, (post ++ [w])%list. rewrite <- app_assoc. simpl.
  split; [reflexivity|]. split; [exact Hpre|].
  intros Hin. apply Hw. apply in_or_app. left. exact Hin.
Qed.

Lemma frequency_snoc (w' w : string) (done : list string) :
  frequency w' (done ++ [w])
  = (frequency w' done + if string_dec w w' then 1 else 0)%nat.
Proof.
  rewrite frequency_app. unfold frequency at 2. simpl.
  destruct (string_dec w w'); reflexivity.
Qed.

Lemma counted_step (done : list string) (word_freq : list (string * Z))
  (w : string) :
  counted done word_freq ->
  counted (done ++ [w])
    (dict_set word_freq w (dict_get word_freq w 0%Z + 1)%Z).
Proof.
  intros (Hnd & Hkeys & Hcount & Hord).
  destruct (in_dec string_dec w (map fst word_freq)) as [Hin|Hnin].
  - (* a token seen before: its count is incremented in place *)
    destruct (dict_set_present word_freq w
                (dict_get word_freq w 0%Z + 1)%Z 0%Z Hin)
      as (pre & c & post & E & Hpre & Hget & Hset).
    rewrite Hset.
    assert (Hfst : map fst (pre ++ (w, (dict_get word_freq w 0 + 1)%Z) :: post)
                   = map fst word_freq).
    { rewrite E, !map_app. reflexivity. }
    unfold counted. rewrite Hfst.
    split; [exact Hnd|]. split; [|split].
    + intros w'. rewrite Hkeys, in_app_iff. simpl.
      split; [tauto|]. intros [H|[<-|[]]]; [exact H|]. apply Hkeys, Hin.
    + intros w' c' Hin'. rewrite frequency_snoc.
      apply in_app_or in Hin'.
      assert (Hwc : c = Z.of_nat (frequency w done)).
      { apply Hcount. rewrite E. apply in_or_app. right. left. reflexivity. }
      destruct Hin' as [Hin'|[[= <- <-]|Hin']].
      * assert (Hne : w' <> w).
        { intros ->. apply Hpre. apply in_map_iff. exists (w, c'). tauto. }
        destruct (string_dec w w') as [Heq|_]; [congruence|].
        rewrite Nat.add_0_r. apply Hcount. rewrite E. apply in_or_app. tauto.
      * destruct (string_dec w w) as [_|Hne]; [|congruence].
        rewrite Hget, Hwc. lia.
      * assert (Hne : w' <> w).
        { intros ->. rewrite E, map_app in Hnd. simpl in Hnd.
          apply List.NoDup_remove_2 in Hnd. apply Hnd. apply in_or_app. right.
          apply in_map_iff. exists (w, c'). tauto. }
        destruct (string_dec w w') as [Heq|_]; [congruence|].
        rewrite Nat.add_0_r. apply Hcount. rewrite E. apply in_or_app.
        right. right. exact Hin'.
    + eapply StronglySorted_weaken; [|exact Hord].
      intros a b. apply first_before_snoc.
  - (* a new token: appended with count 1 *)
    rewrite dict_set_fresh by exact Hnin.
    rewrite (dict_get_absent _ _ _ Hnin).
    assert (Hw : ~ In w done) by (intros H; apply Hnin, Hkeys, H).
    unfold counted. rewrite map_app. simpl.
    split; [|split; [|split]].
    + apply (Permutation_NoDup (l := w :: map fst word_freq)).
      * apply Permutation_cons_append.
      * constructor; assumption.
    + intros w'. rewrite !in_app_iff, Hkeys. reflexivity.
    + intros w' c' Hin'. rewrite frequency_snoc.
      apply in_app_or in Hin'. destruct Hin' as [Hin'|[[= <- <-]|[]]].
      * assert (Hne : w <> w').
        { intros ->. apply Hnin. apply in_map_iff. exists (w', c'). tauto. }
        destruct (string_dec w w') as [Heq|_]; [congruence|].
        rewrite Nat.add_0_r. apply Hcount, Hin'.
      * destruct (string_dec w w) as [_|Hne]; [|congruence].
        rewrite (frequency_absent _ _ Hw). reflexivity.
    + apply StronglySorted_app_one.
      * eapply StronglySorted_weaken; [|exact Hord].
        intros a b. apply first_before_snoc.
      * apply List.Forall_forall. intros a Ha.
        apply first_before_fresh; [apply Hkeys, Ha|exact Hw].
Qed.

Lemma count_words_from (keywords : list string) :
  forall done word_freq,
    counted done word_freq ->
    counted (done ++ keywords)
      (fold_left
         (fun (word_freq : list (string * Z)) (word : string) =>
            dict_set word_freq word (dict_get word_freq word 0%Z + 1)%Z)
         keywords word_freq).
Proof.
  induction keywords as [|w keywords IH]; intros done word_freq H; simpl.
  - rewrite app_nil_r. exact H.
  - replace (done ++ w :: keywords)%list with ((done ++ [w]) ++ keywords)%list
      by (rewrite <- app_assoc; reflexivity).
    apply IH, counted_step, H.
Qed.

Lemma count_words_counted (keywords : list string) :
  counted keywords (count_words keywords).
Proof.
  apply (count_words_from keywords [] []).
  repeat split; try constructor; simpl; tauto.
Qed.

Lemma frequency_filter (p : string -> bool) (w : string) (l : list string) :
  p w = true -> frequency w (List.filter p l) = frequency w l.
Proof.
  intros Hw. unfold frequency.
  induction l as [|x l IH]; simpl; [reflexivity|].
  destruct (p x) eqn:Ex; simpl; destruct (string_dec x w) as [->|Hx];
    try congruence.
Qed.

Lemma first_before_filter (p : string -> bool) (a b : string) (l : list string) :
  p a = true -> p b = true ->
  first_before a b (List.filter p l) -> first_before a b l.
Proof.
  intros Ha Hb [Hab H]. split; [exact Hab|].
  induction l as [|x l IH]; simpl in H.
  - destruct H as (pre & post & E & _). destruct pre; discriminate.
  - destruct (p x) eqn:Ex.
    + destruct H as ([|y pre] & post & E & Hna & Hnb); simpl in E.
      * injection E as -> _. exists [], l. simpl. tauto.
      * injection E as -> E.
        destruct IH as (pre' & post' & -> & Hna' & Hnb').
        { exists pre, post. simpl in Hna, Hnb. tauto. }
        exists (y :: pre'), post'. simpl in Hna, Hnb. simpl. tauto.
    + destruct (IH H) as (pre' & post' & -> & Hna' & Hnb').
      exists (x :: pre'), post'. simpl.
      split; [reflexivity|].
      split; (intros [->|Hin]; [congruence|tauto]).
Qed.

Lemma kept_facts (stopwords : list string) (w : string) :
  kept stopwords w = true ->
  isalpha w = true /\ (2 < String.length w)%nat /\ ~ In w stopwords.
Proof.
  unfold kept. rewrite !andb_true_iff, negb_true_iff.
  intros [[Ha Hs] Hl]. split; [exact Ha|]. split; [apply Nat.ltb_lt, Hl|].
  intros Hin.
  assert (Hex : existsb (String.eqb w) stopwords = true).
  { apply existsb_exists. exists w. split; [exact Hin|apply String.eqb_refl]. }
  congruence.
Qed.

(** The complete ranking computed by [extract_keywords] before slicing. *)
Lemma ranking_spec (stopwords : list string) (tokens : list string) :
  let ranking :=
    map fst
      (sort_desc (fun item : string * Z => inject_Z (snd item))
         (count_words (List.filter (kept stopwords) tokens))) in
  List.NoDup ranking
  /\ (forall w, In w ranking <-> In w tokens /\ kept stopwords w = true)
  /\ StronglySorted (ranks_before tokens) ranking.
Proof.
  set (keywords := List.filter (kept stopwords) tokens).
  set (key := fun item : string * Z => inject_Z (snd item)).
  destruct (count_words_counted keywords) as (Hnd & Hkeys & Hcount & Hord).
  pose proof (sort_desc_by_perm
                (by_key key) (count_words keywords))
    as Hperm.
  fold (sort_desc key (count_words keywords)) in Hperm.
  cbv zeta. split; [|split].
  - apply (Permutation_NoDup (l := map fst (count_words keywords)));
      [|exact Hnd].
    symmetry. apply Permutation_map, Hperm.
  - intros w.
    rewrite (Permutation_in' (eq_refl w) (Permutation_map fst Hperm)).
    rewrite Hkeys. unfold keywords. apply filter_In.
  - apply (proj1 (StronglySorted_map fst (ranks_before tokens) _)).
    apply (StronglySorted_weaken_In
             (stable_order key
                (fun x y => first_before (fst x) (fst y) keywords))).
    + intros [a ca] [b cb] Ha Hb.
      apply (Permutation_in _ Hperm) in Ha.
      apply (Permutation_in _ Hperm) in Hb.
      assert (Hka : kept stopwords a = true).
      { assert (H : In a keywords)
          by (apply Hkeys, in_map_iff; exists (a, ca); tauto).
        apply filter_In in H. tauto. }
      assert (Hkb : kept stopwords b = true).
      { assert (H : In b keywords)
          by (apply Hkeys, in_map_iff; exists (b, cb); tauto).
        apply filter_In in H. tauto. }
      rewrite (Hcount a ca Ha), (Hcount b cb Hb).
      unfold keywords. rewrite !frequency_filter by assumption.
      unfold stable_order, key, ranks_before. cbn [fst snd].
      rewrite <- Zlt_Qlt, inject_Z_injective.
      intros [Hlt|[Heq Hbefore]].
      * left. lia.
      * right. split; [lia|].
        apply (first_before_filter (kept stopwords)); assumption.
    + apply sort_desc_stable.
      apply (proj2 (StronglySorted_map fst
                      (fun a b => first_before a b keywords) _)).
      exact Hord.
Qed.

(** C10.  For every text and every [top_n] (a number of tokens, so not
    negative), [extract_keywords] returns at most [top_n] tokens, each purely
    alphabetic, longer than two characters and not a stopword; they are
    the first [top_n] entries of the ranking of the distinct kept tokens by
    descending frequency, ties broken by first occurrence; the empty text
    yields the empty sequence, and a failing tokenizer yields the empty
    sequence rather than an error. *)
Theorem extract_keywords_spec
  (word_tokenize : string -> option (list string)) (self : AIService)
  (text : string) (top_n : Z) :
  (0 <= top_n)%Z ->
  let result := extract_keywords word_tokenize self text top_n in
  (Z.of_nat (length result) <= top_n)%Z
  /\ (forall w,
        In w result ->
        isalpha w = true /\ (2 < String.length w)%nat
        /\ ~ In w (stopwords self))
  /\ match word_tokenize (lower text) with
     | Some tokens =>
         exists ranking,
           List.NoDup ranking
           /\ (forall w,
                 In w ranking
                 <-> In w tokens /\ kept (stopwords self) w = true)
           /\ StronglySorted (ranks_before tokens) ranking
           /\ result = firstn (Z.to_nat top_n) ranking
     | None => result = []
     end
  /\ ((forall tokens, word_tokenize "" = Some tokens -> tokens = []) ->
      extract_keywords word_tokenize self "" top_n = []).
Proof.
  intros Hn result.
  assert (Hrun : forall t,
             extract_keywords word_tokenize self t top_n
             = match word_tokenize (lower t) with
               | Some tokens =>
                   firstn (Z.to_nat top_n)
                     (map fst
                        (sort_desc (fun item : string * Z => inject_Z (snd item))
                           (count_words
                              (List.filter (kept (stopwords self)) tokens))))
               | None => []
               end).
  { intros t. unfold extract_keywords.
    destruct (word_tokenize (lower t)) as [tokens|]; [|reflexivity].
    rewrite slice_to_nonneg by exact Hn. symmetry. apply firstn_map. }
  assert (Hthird :
            match word_tokenize (lower text) with
            | Some tokens =>
                exists ranking,
                  List.NoDup ranking
                  /\ (forall w,
                        In w ranking
                        <-> In w tokens /\ kept (stopwords self) w = true)
                  /\ StronglySorted (ranks_before tokens) ranking
                  /\ result = firstn (Z.to_nat top_n) ranking
            | None => result = []
            end).
  { unfold result. rewrite Hrun.
    destruct (word_tokenize (lower text)) as [tokens|]; [|reflexivity].
    destruct (ranking_spec (stopwords self) tokens) as (Hnd & Hin & Hs).
    eexists. split; [exact Hnd|]. split; [exact Hin|]. split; [exact Hs|].
    reflexivity. }
  split; [|split; [|split; [exact Hthird|]]].
  - destruct (word_tokenize (lower text)) as [tokens|].
    + destruct Hthird as (ranking & _ & _ & _ & ->).
      rewrite length_firstn. lia.
    + rewrite Hthird. simpl. exact Hn.
  - intros w Hw. destruct (word_tokenize (lower text)) as [tokens|].
    + destruct Hthird as (ranking & _ & Hin & _ & E). rewrite E in Hw.
      apply In_firstn, Hin in Hw. apply kept_facts. tauto.
    + rewrite Hthird in Hw. destruct Hw.
  - intros Hempty. rewrite Hrun. simpl.
    destruct (word_tokenize "") as [tokens|] eqn:E; [|reflexivity].
    rewrite (Hempty tokens eq_refl). simpl. apply firstn_nil.
Qed.

Lemma extract_keywords_spec_witness :
  (Z.of_nat
     (length
        (extract_keywords whitespace_tokenize two_axis_service
           "the glass bottle was near the glass door and the bin" 2))
   <= 2)%Z
  /\ extract_keywords whitespace_tokenize two_axis_service
       "the glass bottle was near the glass door and the bin" 2
     = ["glass"; "bottle"].
Proof.
  split; [|reflexivity].
  apply (extract_keywords_spec whitespace_tokenize two_axis_service
           "the glass bottle was near the glass door and the bin" 2).
  lia.
Defined.

End AIProofs.

(* ================================================================== *)
(** * Properties of the analytics service *)
(* ================================================================== *)

Module AnalyticsProofs.
Import Py Spec Analytics AnalyticsSpec Examples PyFacts.
Local Open Scope R_scope.

(** ** Real-number helpers *)

Lemma Rlt_bool_true (a b : R) : Rlt_bool a b = true <-> a < b.
Proof.
  unfold Rlt_bool. destruct (Rlt_dec a b); split; intros H;
    try reflexivity; try assumption; try discriminate; contradiction.
Qed.

Lemma Rlt_bool_false (a b : R) : Rlt_bool a b = false <-> ~ a < b.
Proof.
  unfold Rlt_bool. destruct (Rlt_dec a b); split; intros H;
    try reflexivity; try assumption; try discriminate; contradiction.
Qed.

Lemma round_half_even_near (x : R) (z : Z) :
  IZR z <= x < IZR z + 1 / 2 -> Analytics.round_half_even x = z.
Proof.
  intros H. unfold Analytics.round_half_even.
  assert (Hf : Zfloor x = z) by (apply Zfloor_eq; lra).
  rewrite Hf. destruct (Rlt_dec (x - IZR z) (1 / 2)); [reflexivity|lra].
Qed.

Lemma round_near (x : R) (n : nat) (z p : Z) :
  Zpos (pow10 n) = p ->
  IZR z <= x * IZR p < IZR z + 1 / 2 ->
  Analytics.round x n = IZR z / IZR p.
Proof.
  intros <- H. unfold Analytics.round. rewrite (round_half_even_near _ z H).
  reflexivity.
Qed.

Lemma sum_from (xs : list Z) : forall acc, fold_left Z.add xs acc = (acc + total xs)%Z.
Proof.
  induction xs as [|x xs IH]; intros acc; simpl; [lia|]. rewrite IH. lia.
Qed.

Lemma sum_total (xs : list Z) : sum xs = total xs.
Proof. unfold sum. rewrite sum_from. lia. Qed.



Lemma IZR_total (xs : list Z) : IZR (total xs) = Rtotal (map IZR xs).
Proof.
  induction xs as [|x xs IH]; simpl; [reflexivity|].
  rewrite plus_IZR, IH. reflexivity.
Qed.

Lemma mean_count_spec (counts : list Z) :
  IZR (sum counts) / len counts = population_mean counts.
Proof.
  unfold population_mean, len. rewrite sum_total, IZR_total. reflexivity.
Qed.

(** ** detect_anomalies *)

(** The function, with the mean named as in the specification. *)
Lemma detect_anomalies_unfold (rows : list (string * Z)) (m : R) :
  rows <> [] ->
  detect_anomalies rows m
  = map
      (fun row =>
         {| location := fst row;
            count := snd row;
            mean := Analytics.round (population_mean (map snd rows)) 2;
            threshold := Analytics.round (population_mean (map snd rows) * m) 2;
            severity :=
              if Rlt_bool (population_mean (map snd rows) * m * (15 / 10))
                   (IZR (snd row))
              then high else medium |})
      (List.filter
         (fun row => Rlt_bool (population_mean (map snd rows) * m) (IZR (snd row)))
         rows).
Proof.
  intros Hne. unfold detect_anomalies.
  destruct rows as [|row rows]; [congruence|].
  cbv zeta. rewrite mean_count_spec. reflexivity.
Qed.

Lemma location_rows_mean : population_mean (map snd location_rows) = 55 / 4.
Proof.
  unfold population_mean. simpl length. rewrite INR_IZR_INZ.
  change (Z.of_nat 4) with 4%Z. simpl. lra.
Qed.

Lemma location_rows_anomalies :
  detect_anomalies location_rows 2
  = [ {| location := "D"; count := 40; mean := 1375 / 100;
         threshold := 275 / 10; severity := medium |} ].
Proof.
  rewrite detect_anomalies_unfold by discriminate.
  rewrite location_rows_mean. unfold location_rows. simpl.
  rewrite !(proj2 (Rlt_bool_false (55 / 4 * 2) 5)) by lra.
  rewrite (proj2 (Rlt_bool_true (55 / 4 * 2) 40)) by lra.
  simpl.
  rewrite (proj2 (Rlt_bool_false (55 / 4 * 2 * (15 / 10)) 40)) by lra.
  rewrite (round_near (55 / 4) 2 1375 100 eq_refl) by lra.
  rewrite (round_near (55 / 4 * 2) 2 2750 100 eq_refl) by lra.
  f_equal. f_equal; lra.
Qed.


(** ** _detect_daily_spikes *)












(** ** analyze_trends *)

Section Trends.

Context (current_counts previous_counts : gmap string Z).

Local Abbreviation step := (trend_step current_counts previous_counts).

Lemma trend_step_join (acc : Buckets) (wt : string) :
  step acc wt = join_buckets acc (step empty_buckets wt).
Proof.
  unfold trend_step, join_buckets.
  destruct ((default 0%Z (previous_counts !! wt) =? 0)%Z
            && (0 <? default 0%Z (current_counts !! wt))%Z);
    [simpl; rewrite !app_nil_r; reflexivity|].
  destruct (0 <? default 0%Z (previous_counts !! wt))%Z;
    [|simpl; rewrite !app_nil_r; destruct acc; reflexivity].
  destruct (Rlt_bool 20 _); [simpl; rewrite !app_nil_r; reflexivity|].
  destruct (Rlt_bool _ (-20)); simpl; rewrite !app_nil_r; reflexivity.
Qed.

Lemma fold_step_join (wts : list string) :
  forall acc,
    fold_left step wts acc
    = join_buckets acc (fold_left step wts empty_buckets).
Proof.
  induction wts as [|wt wts IH]; intros acc; simpl.
  - unfold join_buckets. simpl. rewrite !app_nil_r. destruct acc; reflexivity.
  - rewrite IH, (IH (step empty_buckets wt)), trend_step_join.
    unfold join_buckets. simpl. rewrite !app_assoc. reflexivity.
Qed.

(** A record is in a bucket after the loop exactly when one iteration put
    it there. *)
Lemma fold_step_In {B : Type} (proj : Buckets -> list B)
  (Hproj : forall a b, proj (join_buckets a b) = (proj a ++ proj b)%list)
  (wts : list string) (x : B) :
  In x (proj (fold_left step wts empty_buckets))
  <-> exists wt, In wt wts /\ In x (proj (step empty_buckets wt)).
Proof.
  induction wts as [|wt wts IH]; simpl.
  - assert (Hnil : proj empty_buckets = []).
    { pose proof (Hproj empty_buckets empty_buckets) as H.
      apply (f_equal (@length B)) in H. rewrite length_app in H.
      change (join_buckets empty_buckets empty_buckets) with empty_buckets in H.
      destruct (proj empty_buckets); [reflexivity|simpl in H; lia]. }
    change {| b_rising := []; b_falling := []; b_stable := []; b_new := [] |}
      with empty_buckets.
    rewrite Hnil. split; [intros []|intros (wt & [] & _)].
  - change {| b_rising := []; b_falling := []; b_stable := []; b_new := [] |}
      with empty_buckets.
    rewrite fold_step_join, Hproj, in_app_iff, IH. split.
    + intros [H|(wt' & Hin & H)]; [exists wt; tauto|exists wt'; tauto].
    + intros (wt' & [<-|Hin] & H); [left; exact H|right; exists wt'; tauto].
Qed.

Lemma visited (wt : string) :
  (0 < default 0%Z (previous_counts !! wt))%Z
  \/ (0 < default 0%Z (current_counts !! wt))%Z ->
  In wt (elements (dom current_counts ∪ dom previous_counts)).
Proof.
  intros H. apply list_elem_of_In, elem_of_elements, elem_of_union.
  rewrite !elem_of_dom.
  destruct (previous_counts !! wt) as [p|]; [right; eauto|].
  destruct (current_counts !! wt) as [c|]; [left; eauto|].
  simpl in H. lia.
Qed.

End Trends.

Lemma report_rising_In (cur prev : gmap string Z) (daily : list (Z * Z))
  (days : Z) (item : TrendItem) :
  In item (rising_trends (analyze_trends cur prev daily days))
  <-> exists wt,
        In wt (elements (dom cur ∪ dom prev))
        /\ In item (b_rising (trend_step cur prev empty_buckets wt)).
Proof.
  unfold analyze_trends. cbn [rising_trends].
  rewrite <- (fold_step_In cur prev b_rising (fun a b => eq_refl)).
  split; apply Permutation_in;
    [|symmetry]; apply sort_desc_by_perm.
Qed.

Lemma report_falling_In (cur prev : gmap string Z) (daily : list (Z * Z))
  (days : Z) (item : TrendItem) :
  In item (falling_trends (analyze_trends cur prev daily days))
  <-> exists wt,
        In wt (elements (dom cur ∪ dom prev))
        /\ In item (b_falling (trend_step cur prev empty_buckets wt)).
Proof.
  unfold analyze_trends. cbn [falling_trends].
  rewrite <- (fold_step_In cur prev b_falling (fun a b => eq_refl)).
  split; apply Permutation_in;
    [|symmetry]; apply sort_desc_by_perm.
Qed.



End AnalyticsProofs.

(* ================================================================== *)
(** * Facts about binary64 floats *)
(* ================================================================== *)

Module Binary64Facts.
Import SpecFloat Py Binary64.

(** ** The order of the floats *)

Lemma lex_Lt (a b : Z * Z * Z) :
  lex a b = Lt
  <-> (fst (fst a) < fst (fst b)
       \/ (fst (fst a) = fst (fst b)
           /\ (snd (fst a) < snd (fst b)
               \/ (snd (fst a) = snd (fst b) /\ snd a < snd b))))%Z.
Proof.
  unfold lex.
  destruct (Z.compare_spec (fst (fst a)) (fst (fst b)));
    destruct (Z.compare_spec (snd (fst a)) (snd (fst b)));
    destruct (Z.compare_spec (snd a) (snd b));
    split; intros H'; try discriminate; try reflexivity; lia.
Qed.

Lemma lex_Gt (a b : Z * Z * Z) : lex a b = Gt <-> lex b a = Lt.
Proof.
  rewrite lex_Lt. unfold lex.
  destruct (Z.compare_spec (fst (fst a)) (fst (fst b)));
    destruct (Z.compare_spec (snd (fst a)) (snd (fst b)));
    destruct (Z.compare_spec (snd a) (snd b));
    split; intros H'; try discriminate; try reflexivity; lia.
Qed.

Lemma compare_rank (x y : float) :
  SFcompare x y
  = match rank x, rank y with
    | Some a, Some b => Some (lex a b)
    | _, _ => None
    end.
Proof.
  destruct x as [sx|sx| |sx mx ex], y as [sy|sy| |sy my ey];
    try destruct sx; try destruct sy; try reflexivity.
  unfold rank, lex, SFcompare; cbn [fst snd].
  change (-1 ?= -1)%Z with Eq. cbv iota.
  rewrite Z.compare_opp, (Z.compare_antisym ex ey).
  destruct (ex ?= ey)%Z; reflexivity.
Qed.

Lemma ltb_rank (x y : float) :
  ltb x y = true
  <-> exists a b, rank x = Some a /\ rank y = Some b /\ lex a b = Lt.
Proof.
  unfold ltb, SFltb. rewrite compare_rank.
  destruct (rank x) as [a|], (rank y) as [b|]; split;
    try discriminate; try (intros (? & ? & ? & ? & _); discriminate).
  - intros H. exists a, b. repeat split. destruct (lex a b); congruence.
  - intros (a' & b' & [= <-] & [= <-] & ->). reflexivity.
Qed.

Lemma leb_rank (x y : float) :
  leb x y = true
  <-> exists a b, rank x = Some a /\ rank y = Some b /\ lex b a <> Lt.
Proof.
  unfold leb, SFleb. rewrite compare_rank.
  destruct (rank x) as [a|], (rank y) as [b|]; split;
    try discriminate; try (intros (? & ? & ? & ? & _); discriminate).
  - intros H. exists a, b. repeat split. rewrite <- lex_Gt.
    destruct (lex a b); congruence.
  - intros (a' & b' & [= <-] & [= <-] & H). rewrite <- lex_Gt in H.
    destruct (lex a b); congruence.
Qed.

Lemma rank_nan (x : float) : is_nan x = false <-> rank x <> None.
Proof.
  destruct x as [s|s| |s m e]; try destruct s; simpl;
    split; congruence.
Qed.

(** [a <= b] excludes [b < a]. *)
Lemma leb_not_ltb (x y : float) : leb y x = true -> ltb x y = false.
Proof.
  intros H. apply leb_rank in H. destruct H as (a & b & Ha & Hb & H).
  destruct (ltb x y) eqn:E; [|reflexivity].
  apply ltb_rank in E. destruct E as (b' & a' & Hb' & Ha' & E).
  congruence.
Qed.

Lemma ltb_leb (x y : float) : ltb x y = true -> leb x y = true.
Proof.
  intros H. apply ltb_rank in H. destruct H as (a & b & Ha & Hb & H).
  apply leb_rank. exists a, b. repeat split; try assumption.
  intros H'. apply lex_Lt in H, H'. lia.
Qed.

Lemma ltb_not_leb (x y : float) : ltb x y = true -> leb y x = false.
Proof.
  intros H. destruct (leb y x) eqn:E; [|reflexivity].
  apply leb_not_ltb in E. congruence.
Qed.

(** Two floats other than NaN are comparable. *)
Lemma not_ltb_leb (x y : float) :
  is_nan x = false -> is_nan y = false -> ltb x y = false -> leb y x = true.
Proof.
  intros Hx Hy H. apply rank_nan in Hx, Hy.
  destruct (rank x) as [a|] eqn:Ea; [|congruence].
  destruct (rank y) as [b|] eqn:Eb; [|congruence].
  apply leb_rank. exists b, a. repeat split; try assumption.
  intros H'. rewrite (proj2 (ltb_rank x y)) in H; [discriminate|].
  exists a, b. tauto.
Qed.

Lemma ltb_trans (x y z : float) :
  ltb x y = true -> ltb y z = true -> ltb x z = true.
Proof.
  intros H1 H2. apply ltb_rank in H1, H2. apply ltb_rank.
  destruct H1 as (a & b & Ha & Hb & H1).
  destruct H2 as (b' & c & Hb' & Hc & H2).
  assert (b' = b) by congruence. subst b'.
  exists a, c. repeat split; try assumption.
  apply lex_Lt in H1, H2. apply lex_Lt. lia.
Qed.

Lemma leb_ltb_trans (x y z : float) :
  leb x y = true -> ltb y z = true -> ltb x z = true.
Proof.
  intros H1 H2. apply leb_rank in H1. apply ltb_rank in H2. apply ltb_rank.
  destruct H1 as (a & b & Ha & Hb & H1).
  destruct H2 as (b' & c & Hb' & Hc & H2).
  assert (b' = b) by congruence. subst b'.
  exists a, c. repeat split; try assumption.
  rewrite lex_Lt in H1. apply lex_Lt in H2. apply lex_Lt. lia.
Qed.

Lemma ltb_nan (x y : float) :
  ltb x y = true -> is_nan x = false /\ is_nan y = false.
Proof.
  intros H. apply ltb_rank in H. destruct H as (a & b & Ha & Hb & _).
  split; apply rank_nan; congruence.
Qed.

Lemma leb_nan (x y : float) :
  leb x y = true -> is_nan x = false /\ is_nan y = false.
Proof.
  intros H. apply leb_rank in H. destruct H as (a & b & Ha & Hb & _).
  split; apply rank_nan; congruence.
Qed.

Lemma leb_refl (x : float) : is_nan x = false -> leb x x = true.
Proof.
  intros H. apply rank_nan in H. destruct (rank x) as [a|] eqn:E; [|congruence].
  apply leb_rank. exists a, a. repeat split; try assumption.
  rewrite lex_Lt. lia.
Qed.

(** ** The maximum *)

Import Spec64.

Lemma max_from_stays {A : Type} (key : A -> float) (post : list A) (b : A) :
  Forall (fun y => leb (key y) (key b) = true) post ->
  max_from key b post = b.
Proof.
  induction post as [|y post IH]; intros H; simpl; [reflexivity|].
  inversion H as [|? ? Hy Hpost]; subst.
  rewrite (leb_not_ltb _ _ Hy). apply IH, Hpost.
Qed.

Lemma max_from_finds {A : Type} (key : A -> float) (pre post : list A)
  (x : A) :
  forall best,
    ltb (key best) (key x) = true ->
    Forall (fun y => ltb (key y) (key x) = true) pre ->
    Forall (fun y => leb (key y) (key x) = true) post ->
    max_from key best (pre ++ x :: post) = x.
Proof.
  induction pre as [|p pre IH]; intros best Hb Hpre Hpost; simpl.
  - rewrite Hb. apply max_from_stays, Hpost.
  - inversion Hpre as [|? ? Hp Hpre']; subst.
    destruct (ltb (key best) (key p)); apply IH; assumption.
Qed.

Lemma max_by_is_first_max {A : Type} (key : A -> float) (xs : list A) (x : A) :
  is_first_max key xs x -> max_by key xs = Some x.
Proof.
  intros (pre & post & -> & Hpre & Hpost).
  destruct pre as [|p pre]; simpl.
  - f_equal. apply max_from_stays, Hpost.
  - inversion Hpre; subst. f_equal. apply max_from_finds; assumption.
Qed.

Lemma max_from_is_first_max {A : Type} (key : A -> float) (xs : list A) :
  forall done best,
    Forall (fun y => is_nan (key y) = false) xs ->
    is_nan (key best) = false ->
    is_first_max key done best ->
    is_first_max key (done ++ xs) (max_from key best xs).
Proof.
  induction xs as [|x xs IH]; intros done best Hnan Hbest Hmax; simpl.
  - rewrite app_nil_r. exact Hmax.
  - replace (done ++ x :: xs)%list with ((done ++ [x]) ++ xs)%list
      by (rewrite <- app_assoc; reflexivity).
    inversion Hnan as [|? ? Hx Hnan']; subst.
    destruct Hmax as (pre & post & -> & Hpre & Hpost).
    destruct (ltb (key best) (key x)) eqn:E; apply IH; try assumption.
    + exists (pre ++ best :: post)%list, []. split; [reflexivity|].
      split; [|constructor].
      apply Forall_app. split.
      * eapply List.Forall_impl; [|exact Hpre]. intros y Hy. simpl in Hy.
        eapply ltb_trans; eassumption.
      * constructor; [exact E|].
        eapply List.Forall_impl; [|exact Hpost]. intros y Hy. simpl in Hy.
        eapply leb_ltb_trans; eassumption.
    + exists pre, (post ++ [x])%list. split.
      * rewrite <- app_assoc. reflexivity.
      * split; [exact Hpre|]. apply Forall_app. split; [exact Hpost|].
        constructor; [|constructor].
        apply not_ltb_leb; assumption.
Qed.

Lemma max_by_exists {A : Type} (key : A -> float) (xs : list A) :
  xs <> [] ->
  Forall (fun y => is_nan (key y) = false) xs ->
  exists x, max_by key xs = Some x /\ is_first_max key xs x.
Proof.
  destruct xs as [|x xs]; [congruence|]. intros _ Hnan.
  inversion Hnan as [|? ? Hx Hnan']; subst.
  exists (max_from key x xs). split; [reflexivity|].
  apply (max_from_is_first_max key xs [x] x); try assumption.
  exists [], []. repeat split; constructor.
Qed.

(** ** Division of integers *)

Lemma iter_shr_1_nonneg (p : positive) :
  forall mrs, (0 <= shr_m mrs)%Z -> (0 <= shr_m (iter_pos shr_1 p mrs))%Z.
Proof.
  assert (Hstep : forall mrs, (0 <= shr_m mrs)%Z -> (0 <= shr_m (shr_1 mrs))%Z).
  { intros [m r s] H. simpl in *.
    destruct m as [|[q|q|]|q]; simpl; lia. }
  induction p as [p IH|p IH|]; intros mrs H; simpl.
  - apply IH, IH, Hstep, H.
  - apply IH, IH, H.
  - apply Hstep, H.
Qed.

Lemma shr_fexp_nonneg (m e : Z) (l : location) :
  (0 <= m)%Z -> (0 <= shr_m (fst (shr_fexp prec emax m e l)))%Z.
Proof.
  intros H. unfold shr_fexp, shr.
  assert (H0 : (0 <= shr_m (shr_record_of_loc m l))%Z).
  { destruct l as [|[| |]]; exact H. }
  destruct (fexp prec emax (Zdigits2 m + e) - e)%Z; simpl;
    [exact H0|apply iter_shr_1_nonneg, H0|exact H0].
Qed.

(** Rounding a mantissa that is not negative gives a zero, a finite
    number or an infinity of the given sign. *)
Lemma binary_round_aux_sign (s : bool) (m e : Z) (l : location) :
  (0 <= m)%Z ->
  match binary_round_aux prec emax s m e l with
  | S754_zero s' | S754_infinity s' | S754_finite s' _ _ => s' = s
  | S754_nan => False
  end.
Proof.
  intros H. unfold binary_round_aux.
  pose proof (shr_fexp_nonneg m e l H) as H1.
  destruct (shr_fexp prec emax m e l) as [mrs' e']. cbn [fst] in H1.
  set (m' := round_nearest_even (shr_m mrs') (loc_of_shr_record mrs')).
  assert (Hm' : (0 <= m')%Z).
  { unfold m', round_nearest_even.
    destruct (loc_of_shr_record mrs') as [|[| |]];
      try destruct (Z.even (shr_m mrs')); lia. }
  pose proof (shr_fexp_nonneg m' e' loc_Exact Hm') as H2.
  destruct (shr_fexp prec emax m' e' loc_Exact) as [mrs'' e'']. cbn [fst] in H2.
  destruct (shr_m mrs'') as [|q|q]; [reflexivity| |lia].
  destruct (e'' <=? emax - prec)%Z; reflexivity.
Qed.

Lemma true_div_nonneg (a b : Z) :
  (0 <= a)%Z -> (0 < b)%Z ->
  is_nan (true_div a b) = false /\ leb zero (true_div a b) = true.
Proof.
  intros Ha Hb. unfold true_div.
  destruct b as [|q|q]; try lia. destruct a as [|p|p]; try lia.
  - split; reflexivity.
  - unfold exact, SFdiv.
    destruct (SFdiv_core_binary prec emax (Z.pos p) 0 (Z.pos q) 0)
      as [[mz ez] lz] eqn:E.
    assert (Hmz : (0 <= mz)%Z).
    { unfold SFdiv_core_binary in E.
      set (s := (0 - 0 - _)%Z) in E.
      set (m' := match s with Z.pos _ => Z.shiftl (Z.pos p) s | 0%Z => Z.pos p
                 | Z.neg _ => 0%Z end) in E.
      assert (Hm' : (0 <= m')%Z).
      { unfold m'. destruct s; try lia. apply Z.shiftl_nonneg. lia. }
      pose proof (Z.div_pos m' (Z.pos q) Hm' eq_refl) as Hq.
      unfold Z.div in Hq.
      destruct (Z.div_eucl m' (Z.pos q)) as [q' r']. injection E as <- _ _.
      exact Hq. }
    pose proof (binary_round_aux_sign (xorb false false) mz ez lz Hmz) as H.
    destruct (binary_round_aux prec emax (xorb false false) mz ez lz)
      as [s'|s'| |s' m'' e'']; try contradiction; cbn in H; subst s';
      split; reflexivity.
Qed.

End Binary64Facts.

(* ================================================================== *)
(** * The classifier on binary64 floats *)
(* ================================================================== *)

Module AI64Proofs.
Import Py AI Spec Examples PyFacts AIProofs.
Import Binary64 AI64 Spec64 Binary64Facts.

(** ** Keyword scoring *)

Lemma scored_keys (table : list (string * list string)) (t : string) :
  forall c, In c (map fst (scored_categories table t)) -> In c (map fst table).
Proof.
  intros c. unfold scored_categories. rewrite map_map. simpl.
  rewrite !in_map_iff. intros (e & <- & He). apply filter_In in He.
  exists e. tauto.
Qed.

Lemma keyword_scores_from (table : list (string * list string)) (t : string) :
  forall acc,
    List.NoDup (map fst acc ++ map fst table) ->
    fold_left
      (fun (keyword_scores : list (string * float))
           (entry : string * list string) =>
         let '(category, keywords) := entry in
         let '(score, matches) := keyword_loop keywords t in
         if (0 <? matches)%Z
         then dict_set keyword_scores category
                (true_div score (Z.of_nat (length keywords)))
         else keyword_scores)
      table acc
    = (acc ++ scored_categories table t)%list.
Proof.
  induction table as [|[c kws] table IH]; intros acc Hnd; simpl.
  - unfold scored_categories. simpl. rewrite app_nil_r. reflexivity.
  - rewrite keyword_loop_spec.
    assert (Hc : ~ In c (map fst acc)).
    { intros Hin. simpl in Hnd. apply List.NoDup_remove_2 in Hnd.
      apply Hnd, in_or_app. left. exact Hin. }
    unfold scored_categories. simpl.
    destruct (matched_keywords kws t) as [|m ms] eqn:Em.
    + simpl. apply IH.
      simpl in Hnd. apply List.NoDup_remove_1 in Hnd. exact Hnd.
    + replace (0 <? Z.of_nat (length (m :: ms)))%Z with true
        by (symmetry; apply Z.ltb_lt; simpl; lia).
      rewrite dict_set_fresh by exact Hc.
      rewrite IH.
      * rewrite <- app_assoc. simpl. unfold keyword_score. rewrite Em.
        reflexivity.
      * rewrite map_app. simpl. rewrite <- app_assoc. simpl.
        simpl in Hnd. exact Hnd.
Qed.

(** The dict filled by the loops holds the categories with a match, with
    their scores, in table order. *)
Lemma keyword_scores_scored (t : string) :
  keyword_scores_over WASTE_CATEGORIES t = scored_categories WASTE_CATEGORIES t.
Proof.
  unfold keyword_scores_over.
  rewrite keyword_scores_from; [reflexivity|exact WASTE_CATEGORIES_NoDup].
Qed.

Lemma dict_get_scored_table (table : list (string * list string))
  (t c : string) :
  List.NoDup (map fst table) ->
  dict_get (scored_categories table t) c zero
  = match keywords_of table c with
    | Some keywords =>
        match matched_keywords keywords t with
        | [] => zero
        | _ => keyword_score keywords t
        end
    | None => zero
    end.
Proof.
  induction table as [|[c' kws] table IH]; intros Hnd; simpl; [reflexivity|].
  inversion Hnd as [|? ? Hc' Hnd']; subst.
  unfold scored_categories. simpl.
  destruct (String.eqb c' c) eqn:E.
  - apply String.eqb_eq in E. subst c'.
    destruct (matched_keywords kws t) as [|m ms] eqn:Em; simpl.
    + fold (scored_categories table t).
      apply dict_get_absent.
      intros Hin. apply Hc'. eapply scored_keys, Hin.
    + rewrite String.eqb_refl. reflexivity.
  - destruct (matched_keywords kws t) as [|m ms] eqn:Em; simpl.
    + apply IH, Hnd'.
    + rewrite E. apply IH, Hnd'.
Qed.

(** [keyword_scores.get(category, 0)] is the keyword score of the
    category. *)
Lemma dict_get_score_of (t c : string) :
  dict_get (keyword_scores_over WASTE_CATEGORIES t) c (of_int 0)
  = keyword_score_of c t.
Proof.
  rewrite keyword_scores_scored. unfold keyword_score_of.
  apply dict_get_scored_table, WASTE_CATEGORIES_NoDup.
Qed.

Lemma scored_In (table : list (string * list string)) (t c : string)
  (s : float) :
  In (c, s) (scored_categories table t) <->
  exists keywords,
    In (c, keywords) table
    /\ matched_keywords keywords t <> []
    /\ s = keyword_score keywords t.
Proof.
  unfold scored_categories. rewrite in_map_iff. split.
  - intros ([c' kws] & [= <- <-] & Hin). apply filter_In in Hin.
    destruct Hin as [Hin Hm]. simpl in Hm. exists kws. split; [exact Hin|].
    split; [|reflexivity]. intros E. rewrite E in Hm. discriminate.
  - intros (kws & Hin & Hm & ->). exists (c, kws). split; [reflexivity|].
    apply filter_In. split; [exact Hin|]. simpl.
    destruct (matched_keywords kws t); [congruence|reflexivity].
Qed.

(** A score that is stored is a float other than NaN, and not negative. *)
Lemma scored_sign (table : list (string * list string)) (t c : string)
  (s : float) :
  In (c, s) (scored_categories table t) ->
  is_nan s = false /\ leb zero s = true.
Proof.
  intros Hin. apply scored_In in Hin. destruct Hin as (kws & _ & Hm & ->).
  unfold keyword_score. apply true_div_nonneg.
  - apply total_word_count_nonneg.
  - destruct kws as [|k kws]; [exfalso; apply Hm; reflexivity|].
    simpl length. lia.
Qed.

Lemma scored_nonempty (t c : string) :
  keyword_score_of c t <> zero -> scored_categories WASTE_CATEGORIES t <> [].
Proof.
  unfold keyword_score_of. intros Hs.
  destruct (keywords_of WASTE_CATEGORIES c) as [kws|] eqn:Ek; [|congruence].
  destruct (matched_keywords kws t) as [|m ms] eqn:Em; [congruence|].
  apply keywords_of_In in Ek. intros Hnil.
  assert (Hin : In (c, keyword_score kws t) (scored_categories WASTE_CATEGORIES t)).
  { apply scored_In. exists kws. split; [exact Ek|].
    split; [rewrite Em; discriminate|reflexivity]. }
  rewrite Hnil in Hin. destruct Hin.
Qed.

(** The best keyword category beats every category of the table. *)
Lemma first_max_scored (t kcat : string) (ks : float) :
  is_first_max snd (scored_categories WASTE_CATEGORIES t) (kcat, ks) ->
  ks = keyword_score_of kcat t
  /\ forall c, leb (keyword_score_of c t) ks = true.
Proof.
  intros (pre & post & E & Hpre & Hpost).
  assert (Hin : In (kcat, ks) (scored_categories WASTE_CATEGORIES t))
    by (rewrite E; apply in_or_app; right; left; reflexivity).
  destruct (scored_sign _ _ _ _ Hin) as [Hnan Hpos].
  apply scored_In in Hin. destruct Hin as (kws & Hk & Hm & Hks).
  assert (Hself : ks = keyword_score_of kcat t).
  { unfold keyword_score_of.
    rewrite (In_keywords_of _ _ _ WASTE_CATEGORIES_NoDup Hk).
    destruct (matched_keywords kws t); [congruence|exact Hks]. }
  split; [exact Hself|].
  intros c. unfold keyword_score_of.
  destruct (keywords_of WASTE_CATEGORIES c) as [kws'|] eqn:Ek; [|exact Hpos].
  destruct (matched_keywords kws' t) as [|m ms] eqn:Em; [exact Hpos|].
  apply keywords_of_In in Ek.
  assert (Hin' : In (c, keyword_score kws' t) (scored_categories WASTE_CATEGORIES t)).
  { apply scored_In. exists kws'. split; [exact Ek|].
    split; [rewrite Em; discriminate|reflexivity]. }
  rewrite E in Hin'. apply in_app_or in Hin'.
  rewrite List.Forall_forall in Hpre, Hpost.
  destruct Hin' as [Hin'|[Heq|Hin']].
  - apply ltb_leb. exact (Hpre _ Hin').
  - apply (f_equal snd) in Heq. simpl in Heq. rewrite <- Heq.
    apply leb_refl, Hnan.
  - exact (Hpost _ Hin').
Qed.

Lemma scored_first_max (t : string) :
  scored_categories WASTE_CATEGORIES t <> [] ->
  exists best,
    max_by snd (scored_categories WASTE_CATEGORIES t) = Some best
    /\ is_first_max snd (scored_categories WASTE_CATEGORIES t) best.
Proof.
  intros Hne. apply max_by_exists; [exact Hne|].
  apply List.Forall_forall. intros [c s] Hin.
  exact (proj1 (scored_sign _ _ _ _ Hin)).
Qed.

(** ** Classification *)

Lemma semantic_scores_length
  (cosine : Embedding -> Embedding -> option float)
  (e : Embedding) (embeddings : list (string * Embedding)) :
  forall scores,
    semantic_scores_over cosine e embeddings = Some scores ->
    length scores = length embeddings.
Proof.
  induction embeddings as [|[c' e'] embeddings IH]; intros scores; simpl.
  - intros [= <-]. reflexivity.
  - destruct (cosine e e') as [s'|]; [|discriminate].
    destruct (semantic_scores_over cosine e embeddings) as [rest|];
      [|discriminate].
    intros [= <-]. simpl. rewrite (IH rest eq_refl). reflexivity.
Qed.

(** What [classify_waste_type] does once the semantic stage has answered. *)
Lemma classify_after_scores
  (cosine : Embedding -> Embedding -> option float)
  (self : AIService) (text : string) (scores : list (string * float))
  (category : string) (confidence : float) :
  semantic_scores cosine self text = Some scores ->
  is_first_max snd scores (category, confidence) ->
  classify_waste_type cosine self text
  = Return
      (if leb (decimal 50 2) confidence then
         (category,
          round
            (min (add confidence
                    (mul (keyword_score_of category (lower text))
                       (decimal 2 1))) one) 2)
       else
         match max_by snd (scored_categories WASTE_CATEGORIES (lower text)) with
         | Some best =>
             (fst best,
              round
                (if String.eqb category (fst best)
                 then min (add (min (mul (snd best) (of_int 2)) one)
                             (mul confidence (decimal 3 1))) one
                 else min (mul (snd best) (of_int 2)) one) 2)
         | None => (category, round confidence 2)
         end).
Proof.
  unfold semantic_scores. intros Hs Hmax.
  destruct (model self) as [encode|] eqn:Em; [|discriminate].
  destruct (encode text) as [e|] eqn:Ee; [|discriminate].
  pose proof (semantic_scores_length _ _ _ _ Hs) as Hlen.
  unfold classify_waste_type. rewrite Em.
  destruct (category_embeddings self) as [|ce rest] eqn:Ec.
  - destruct Hmax as (pre & post & -> & _). rewrite length_app in Hlen.
    simpl in Hlen. lia.
  - unfold classify_try. rewrite Ee, Hs, (max_by_is_first_max _ _ _ Hmax).
    cbn [fst snd]. rewrite dict_get_score_of, keyword_scores_scored.
    destruct (leb (decimal 50 2) confidence); [reflexivity|].
    destruct (max_by snd (scored_categories WASTE_CATEGORIES (lower text)));
      reflexivity.
Qed.

(** C3. Whenever the largest cosine similarity between the text and the
    category references is at least 0.50, [classify_waste_type] returns the
    arg-max category (the first one on a tie), with confidence
    [min(semantic_confidence + keyword_score * 0.2, 1.0)] rounded to two
    decimals, the keyword score of a category without a match being 0;
    sum, product and rounding are those of binary64 floats. *)
Theorem classify_semantic_primary
  (cosine : Embedding -> Embedding -> option float) (self : AIService)
  (text : string) (scores : list (string * float))
  (semantic_category : string) (semantic_confidence : float) :
  semantic_scores cosine self text = Some scores ->
  is_first_max snd scores (semantic_category, semantic_confidence) ->
  leb (decimal 50 2) semantic_confidence = true ->
  classify_waste_type cosine self text
  = Return
      (semantic_category,
       round
         (min (add semantic_confidence
                 (mul (keyword_score_of semantic_category (lower text))
                    (decimal 2 1)))
            one) 2).
Proof.
  intros Hs Hmax Hc.
  rewrite (classify_after_scores _ _ _ _ _ _ Hs Hmax), Hc. reflexivity.
Qed.

(** C4. When the largest cosine similarity is below 0.50 and some category
    has a nonzero keyword score, [classify_waste_type] returns the
    best-scoring keyword category (the first one on a tie) with confidence
    [min(score * 2, 1.0)], to which [semantic_confidence * 0.3] is added,
    capped at 1.0, only if that category is the semantic winner; the
    result is rounded to two decimals.  Sums, products and rounding are
    those of binary64 floats. *)
Theorem classify_keyword_primary
  (cosine : Embedding -> Embedding -> option float) (self : AIService)
  (text : string) (scores : list (string * float))
  (semantic_category : string) (semantic_confidence : float) :
  semantic_scores cosine self text = Some scores ->
  is_first_max snd scores (semantic_category, semantic_confidence) ->
  ltb semantic_confidence (decimal 50 2) = true ->
  (exists c, keyword_score_of c (lower text) <> zero) ->
  exists keyword_category score,
    is_first_max snd (scored_categories WASTE_CATEGORIES (lower text))
      (keyword_category, score)
    /\ score = keyword_score_of keyword_category (lower text)
    /\ (forall c, leb (keyword_score_of c (lower text)) score = true)
    /\ classify_waste_type cosine self text
       = Return
           (keyword_category,
            round
              (if String.eqb semantic_category keyword_category
               then min (add (min (mul score (of_int 2)) one)
                           (mul semantic_confidence (decimal 3 1))) one
               else min (mul score (of_int 2)) one) 2).
Proof.
  intros Hs Hmax Hc [c Hany].
  apply scored_nonempty in Hany.
  destruct (scored_first_max _ Hany) as ([kcat ks] & Hk & Hkmax).
  exists kcat, ks.
  destruct (first_max_scored _ _ _ Hkmax) as [Hself Hbest].
  split; [exact Hkmax|]. split; [exact Hself|]. split; [exact Hbest|].
  rewrite (classify_after_scores _ _ _ _ _ _ Hs Hmax).
  rewrite (ltb_not_leb _ _ Hc), Hk. reflexivity.
Qed.

Lemma classify_semantic_primary_witness :
  classify_waste_type cosine_of_unit_vectors two_axis_service
    "Broken glass and a bottle"
  = Return ("glass", decimal 89 2).
Proof.
  rewrite (classify_semantic_primary cosine_of_unit_vectors two_axis_service
             "Broken glass and a bottle"
             [("plastic", decimal 6 1); ("glass", decimal 8 1)]
             "glass" (decimal 8 1)).
  - reflexivity.
  - reflexivity.
  - exists [("plastic", decimal 6 1)], []. split; [reflexivity|].
    split; repeat constructor.
  - reflexivity.
Defined.

Lemma classify_keyword_primary_witness :
  exists keyword_category score,
    classify_waste_type cosine_of_unit_vectors weak_service
      "A plastic bag on the road"
    = Return
        (keyword_category,
         round
           (if String.eqb "plastic" keyword_category
            then min (add (min (mul score (of_int 2)) one)
                        (mul (of_Q (5 # 13)) (decimal 3 1))) one
            else min (mul score (of_int 2)) one) 2).
Proof.
  destruct (classify_keyword_primary cosine_of_unit_vectors weak_service
              "A plastic bag on the road"
              [("plastic", of_Q (5 # 13)); ("glass", zero)] "plastic"
              (of_Q (5 # 13)))
    as (kc & score & _ & _ & _ & H).
  - reflexivity.
  - exists [], [("glass", zero)]. split; [reflexivity|].
    split; repeat constructor.
  - reflexivity.
  - exists "plastic". vm_compute. discriminate.
  - exists kc, score. exact H.
Defined.

(** The sums are those of the floats: at similarity 0.5 the text "mixed"
    gets [0.5 + 0.125 * 0.2], which lies above 0.525 and is rounded to
    0.53; at similarity 0.25 it gets [0.25 + 0.25 * 0.3], which lies above
    0.325 and is rounded to 0.33. *)
Lemma mixed_at_half :
  classify_waste_type (constant_similarity (decimal 5 1)) mixed_service "mixed"
  = Return ("mixed", decimal 53 2).
Proof. vm_compute. reflexivity. Qed.

Lemma mixed_at_quarter :
  classify_waste_type (constant_similarity (decimal 25 2)) mixed_service
    "mixed"
  = Return ("mixed", decimal 33 2).
Proof. vm_compute. reflexivity. Qed.

End AI64Proofs.

(* ================================================================== *)
(** * Anomalies and trends on binary64 floats *)
(* ================================================================== *)

Module Analytics64Proofs.
Import Py Spec Examples PyFacts.
Import SpecFloat Binary64 Analytics64 AnalyticsSpec64 Binary64Facts.

(** ** detect_anomalies *)

(** The function, with the mean named as in the specification. *)
Lemma anomalies_unfold (rows : list (string * Z)) (m : float) :
  rows <> [] ->
  detect_anomalies rows m
  = map
      (fun row =>
         {| location := fst row;
            count := snd row;
            mean := round (mean_of (map snd rows)) 2;
            threshold := round (mul (mean_of (map snd rows)) m) 2;
            severity :=
              if lt_int (mul (mul (mean_of (map snd rows)) m) (decimal 15 1))
                   (snd row)
              then high else medium |})
      (List.filter
         (fun row => ltb (mul (mean_of (map snd rows)) m) (of_int (snd row)))
         rows).
Proof.
  intros Hne. unfold detect_anomalies.
  destruct rows as [|row rows]; [congruence|].
  cbv zeta. rewrite AnalyticsProofs.sum_total. reflexivity.
Qed.

Lemma location_rows_mean64 :
  mean_of (map snd location_rows) = decimal 1375 2.
Proof. vm_compute. reflexivity. Qed.

Lemma location_rows_anomalies64 :
  detect_anomalies location_rows (of_int 2)
  = [ {| location := "D"; count := 40; mean := decimal 1375 2;
         threshold := decimal 275 1; severity := medium |} ].
Proof. vm_compute. reflexivity. Qed.

(** C8. In [detect_anomalies] the mean is the arithmetic mean of the
    counts per location and the threshold is the mean times the
    multiplier, both as binary64 floats; a location is reported exactly
    when its count exceeds the threshold, with the mean and the threshold
    rounded to two decimals, and with severity high exactly when the count
    exceeds 1.5 times the threshold and medium otherwise; without
    locations the result is empty; for the counts A:5, B:5, C:5, D:40 and
    multiplier 2 the mean is 13.75, the threshold 27.5, and only D is
    reported, with severity medium as 1.5 times the threshold is 41.25. *)
Theorem detect_anomalies_spec (rows : list (string * Z)) (multiplier : float) :
  detect_anomalies [] multiplier = []
  /\ (rows <> [] ->
      let mean_ := mean_of (map snd rows) in
      let threshold_ := mul mean_ multiplier in
      (forall loc c,
          (exists a,
              In a (detect_anomalies rows multiplier)
              /\ location a = loc /\ count a = c)
          <-> In (loc, c) rows /\ ltb threshold_ (of_int c) = true)
      /\ (forall a,
             In a (detect_anomalies rows multiplier) ->
             mean a = round mean_ 2
             /\ threshold a = round threshold_ 2
             /\ (severity a = high
                 <-> lt_int (mul threshold_ (decimal 15 1)) (count a) = true)
             /\ (severity a = medium
                 <-> lt_int (mul threshold_ (decimal 15 1)) (count a)
                     = false)))
  /\ mean_of (map snd location_rows) = decimal 1375 2
  /\ mul (mean_of (map snd location_rows)) (of_int 2) = decimal 275 1
  /\ mul (decimal 275 1) (decimal 15 1) = decimal 4125 2
  /\ lt_int (decimal 4125 2) 40 = false
  /\ detect_anomalies location_rows (of_int 2)
     = [ {| location := "D"; count := 40; mean := decimal 1375 2;
            threshold := decimal 275 1; severity := medium |} ].
Proof.
  split; [reflexivity|]. split.
  - intros Hne mean_ threshold_.
    rewrite (anomalies_unfold rows multiplier Hne).
    fold mean_. fold threshold_. split.
    + intros loc c. split.
      * intros (a & Ha & <- & <-). apply in_map_iff in Ha.
        destruct Ha as ([l k] & <- & Hrow). apply filter_In in Hrow.
        simpl in *. tauto.
      * intros [Hrow Hlt]. eexists. split.
        -- apply in_map_iff. exists (loc, c). split; [reflexivity|].
           apply filter_In. split; [exact Hrow|exact Hlt].
        -- split; reflexivity.
    + intros a Ha. apply in_map_iff in Ha.
      destruct Ha as ([l k] & <- & _). cbn [mean threshold severity count snd].
      split; [reflexivity|]. split; [reflexivity|].
      destruct (lt_int (mul threshold_ (decimal 15 1)) k);
        split; split; congruence.
  - split; [exact location_rows_mean64|].
    split; [vm_compute; reflexivity|].
    split; [vm_compute; reflexivity|].
    split; [vm_compute; reflexivity|exact location_rows_anomalies64].
Qed.

Lemma detect_anomalies_spec_witness :
  exists a,
    In a (detect_anomalies location_rows (of_int 2))
    /\ location a = "D" /\ count a = 40%Z.
Proof.
  destruct (detect_anomalies_spec location_rows (of_int 2))
    as (_ & H & _).
  destruct (H ltac:(discriminate)) as [Hiff _].
  apply (proj2 (Hiff "D" 40%Z)). split.
  - simpl. tauto.
  - vm_compute. reflexivity.
Defined.

(** The reported mean is the rounding of the float: 43 incidents over 40
    locations have the mean 1.075 as a number, the float below it, and
    the report reads 1.07. *)
Lemma mean_43_over_40 :
  round (true_div 43 40) 2 = decimal 107 2.
Proof. vm_compute. reflexivity. Qed.

(** ** analyze_trends *)

Section Trends.

Context (current_counts previous_counts : gmap string Z).

Local Abbreviation step := (trend_step current_counts previous_counts).

Lemma step_join (acc : Buckets) (wt : string) :
  step acc wt = join_buckets acc (step empty_buckets wt).
Proof.
  unfold trend_step, join_buckets.
  destruct ((default 0%Z (previous_counts !! wt) =? 0)%Z
            && (0 <? default 0%Z (current_counts !! wt))%Z);
    [simpl; rewrite !app_nil_r; reflexivity|].
  destruct (0 <? default 0%Z (previous_counts !! wt))%Z;
    [|simpl; rewrite !app_nil_r; destruct acc; reflexivity].
  destruct (gt_int _ 20); [simpl; rewrite !app_nil_r; reflexivity|].
  destruct (lt_int _ (-20)); simpl; rewrite !app_nil_r; reflexivity.
Qed.

Lemma fold_join (wts : list string) :
  forall acc,
    fold_left step wts acc
    = join_buckets acc (fold_left step wts empty_buckets).
Proof.
  induction wts as [|wt wts IH]; intros acc; simpl.
  - unfold join_buckets. simpl. rewrite !app_nil_r. destruct acc; reflexivity.
  - rewrite IH, (IH (step empty_buckets wt)), step_join.
    unfold join_buckets. simpl. rewrite !app_assoc. reflexivity.
Qed.

(** A record is in a bucket after the loop exactly when one iteration put
    it there. *)
Lemma fold_In {B : Type} (proj : Buckets -> list B)
  (Hproj : forall a b, proj (join_buckets a b) = (proj a ++ proj b)%list)
  (wts : list string) (x : B) :
  In x (proj (fold_left step wts empty_buckets))
  <-> exists wt, In wt wts /\ In x (proj (step empty_buckets wt)).
Proof.
  induction wts as [|wt wts IH]; simpl.
  - assert (Hnil : proj empty_buckets = []).
    { pose proof (Hproj empty_buckets empty_buckets) as H.
      apply (f_equal (@length B)) in H. rewrite length_app in H.
      change (join_buckets empty_buckets empty_buckets) with empty_buckets in H.
      destruct (proj empty_buckets); [reflexivity|simpl in H; lia]. }
    rewrite Hnil. split; [intros []|intros (wt & [] & _)].
  - rewrite fold_join, Hproj, in_app_iff, IH. split.
    + intros [H|(wt' & Hin & H)]; [exists wt; tauto|exists wt'; tauto].
    + intros (wt' & [<-|Hin] & H); [left; exact H|right; exists wt'; tauto].
Qed.

End Trends.

(** The value of the absolute value. *)
Lemma to_Q_abs (s : bool) (m : positive) (e : Z) :
  (to_Q (abs (S754_finite s m e))
   == if s then - to_Q (S754_finite s m e) else to_Q (S754_finite s m e))%Q.
Proof.
  destruct s; [|reflexivity]. unfold abs, SFabs, to_Q.
  destruct e as [|p|p]; cbn [cond_Zopp]; unfold Qeq, Qopp, inject_Z;
    cbn [Qnum Qden]; lia.
Qed.

Lemma to_Q_sign (s : bool) (m : positive) (e : Z) :
  if s then (to_Q (S754_finite s m e) < 0)%Q
  else (0 < to_Q (S754_finite s m e))%Q.
Proof.
  unfold to_Q.
  destruct s, e as [|p|p]; cbn [cond_Zopp]; unfold Qlt, inject_Z;
    cbn [Qnum Qden]; lia.
Qed.

Lemma gt_int_finite (s : bool) (m : positive) (e : Z) (z : Z) :
  gt_int (S754_finite s m e) z = true
  <-> (inject_Z z < to_Q (S754_finite s m e))%Q.
Proof.
  unfold gt_int, compare_int. rewrite Qlt_alt.
  rewrite <- (Qcompare_antisym (inject_Z z) (to_Q (S754_finite s m e))).
  destruct (inject_Z z ?= to_Q (S754_finite s m e))%Q;
    simpl; split; congruence.
Qed.

Lemma lt_int_finite (s : bool) (m : positive) (e : Z) (z : Z) :
  lt_int (S754_finite s m e) z = true
  <-> (to_Q (S754_finite s m e) < inject_Z z)%Q.
Proof.
  unfold lt_int, compare_int. rewrite Qlt_alt.
  destruct (to_Q (S754_finite s m e) ?= inject_Z z)%Q;
    simpl; split; congruence.
Qed.

(** Above 20 the absolute value exceeds 50 when the change does; below
    -20 it exceeds 50 when the change is below -50. *)
Lemma severity_rising (change : float) :
  gt_int change 20 = true ->
  gt_int (abs change) 50 = gt_int change 50.
Proof.
  destruct change as [s|s| |s m e].
  - discriminate.
  - destruct s; [discriminate|reflexivity].
  - discriminate.
  - destruct s; [|reflexivity].
    rewrite gt_int_finite. intros H.
    pose proof (to_Q_sign true m e) as Hs. cbv iota in Hs.
    change (inject_Z 20) with (20 # 1)%Q in H. lra.
Qed.

Lemma severity_falling (change : float) :
  lt_int change (-20) = true ->
  gt_int (abs change) 50 = lt_int change (-50).
Proof.
  destruct change as [s|s| |s m e].
  - discriminate.
  - destruct s; [reflexivity|discriminate].
  - discriminate.
  - destruct s.
    + intros _.
      pose proof (to_Q_abs true m e) as Ha. cbv iota in Ha.
      change (abs (S754_finite true m e)) with (S754_finite false m e) in *.
      destruct (gt_int (S754_finite false m e) 50) eqn:E1;
        destruct (lt_int (S754_finite true m e) (-50)) eqn:E2;
        try reflexivity; exfalso.
      * apply gt_int_finite in E1.
        assert (H2 : ~ (to_Q (S754_finite true m e) < inject_Z (-50))%Q).
        { intros H. apply lt_int_finite in H. congruence. }
        apply H2. change (inject_Z (-50)) with (-50 # 1)%Q.
        change (inject_Z 50) with (50 # 1)%Q in E1.
        rewrite Ha in E1. lra.
      * apply lt_int_finite in E2.
        assert (H1 : ~ (inject_Z 50 < to_Q (S754_finite false m e))%Q).
        { intros H. apply gt_int_finite in H. congruence. }
        apply H1. change (inject_Z (-50)) with (-50 # 1)%Q in E2.
        change (inject_Z 50) with (50 # 1)%Q.
        rewrite Ha. lra.
    + rewrite lt_int_finite. intros H.
      pose proof (to_Q_sign false m e) as Hs. cbv iota in Hs.
      change (inject_Z (-20)) with (-20 # 1)%Q in H. lra.
Qed.

Section TrendRecords.

Context (current_counts previous_counts : gmap string Z).

Local Abbreviation step := (trend_step current_counts previous_counts).

(** The outcome of one iteration for a waste type seen in the previous
    window. *)
Lemma step_previous (wt : string) (current previous : Z) (t : Trend)
  (s : option Severity) :
  default 0%Z (current_counts !! wt) = current ->
  default 0%Z (previous_counts !! wt) = previous ->
  (0 < previous)%Z ->
  classify_change (change_percent current previous) = (t, s) ->
  step empty_buckets wt
  = single_bucket (trend_record wt current previous t s).
Proof.
  intros Hc Hp Hpos. unfold trend_step. rewrite Hc, Hp.
  replace (previous =? 0)%Z with false by (symmetry; apply Z.eqb_neq; lia).
  replace (0 <? previous)%Z with true by (symmetry; apply Z.ltb_lt; lia).
  cbn [andb]. fold (change_percent current previous).
  set (change := change_percent current previous).
  unfold classify_change.
  destruct (gt_int change 20) eqn:Hr.
  - rewrite (severity_rising change Hr). intros [= <- <-]. reflexivity.
  - destruct (lt_int change (-20)) eqn:Hf.
    + rewrite (severity_falling change Hf). intros [= <- <-]. reflexivity.
    + intros [= <- <-]. reflexivity.
Qed.

(** The outcome of one iteration for a waste type that is new. *)
Lemma step_fresh (wt : string) (current : Z) :
  default 0%Z (current_counts !! wt) = current ->
  default 0%Z (previous_counts !! wt) = 0%Z ->
  (0 < current)%Z ->
  step empty_buckets wt
  = {| b_rising := []; b_falling := []; b_stable := [];
       b_new := [ {| Analytics.new_waste_type := wt;
                     Analytics.new_count := current;
                     Analytics.new_trend := new |} ] |}.
Proof.
  intros Hc Hp Hpos. unfold trend_step. rewrite Hc, Hp.
  replace (0 <? current)%Z with true by (symmetry; apply Z.ltb_lt; lia).
  reflexivity.
Qed.

(** Every record made by an iteration carries the waste type visited. *)
Lemma step_type (wt : string) :
  Forall (fun item => waste_type item = wt) (b_rising (step empty_buckets wt))
  /\ Forall (fun item => waste_type item = wt) (b_falling (step empty_buckets wt))
  /\ Forall (fun item => waste_type item = wt) (b_stable (step empty_buckets wt))
  /\ Forall (fun n => Analytics.new_waste_type n = wt)
       (b_new (step empty_buckets wt)).
Proof.
  unfold trend_step.
  destruct ((default 0%Z (previous_counts !! wt) =? 0)%Z
            && (0 <? default 0%Z (current_counts !! wt))%Z);
    [simpl; repeat constructor|].
  destruct (0 <? default 0%Z (previous_counts !! wt))%Z;
    [|simpl; repeat constructor].
  destruct (gt_int _ 20); [simpl; repeat constructor|].
  destruct (lt_int _ (-20)); simpl; repeat constructor.
Qed.

End TrendRecords.

Section Reports.

Context {Spike : Type}.
Context (cur prev : gmap string Z) (spikes_ : list Spike) (days : Z).

Local Abbreviation report := (analyze_trends cur prev spikes_ days).

Lemma rising_In (item : TrendItem) :
  In item (rising_trends report)
  <-> exists wt,
        In wt (elements (dom cur ∪ dom prev))
        /\ In item (b_rising (trend_step cur prev empty_buckets wt)).
Proof.
  unfold analyze_trends. cbn [rising_trends].
  rewrite <- (fold_In cur prev b_rising (fun a b => eq_refl)).
  split; apply Permutation_in;
    [|symmetry]; apply sort_desc_by_perm.
Qed.

Lemma falling_In (item : TrendItem) :
  In item (falling_trends report)
  <-> exists wt,
        In wt (elements (dom cur ∪ dom prev))
        /\ In item (b_falling (trend_step cur prev empty_buckets wt)).
Proof.
  unfold analyze_trends. cbn [falling_trends].
  rewrite <- (fold_In cur prev b_falling (fun a b => eq_refl)).
  split; apply Permutation_in;
    [|symmetry]; apply sort_desc_by_perm.
Qed.

Lemma stable_In (item : TrendItem) :
  In item (stable_trends report)
  <-> exists wt,
        In wt (elements (dom cur ∪ dom prev))
        /\ In item (b_stable (trend_step cur prev empty_buckets wt)).
Proof.
  unfold analyze_trends. cbn [stable_trends].
  apply (fold_In cur prev b_stable (fun a b => eq_refl)).
Qed.

Lemma new_In (n : NewType) :
  In n (new_waste_types report)
  <-> exists wt,
        In wt (elements (dom cur ∪ dom prev))
        /\ In n (b_new (trend_step cur prev empty_buckets wt)).
Proof.
  unfold analyze_trends. cbn [new_waste_types].
  apply (fold_In cur prev b_new (fun a b => eq_refl)).
Qed.

(** Every record of the report for a waste type comes from the iteration
    that visited it. *)
Lemma item_origin (item : TrendItem) :
  In item (rising_trends report ++ falling_trends report
           ++ stable_trends report)%list ->
  In item
    (b_rising (trend_step cur prev empty_buckets (waste_type item))
     ++ b_falling (trend_step cur prev empty_buckets (waste_type item))
     ++ b_stable (trend_step cur prev empty_buckets (waste_type item)))%list.
Proof.
  intros Hin.
  rewrite !in_app_iff in Hin. rewrite !in_app_iff.
  destruct Hin as [H|[H|H]];
    [apply rising_In in H|apply falling_In in H|apply stable_In in H];
    destruct H as (wt & _ & H);
    destruct (step_type cur prev wt) as (Hr & Hf & Hs & _);
    rewrite List.Forall_forall in Hr, Hf, Hs.
  - left. rewrite (Hr item H). exact H.
  - right. left. rewrite (Hf item H). exact H.
  - right. right. rewrite (Hs item H). exact H.
Qed.

Lemma new_origin (n : NewType) :
  In n (new_waste_types report) ->
  In n (b_new (trend_step cur prev empty_buckets (Analytics.new_waste_type n))).
Proof.
  intros H. apply new_In in H. destruct H as (wt & _ & H).
  destruct (step_type cur prev wt) as (_ & _ & _ & Hn).
  rewrite List.Forall_forall in Hn. rewrite (Hn n H). exact H.
Qed.

Lemma single_bucket_item (item item' : TrendItem) :
  In item' (b_rising (single_bucket item) ++ b_falling (single_bucket item)
            ++ b_stable (single_bucket item))%list ->
  item' = item.
Proof.
  unfold single_bucket, empty_buckets.
  destruct (trend item); simpl; intuition congruence.
Qed.

Lemma classify_change_trend (change : float) :
  fst (classify_change change) <> new.
Proof.
  unfold classify_change.
  destruct (gt_int change 20); [discriminate|].
  destruct (lt_int change (-20)); discriminate.
Qed.

(** The records of a waste type seen in the previous window. *)
Lemma seen_before (wt : string) (current previous : Z) (t : Trend)
  (s : option Severity) :
  default 0%Z (cur !! wt) = current ->
  default 0%Z (prev !! wt) = previous ->
  (0 < previous)%Z ->
  classify_change (change_percent current previous) = (t, s) ->
  In (trend_record wt current previous t s) (trends_of t report)
  /\ (forall item',
         waste_type item' = wt ->
         In item' (rising_trends report ++ falling_trends report
                   ++ stable_trends report)%list ->
         item' = trend_record wt current previous t s)
  /\ (forall n,
         In n (new_waste_types report) -> Analytics.new_waste_type n <> wt).
Proof.
  intros Hc Hp Hpos Hcc.
  pose proof (step_previous cur prev wt current previous t s Hc Hp Hpos Hcc)
    as Hstep.
  assert (Hvisit : In wt (elements (dom cur ∪ dom prev)))
    by (apply AnalyticsProofs.visited; left; rewrite Hp; exact Hpos).
  assert (Ht : t <> new).
  { pose proof (classify_change_trend (change_percent current previous)) as H.
    rewrite Hcc in H. exact H. }
  set (item := trend_record wt current previous t s) in *.
  assert (Hself : trend item = t) by reflexivity.
  split; [|split].
  - destruct t; [| | |congruence]; cbn [trends_of].
    + apply rising_In. exists wt. split; [exact Hvisit|].
      rewrite Hstep. unfold single_bucket. rewrite Hself. left. reflexivity.
    + apply falling_In. exists wt. split; [exact Hvisit|].
      rewrite Hstep. unfold single_bucket. rewrite Hself. left. reflexivity.
    + apply stable_In. exists wt. split; [exact Hvisit|].
      rewrite Hstep. unfold single_bucket. rewrite Hself. left. reflexivity.
  - intros item' <- Hin. apply item_origin in Hin.
    rewrite Hstep in Hin. apply single_bucket_item, Hin.
  - intros n Hn Hwt. apply new_origin in Hn. rewrite Hwt, Hstep in Hn.
    unfold single_bucket, empty_buckets in Hn. rewrite Hself in Hn.
    destruct t; simpl in Hn; tauto.
Qed.

(** The record of a waste type that is new. *)
Lemma new_type (wt : string) (current : Z) :
  default 0%Z (cur !! wt) = current ->
  default 0%Z (prev !! wt) = 0%Z ->
  (0 < current)%Z ->
  In {| Analytics.new_waste_type := wt; Analytics.new_count := current;
        Analytics.new_trend := new |}
     (new_waste_types report)
  /\ (forall item,
         In item (rising_trends report ++ falling_trends report
                  ++ stable_trends report)%list ->
         waste_type item <> wt).
Proof.
  intros Hc Hp Hpos.
  pose proof (step_fresh cur prev wt current Hc Hp Hpos) as Hstep.
  split.
  - apply new_In. exists wt.
    split; [apply AnalyticsProofs.visited; right; rewrite Hc; exact Hpos|].
    rewrite Hstep. left. reflexivity.
  - intros item Hin Hwt. apply item_origin in Hin.
    rewrite Hwt, Hstep in Hin. simpl in Hin. exact Hin.
Qed.

End Reports.

(** C6, as amended.  In [analyze_trends], for every category whose count
    in the previous window is positive, the change is
    [(current - previous) / previous * 100] as a binary64 float and the
    record reports it rounded to one decimal; on the change itself the
    trend is rising above 20, falling below -20 and stable otherwise; a
    rising or falling record has severity high exactly when the change
    exceeds 50 in absolute value and medium otherwise, and a stable record
    carries no severity.  A category with no previous count and a positive
    current count is reported as new, with no percentage.  With previous
    100 and current 125 the record reads 25.0, rising, medium; with
    current 170 it reads 70.0, rising, high. *)
Theorem analyze_trends_spec {Spike : Type}
  (current_counts previous_counts : gmap string Z)
  (spikes_ : list Spike) (days : Z) (wt : string) (current previous : Z) :
  let report := analyze_trends current_counts previous_counts spikes_ days in
  default 0%Z (current_counts !! wt) = current ->
  default 0%Z (previous_counts !! wt) = previous ->
  ((0 < previous)%Z ->
   forall t s,
     classify_change (change_percent current previous) = (t, s) ->
     let item := trend_record wt current previous t s in
     In item (trends_of t report)
     /\ (forall item',
            waste_type item' = wt ->
            In item' (rising_trends report ++ falling_trends report
                      ++ stable_trends report)%list ->
            item' = item)
     /\ (forall n,
            In n (new_waste_types report) ->
            Analytics.new_waste_type n <> wt))
  /\ (previous = 0%Z -> (0 < current)%Z ->
      In {| Analytics.new_waste_type := wt; Analytics.new_count := current;
            Analytics.new_trend := new |}
         (new_waste_types report)
      /\ (forall item,
             In item (rising_trends report ++ falling_trends report
                      ++ stable_trends report)%list ->
             waste_type item <> wt))
  /\ (current = 125%Z -> previous = 100%Z ->
      In {| waste_type := wt; current_count := 125; previous_count := 100;
            change_percentage := decimal 250 1; change_absolute := 25;
            trend := rising; trend_severity := Some medium |}
         (rising_trends report))
  /\ (current = 170%Z -> previous = 100%Z ->
      In {| waste_type := wt; current_count := 170; previous_count := 100;
            change_percentage := decimal 700 1; change_absolute := 70;
            trend := rising; trend_severity := Some high |}
         (rising_trends report)).
Proof.
  intros report Hc Hp. split; [|split; [|split]].
  - intros Hpos t s Hcc. apply seen_before; assumption.
  - intros Hzero Hpos. apply new_type; [exact Hc|congruence|exact Hpos].
  - intros -> ->.
    destruct (seen_before current_counts previous_counts spikes_ days wt
                125 100 rising (Some medium) Hc Hp) as [H _];
      [lia|vm_compute; reflexivity|].
    exact H.
  - intros -> ->.
    destruct (seen_before current_counts previous_counts spikes_ days wt
                170 100 rising (Some high) Hc Hp) as [H _];
      [lia|vm_compute; reflexivity|].
    exact H.
Qed.

Lemma analyze_trends_spec_witness :
  In {| waste_type := "plastic"; current_count := 125; previous_count := 100;
        change_percentage := decimal 250 1; change_absolute := 25;
        trend := rising; trend_severity := Some medium |}
     (rising_trends
        (analyze_trends {[ "plastic" := 125%Z ]} {[ "plastic" := 100%Z ]}
           (@nil unit) 30))
  /\ In {| Analytics.new_waste_type := "glass"; Analytics.new_count := 3;
           Analytics.new_trend := new |}
        (new_waste_types
           (analyze_trends {[ "glass" := 3%Z ]} {[ "plastic" := 100%Z ]}
              (@nil unit) 30)).
Proof.
  split.
  - destruct (analyze_trends_spec {[ "plastic" := 125%Z ]}
                {[ "plastic" := 100%Z ]} (@nil unit) 30 "plastic" 125 100)
      as (_ & _ & H & _); [reflexivity|reflexivity|].
    apply H; reflexivity.
  - destruct (analyze_trends_spec {[ "glass" := 3%Z ]}
                {[ "plastic" := 100%Z ]} (@nil unit) 30 "glass" 3 0)
      as (_ & H & _); [reflexivity|reflexivity|].
    apply H; [reflexivity|lia].
Defined.

(** The percentage is computed on floats: previous 80 and current 103
    give [23 / 80 * 100], the float below 28.75, which is reported as
    28.7. *)
Lemma change_103_over_80 :
  round (change_percent 103 80) 1 = decimal 287 1.
Proof. vm_compute. reflexivity. Qed.

(** C6, as stated, fails twice: a stable record carries no severity, where
    the claim gives it medium (previous 100, current 110); and the
    reported percentage is rounded, so that previous 3 and current 4 are
    reported as 33.3, which is not [(4 - 3) / 3 * 100]. *)
Lemma stable_without_severity_and_rounded_change :
  (exists item,
      In item
        (stable_trends
           (analyze_trends {[ "plastic" := 110%Z ]} {[ "plastic" := 100%Z ]}
              (@nil unit) 30))
      /\ waste_type item = "plastic"
      /\ trend item = stable
      /\ trend_severity item = None
      /\ trend_severity item <> Some medium)
  /\ (exists item,
         In item
           (rising_trends
              (analyze_trends {[ "paper" := 4%Z ]} {[ "paper" := 3%Z ]}
                 (@nil unit) 30))
         /\ waste_type item = "paper"
         /\ change_percentage item = decimal 333 1
         /\ change_percentage item <> change_percent 4 3).
Proof.
  split.
  - destruct (seen_before {[ "plastic" := 110%Z ]}
                {[ "plastic" := 100%Z ]} (@nil unit) 30 "plastic" 110 100
                stable None) as [H _];
      [reflexivity|reflexivity|lia|vm_compute; reflexivity|].
    eexists. split; [exact H|]. repeat split. discriminate.
  - destruct (seen_before {[ "paper" := 4%Z ]}
                {[ "paper" := 3%Z ]} (@nil unit) 30 "paper" 4 3
                rising (Some medium)) as [H _];
      [reflexivity|reflexivity|lia|vm_compute; reflexivity|].
    eexists. split; [exact H|]. split; [reflexivity|].
    split; [vm_compute; reflexivity|vm_compute; discriminate].
Qed.

End Analytics64Proofs.

(* ================================================================== *)
(** * Further properties of the AI service *)
(* ================================================================== *)

Module AIExtra.
Import Py AI Spec Examples PyFacts AIProofs.
Local Open Scope Q_scope.

(** ** Rounding is monotone *)

Lemma round_half_even_mono (q q' : Q) :
  q <= q' -> (round_half_even q <= round_half_even q')%Z.
Proof.
  intros H.
  pose proof (Qfloor_resp_le _ _ H) as Hf.
  pose proof (round_half_even_range q) as [_ Hq].
  pose proof (round_half_even_range q') as [Hq' _].
  destruct (Z.eq_dec (Qfloor q) (Qfloor q')) as [E|E]; [|lia].
  unfold round_half_even. rewrite <- E.
  destruct (Qcompare_spec (q - inject_Z (Qfloor q)) (1 # 2));
    destruct (Qcompare_spec (q' - inject_Z (Qfloor q)) (1 # 2));
    try (destruct (Z.even (Qfloor q))); try lia; exfalso; lra.
Qed.

Lemma round_mono (q q' : Q) (n : nat) : q <= q' -> round q n <= round q' n.
Proof.
  intros H. unfold round. rewrite !Qred_correct.
  assert (Hm : (round_half_even (q * inject_Z (Zpos (pow10 n)))
                <= round_half_even (q' * inject_Z (Zpos (pow10 n))))%Z).
  { apply round_half_even_mono. apply Qmult_le_compat_r; [exact H|].
    unfold Qle. simpl. lia. }
  unfold Qle. simpl. nia.
Qed.

(** ** The remaining paths of [classify_waste_type] *)

(** X1. When the largest cosine similarity is below 0.50 and no keyword of
    any category occurs in the text, [classify_waste_type] passes the
    semantic winner through with its similarity rounded to two decimals. *)
Theorem classify_low_confidence
  (cosine : Embedding -> Embedding -> option Q) (self : AIService)
  (text : string) (scores : list (string * Q))
  (semantic_category : string) (semantic_confidence : Q) :
  semantic_scores cosine self text = Some scores ->
  is_first_max snd scores (semantic_category, semantic_confidence) ->
  semantic_confidence < 50 # 100 ->
  (forall c keywords k,
      In (c, keywords) WASTE_CATEGORIES -> In k keywords ->
      contains k (lower text) = false) ->
  classify_waste_type cosine self text
  = Return (semantic_category, round semantic_confidence 2).
Proof.
  intros Hs Hmax Hc Hno.
  rewrite (classify_after_semantic _ _ _ _ _ _ Hs Hmax).
  assert (Hb : Qle_bool (50 # 100) semantic_confidence = false).
  { destruct (Qle_bool (50 # 100) semantic_confidence) eqn:E; [|reflexivity].
    apply Qle_bool_iff in E. exfalso. exact (Qlt_not_le _ _ Hc E). }
  rewrite Hb, (scored_categories_empty _ Hno). reflexivity.
Qed.

Lemma no_keyword_in_hello :
  forall c keywords k,
    In (c, keywords) WASTE_CATEGORIES -> In k keywords ->
    contains k (lower "hello there") = false.
Proof.
  intros c keywords k Hc Hk. simpl in Hc.
  repeat (destruct Hc as [[= <- <-]|Hc];
          [simpl in Hk;
           repeat (destruct Hk as [<-|Hk]; [reflexivity|]); destruct Hk|]).
  destruct Hc.
Qed.

Lemma classify_low_confidence_witness :
  classify_waste_type cosine_of_unit_vectors weak_service "hello there"
  = Return ("plastic", 19 # 50).
Proof.
  apply (classify_low_confidence cosine_of_unit_vectors weak_service
           "hello there" [("plastic", 5 # 13); ("glass", 0)] "plastic" (5 # 13)).
  - reflexivity.
  - exists [], [("glass", 0)]. split; [reflexivity|].
    split; repeat constructor. discriminate.
  - reflexivity.
  - exact no_keyword_in_hello.
Defined.

Lemma classify_uninitialized_raises
  (cosine : Embedding -> Embedding -> option Q) (self : AIService)
  (text : string) :
  model self = None \/ category_embeddings self = [] ->
  classify_waste_type cosine self text
  = Raise (RuntimeError "AI Service not initialized").
Proof.
  unfold classify_waste_type.
  intros [H|H]; rewrite H; [reflexivity|].
  destruct (model self); reflexivity.
Qed.

Lemma classify_initialized_returns
  (cosine : Embedding -> Embedding -> option Q) (self : AIService)
  (text : string) :
  model self <> None -> category_embeddings self <> [] ->
  exists answer, classify_waste_type cosine self text = Return answer.
Proof.
  unfold classify_waste_type. intros Hm Hc.
  destruct (model self) as [encode|]; [|congruence].
  destruct (category_embeddings self) as [|ce rest]; [congruence|].
  destruct (classify_try cosine encode (ce :: rest) text); eauto.
Qed.

Lemma semantic_scores_over_keys (cosine : Embedding -> Embedding -> option Q)
  (e : Embedding) (embeddings : list (string * Embedding)) :
  forall scores,
    semantic_scores_over cosine e embeddings = Some scores ->
    map fst scores = map fst embeddings.
Proof.
  induction embeddings as [|[c' e'] embeddings IH]; intros scores; simpl.
  - intros [= <-]. reflexivity.
  - destruct (cosine e e') as [s'|]; [|discriminate].
    destruct (semantic_scores_over cosine e embeddings) as [rest|]; [|discriminate].
    intros [= <-]. simpl. rewrite (IH rest eq_refl). reflexivity.
Qed.

Lemma semantic_scores_keys (cosine : Embedding -> Embedding -> option Q)
  (self : AIService) (text : string) (scores : list (string * Q)) :
  semantic_scores cosine self text = Some scores ->
  model self <> None
  /\ map fst scores = map fst (category_embeddings self).
Proof.
  unfold semantic_scores.
  destruct (model self) as [encode|]; [|discriminate].
  destruct (encode text) as [e|]; [|discriminate].
  intros H. split; [discriminate|].
  exact (semantic_scores_over_keys _ _ _ _ H).
Qed.

Lemma first_max_In {A : Type} (key : A -> Q) (xs : list A) (x : A) :
  is_first_max key xs x -> In x xs.
Proof.
  intros (pre & post & -> & _). apply in_or_app. right. left. reflexivity.
Qed.

Lemma max_by_In {A : Type} (key : A -> Q) (xs : list A) (x : A) :
  max_by key xs = Some x -> In x xs.
Proof.
  intros H.
  assert (Hne : xs <> []) by (intros E; rewrite E in H; discriminate).
  destruct (max_by_nonempty key xs Hne) as (y & Hy & Hmax).
  rewrite H in Hy. injection Hy as <-. exact (first_max_In _ _ _ Hmax).
Qed.

Lemma fallback_category (text : string) :
  _classify_by_keywords_only text = ("unclassified", 0)
  \/ In (fst (_classify_by_keywords_only text)) (map fst WASTE_CATEGORIES).
Proof.
  unfold _classify_by_keywords_only. rewrite keyword_scores_spec.
  destruct (max_by snd (scored_categories WASTE_CATEGORIES (lower text)))
    as [best|] eqn:E; [right|left; reflexivity].
  cbn [fst]. apply max_by_In in E.
  apply (scored_categories_keys WASTE_CATEGORIES (lower text)).
  apply in_map, E.
Qed.

(** X3. The category set is closed: whatever the encoder does, the
    category returned by [classify_waste_type] is one of the stored
    reference categories, one of the keyword categories, or
    ["unclassified"]; and ["unclassified"] is returned only with
    confidence 0 after a failure of the semantic stage. *)
Theorem classify_category_known
  (cosine : Embedding -> Embedding -> option Q) (self : AIService)
  (text category : string) (confidence : Q) :
  classify_waste_type cosine self text = Return (category, confidence) ->
  In category (map fst (category_embeddings self))
  \/ In category (map fst WASTE_CATEGORIES)
  \/ (category = "unclassified" /\ confidence = 0
      /\ semantic_scores cosine self text = None).
Proof.
  intros Hrun.
  assert (Hinit : model self <> None /\ category_embeddings self <> []).
  { unfold classify_waste_type in Hrun.
    destruct (model self); [|discriminate].
    destruct (category_embeddings self); [discriminate|].
    split; discriminate. }
  destruct Hinit as [Hm Hc].
  destruct (semantic_scores cosine self text) as [scores|] eqn:Hs.
  - destruct (semantic_scores_keys _ _ _ _ Hs) as [_ Hkeys].
    assert (Hne : scores <> []).
    { intros E. rewrite E in Hkeys. simpl in Hkeys.
      destruct (category_embeddings self); [congruence|discriminate]. }
    destruct (max_by_nonempty snd _ Hne) as ([sc s] & _ & Hfirst).
    rewrite (classify_after_semantic _ _ _ _ _ _ Hs Hfirst) in Hrun.
    assert (Hsc : In sc (map fst (category_embeddings self))).
    { rewrite <- Hkeys. apply (in_map fst _ _ (first_max_In _ _ _ Hfirst)). }
    destruct (Qle_bool (50 # 100) s);
      [injection Hrun as <- _; left; exact Hsc|].
    destruct (max_by snd (scored_categories WASTE_CATEGORIES (lower text)))
      as [best|] eqn:Ek; injection Hrun as <- _; [|left; exact Hsc].
    right. left. apply max_by_In in Ek.
    apply (scored_categories_keys WASTE_CATEGORIES (lower text)).
    apply in_map, Ek.
  - rewrite (classify_after_failure _ _ _ Hm Hc Hs) in Hrun.
    injection Hrun as Hrun.
    destruct (fallback_category text) as [E|Hin].
    + rewrite E in Hrun. injection Hrun as <- <-. right. right. tauto.
    + rewrite Hrun in Hin. right. left. exact Hin.
Qed.

Lemma classify_category_known_witness :
  In "glass" (map fst (category_embeddings two_axis_service))
  \/ In "glass" (map fst WASTE_CATEGORIES)
  \/ ("glass" = "unclassified" /\ 89 # 100 = 0
      /\ semantic_scores cosine_of_unit_vectors two_axis_service
           "Broken glass and a bottle" = None).
Proof.
  apply (classify_category_known cosine_of_unit_vectors two_axis_service
           "Broken glass and a bottle" "glass" (89 # 100)).
  reflexivity.
Defined.

(** X4. On the keyword-primary path the category is the one the
    keyword-only fallback would give.  When the semantic winner is another
    category the whole answer is the fallback's; when it is the same
    category the confidence is at least the fallback's if the similarity is
    non-negative, and at most the fallback's if it is non-positive. *)
Theorem classify_keyword_primary_vs_fallback
  (cosine : Embedding -> Embedding -> option Q) (self : AIService)
  (text : string) (scores : list (string * Q))
  (semantic_category : string) (semantic_confidence : Q) :
  semantic_scores cosine self text = Some scores ->
  is_first_max snd scores (semantic_category, semantic_confidence) ->
  semantic_confidence < 50 # 100 ->
  (exists c keywords k,
      In (c, keywords) WASTE_CATEGORIES /\ In k keywords
      /\ contains k (lower text) = true) ->
  let fallback := _classify_by_keywords_only text in
  exists confidence,
    classify_waste_type cosine self text = Return (fst fallback, confidence)
    /\ (semantic_category <> fst fallback -> confidence = snd fallback)
    /\ (semantic_category = fst fallback -> 0 <= semantic_confidence ->
        snd fallback <= confidence)
    /\ (semantic_category = fst fallback -> semantic_confidence <= 0 ->
        confidence <= snd fallback).
Proof.
  intros Hs Hmax Hc (c & kws & k & Hin & Hk & Hmatch) fallback.
  pose proof (scored_categories_match _ _ _ _ Hin Hk Hmatch) as Hne.
  destruct (max_by_nonempty snd _ Hne) as ([kcat ks] & Hk' & _).
  assert (Hfb : fallback = (kcat, round (Qmin (ks * 2) 1) 2)).
  { unfold fallback, _classify_by_keywords_only.
    rewrite keyword_scores_spec, Hk'. reflexivity. }
  rewrite (classify_after_semantic _ _ _ _ _ _ Hs Hmax).
  assert (Hb : Qle_bool (50 # 100) semantic_confidence = false).
  { destruct (Qle_bool (50 # 100) semantic_confidence) eqn:E; [|reflexivity].
    apply Qle_bool_iff in E. exfalso. exact (Qlt_not_le _ _ Hc E). }
  rewrite Hb, Hk', Hfb. cbn [fst snd].
  pose proof (Q.le_min_r (ks * 2) 1) as Hcap.
  destruct (String.eqb semantic_category kcat) eqn:E.
  - apply String.eqb_eq in E.
    eexists. split; [reflexivity|]. split; [congruence|]. split.
    + intros _ Hpos. apply round_mono. apply Q.min_glb; lra.
    + intros _ Hneg. apply round_mono.
      apply Qle_trans with (Qmin (ks * 2) 1 + semantic_confidence * (3 # 10));
        [apply Q.le_min_l|lra].
  - apply String.eqb_neq in E.
    eexists. split; [reflexivity|]. split; [reflexivity|].
    split; intros; congruence.
Qed.

Lemma classify_keyword_primary_vs_fallback_witness :
  exists confidence,
    classify_waste_type cosine_of_unit_vectors weak_service
      "A plastic bag on the road"
    = Return (fst (_classify_by_keywords_only "A plastic bag on the road"),
              confidence)
    /\ ("plastic" = fst (_classify_by_keywords_only "A plastic bag on the road")
        -> 0 <= 5 # 13 ->
        snd (_classify_by_keywords_only "A plastic bag on the road")
        <= confidence).
Proof.
  destruct (classify_keyword_primary_vs_fallback cosine_of_unit_vectors
              weak_service "A plastic bag on the road"
              [("plastic", 5 # 13); ("glass", 0)] "plastic" (5 # 13))
    as (confidence & Hrun & _ & Hge & _).
  - reflexivity.
  - exists [], [("glass", 0)]. split; [reflexivity|].
    split; repeat constructor. discriminate.
  - reflexivity.
  - exists "plastic",
      ["plastic"; "bottle"; "bag"; "packaging"; "container"; "wrapper";
       "polythene"; "polyethylene"; "pet"; "hdpe"; "pvc"; "straw";
       "cup"; "lid"; "film"], "plastic".
    split; [left; reflexivity|]. split; [left; reflexivity|reflexivity].
  - exists confidence. split; assumption.
Defined.

(** X5. On the semantic-primary path keywords only add: the confidence is
    at least the rounded semantic confidence (capped at 1), and it lies
    between 0.50 and 1. *)
Theorem classify_semantic_boost
  (cosine : Embedding -> Embedding -> option Q) (self : AIService)
  (text : string) (scores : list (string * Q))
  (semantic_category : string) (semantic_confidence : Q) :
  semantic_scores cosine self text = Some scores ->
  is_first_max snd scores (semantic_category, semantic_confidence) ->
  50 # 100 <= semantic_confidence ->
  exists confidence,
    classify_waste_type cosine self text
    = Return (semantic_category, confidence)
    /\ round (Qmin semantic_confidence 1) 2 <= confidence
    /\ 50 # 100 <= confidence <= 1.
Proof.
  intros Hs Hmax Hc.
  rewrite (classify_after_semantic _ _ _ _ _ _ Hs Hmax).
  pose proof Hc as Hb. apply Qle_bool_iff in Hb. rewrite Hb.
  pose proof (dict_get_scored_nonneg (lower text) semantic_category) as Hk.
  eexists. split; [reflexivity|]. split; [|split].
  - apply round_mono. apply Q.min_glb; [|apply Q.le_min_r].
    apply Qle_trans with semantic_confidence; [apply Q.le_min_l|lra].
  - apply Qle_trans with (round (50 # 100) 2); [vm_compute; discriminate|].
    apply round_mono. apply Q.min_glb; lra.
  - apply (round_upper _ 1), Qmin_upper.
Qed.

Lemma classify_semantic_boost_witness :
  exists confidence,
    classify_waste_type cosine_of_unit_vectors two_axis_service
      "Broken glass and a bottle"
    = Return ("glass", confidence)
    /\ round (Qmin (4 # 5) 1) 2 <= confidence
    /\ 50 # 100 <= confidence <= 1.
Proof.
  apply (classify_semantic_boost cosine_of_unit_vectors two_axis_service
           "Broken glass and a bottle"
           [("plastic", 3 # 5); ("glass", 4 # 5)] "glass" (4 # 5)).
  - reflexivity.
  - exists [("plastic", 3 # 5)], []. split; [reflexivity|].
    split; repeat constructor.
  - discriminate.
Defined.

(** ** The keyword-only fallback *)

Lemma table_keywords :
  Forall
    (fun entry =>
       Forall (fun k => (1 <= word_count k)%Z) (snd entry)
       /\ (length (snd entry) <= 15)%nat)
    WASTE_CATEGORIES.
Proof.
  unfold WASTE_CATEGORIES.
  repeat (apply List.Forall_cons;
          [split;
           [repeat (apply List.Forall_cons; [vm_compute; discriminate|]);
            apply List.Forall_nil
           |simpl; lia]|]).
  apply List.Forall_nil.
Qed.

Lemma total_matched_floor (keywords : list string) (t : string) :
  Forall (fun k => (1 <= word_count k)%Z) keywords ->
  matched_keywords keywords t <> [] ->
  (1 <= total (map word_count (matched_keywords keywords t)))%Z.
Proof.
  intros Hall Hne.
  assert (Hm : Forall (fun k => (1 <= word_count k)%Z)
                 (matched_keywords keywords t)).
  { rewrite List.Forall_forall in Hall. apply List.Forall_forall.
    intros k Hk. apply Hall. unfold matched_keywords in Hk.
    apply filter_In in Hk. tauto. }
  destruct (matched_keywords keywords t) as [|m ms]; [congruence|].
  inversion Hm; subst. simpl.
  pose proof (total_word_count_nonneg ms). lia.
Qed.

Lemma scored_score_floor (t c : string) (s : Q) :
  In (c, s) (scored_categories WASTE_CATEGORIES t) -> 1 # 15 <= s.
Proof.
  intros Hin. apply scored_categories_In in Hin.
  destruct Hin as (kws & Hk & Hm & ->).
  pose proof table_keywords as Ht. rewrite List.Forall_forall in Ht.
  destruct (Ht _ Hk) as [Hwc Hlen]. simpl in Hwc, Hlen.
  pose proof (total_matched_floor kws t Hwc Hm) as Htot.
  unfold keyword_score.
  assert (Hpos : (0 < length kws)%nat).
  { destruct kws; [|simpl; lia]. unfold matched_keywords in Hm. simpl in Hm.
    congruence. }
  apply Qle_shift_div_l.
  - change 0 with (inject_Z 0). rewrite <- Zlt_Qlt. lia.
  - apply Qle_trans with (inject_Z 1).
    + unfold Qle. simpl. lia.
    + rewrite <- Zle_Qle. exact Htot.
Qed.

(** X6. The keyword-only fallback either finds no keyword and answers
    [("unclassified", 0.0)], or answers a keyword category with a
    confidence between 0.13 and 1: a single matching keyword of the
    longest list already scores 1/15, doubled and rounded. *)
Theorem fallback_confidence_floor (text : string) :
  _classify_by_keywords_only text = ("unclassified", 0)
  \/ (In (fst (_classify_by_keywords_only text)) (map fst WASTE_CATEGORIES)
      /\ 13 # 100 <= snd (_classify_by_keywords_only text) <= 1).
Proof.
  unfold _classify_by_keywords_only. rewrite keyword_scores_spec.
  destruct (max_by snd (scored_categories WASTE_CATEGORIES (lower text)))
    as [[c s]|] eqn:E; [right|left; reflexivity].
  cbn [fst snd]. apply max_by_In in E.
  split; [|split].
  - apply (scored_categories_keys WASTE_CATEGORIES (lower text)).
    apply (in_map fst _ _ E).
  - pose proof (scored_score_floor _ _ _ E) as Hs.
    apply Qle_trans with (round (2 # 15) 2); [vm_compute; discriminate|].
    apply round_mono. apply Q.min_glb; lra.
  - apply (round_upper _ 1), Qmin_upper.
Qed.

(** ** The similarity search, without preconditions *)

Section SimilarityMore.

Context (cosine : Embedding -> Embedding -> option Q).

Lemma similarities_of_In (query : Embedding) (incidents : list Incident) :
  forall sims incident s,
    similarities_of cosine query incidents = Some sims ->
    In (incident, s) sims ->
    In incident incidents
    /\ exists e,
         embedding incident = Some e /\ e <> [] /\ cosine query e = Some s.
Proof.
  induction incidents as [|inc incidents IH]; intros sims incident s; simpl.
  - intros [= <-] [].
  - destruct (embedding inc) as [e|] eqn:Ee.
    + destruct (0 <? length e)%nat eqn:El.
      * destruct (cosine query e) as [s'|] eqn:Es; [|discriminate].
        destruct (similarities_of cosine query incidents) as [rest|];
          [|discriminate].
        intros [= <-] [[= <- <-]|Hin].
        -- split; [left; reflexivity|]. exists e.
           split; [exact Ee|]. split; [|exact Es].
           intros ->. discriminate.
        -- destruct (IH rest incident s eq_refl Hin) as [H1 H2].
           split; [right; exact H1|exact H2].
      * intros Hs Hin. destruct (IH sims incident s Hs Hin) as [H1 H2].
        split; [right; exact H1|exact H2].
    + intros Hs Hin. destruct (IH sims incident s Hs Hin) as [H1 H2].
      split; [right; exact H1|exact H2].
Qed.

Lemma similarities_of_fst (query : Embedding) (incidents : list Incident) :
  forall sims,
    similarities_of cosine query incidents = Some sims ->
    map fst sims
    = List.filter
        (fun incident =>
           match embedding incident with
           | Some e => (0 <? length e)%nat
           | None => false
           end) incidents.
Proof.
  induction incidents as [|inc incidents IH]; intros sims; simpl.
  - intros [= <-]. reflexivity.
  - destruct (embedding inc) as [e|]; [|apply IH].
    destruct (0 <? length e)%nat; [|apply IH].
    destruct (cosine query e) as [s'|]; [|discriminate].
    destruct (similarities_of cosine query incidents) as [rest|];
      [|discriminate].
    intros [= <-]. simpl. rewrite (IH rest eq_refl). reflexivity.
Qed.

Lemma In_slice_to {A : Type} (xs : list A) (n : Z) (x : A) :
  In x (slice_to xs n) -> In x xs.
Proof. unfold slice_to. destruct (n <? 0)%Z; apply In_firstn. Qed.

Lemma slice_to_firstn {A : Type} (xs : list A) (n : Z) :
  exists m, slice_to xs n = firstn m xs.
Proof. unfold slice_to. destruct (n <? 0)%Z; eauto. Qed.

Lemma NoDup_firstn {A : Type} (n : nat) (xs : list A) :
  List.NoDup xs -> List.NoDup (firstn n xs).
Proof.
  revert xs. induction n as [|n IH]; intros [|x xs] H; simpl;
    try constructor.
  - inversion H; subst. intros Hin. apply In_firstn in Hin. contradiction.
  - inversion H; subst. apply IH. assumption.
Qed.

Lemma NoDup_map_filter {A B : Type} (f : A -> B) (p : A -> bool) (xs : list A) :
  List.NoDup (map f xs) -> List.NoDup (map f (List.filter p xs)).
Proof.
  induction xs as [|x xs IH]; simpl; intros H; [constructor|].
  inversion H as [|? ? Hx Hxs]; subst.
  destruct (p x); [|apply IH, Hxs]. simpl. constructor; [|apply IH, Hxs].
  intros Hin. apply Hx. apply in_map_iff in Hin.
  destruct Hin as (y & Hy & Hin). apply in_map_iff. exists y.
  split; [exact Hy|]. apply filter_In in Hin. tauto.
Qed.

(** X7. Whatever the limit, and whether or not a similarity raises, every
    incident returned by [find_similar_incidents] is a row of the table
    with an id other than the excluded one and a non-empty embedding whose
    similarity to the query is defined and at or above the threshold. *)
Theorem find_similar_incidents_sound (db : list Incident) (exclude_id : Z)
  (query : Embedding) (threshold : option Q) (limit : Z) (incident : Incident) :
  In incident
     (find_similar_incidents cosine db exclude_id query threshold limit) ->
  In incident db
  /\ id incident <> exclude_id
  /\ exists e s,
       embedding incident = Some e /\ e <> []
       /\ cosine query e = Some s
       /\ match threshold with Some t => t | None => 75 # 100 end <= s.
Proof.
  set (t := match threshold with Some t => t | None => 75 # 100 end).
  assert (Hrun : find_similar_incidents cosine db exclude_id query threshold limit
                 = find_similar_incidents cosine db exclude_id query (Some t) limit)
    by (destruct threshold; reflexivity).
  rewrite Hrun, find_similar_incidents_unfold.
  destruct (similarities_of cosine query _) as [sims|] eqn:Hs; [|intros []].
  intros Hin. apply in_map_iff in Hin. destruct Hin as ([inc s] & <- & Hin).
  apply In_slice_to in Hin.
  apply (Permutation_in _ (sort_desc_by_perm _ _)) in Hin.
  apply filter_In in Hin. destruct Hin as [Hin Ht]. cbn [fst snd] in *.
  destruct (similarities_of_In _ _ _ _ _ Hs Hin) as [Hdb (e & He & Hne & Hc)].
  apply filter_In in Hdb. destruct Hdb as [Hdb Hpre].
  apply andb_true_iff in Hpre. destruct Hpre as [Hid _].
  split; [exact Hdb|]. split.
  - apply negb_true_iff, Z.eqb_neq in Hid. exact Hid.
  - exists e, s. apply Qle_bool_iff in Ht. tauto.
Qed.

(** X8. The incidents are returned in descending order of similarity, and
    no row of the table is returned twice. *)
Theorem find_similar_incidents_ranked (db : list Incident) (exclude_id : Z)
  (query : Embedding) (threshold : option Q) (limit : Z) :
  (exists ranked : list (Incident * Q),
      find_similar_incidents cosine db exclude_id query threshold limit
      = map fst ranked
      /\ Forall (fun p => similarity_of cosine query (fst p) = Some (snd p))
           ranked
      /\ StronglySorted (fun x y => snd y <= snd x) ranked)
  /\ (List.NoDup db ->
      List.NoDup
        (find_similar_incidents cosine db exclude_id query threshold limit)).
Proof.
  set (t := match threshold with Some t => t | None => 75 # 100 end).
  assert (Hrun : find_similar_incidents cosine db exclude_id query threshold limit
                 = find_similar_incidents cosine db exclude_id query (Some t) limit)
    by (destruct threshold; reflexivity).
  rewrite Hrun, find_similar_incidents_unfold.
  destruct (similarities_of cosine query _) as [sims|] eqn:Hs;
    [|split; [exists []; repeat split; constructor|intros _; constructor]].
  set (kept := List.filter (fun p => Qle_bool t (snd p)) sims).
  destruct (slice_to_firstn (sort_desc snd kept) limit) as [m Hm].
  rewrite Hm. split.
  - exists (firstn m (sort_desc snd kept)). split; [reflexivity|]. split.
    + apply List.Forall_forall. intros [inc s] Hin.
      apply In_firstn in Hin.
      apply (Permutation_in _ (sort_desc_by_perm _ _)) in Hin.
      apply filter_In in Hin. destruct Hin as [Hin _].
      destruct (similarities_of_In _ _ _ _ _ Hs Hin) as [_ (e & He & _ & Hc)].
      unfold similarity_of. cbn [fst snd]. rewrite He. exact Hc.
    + apply StronglySorted_firstn, sort_desc_sorted.
  - intros Hnd. rewrite <- firstn_map. apply NoDup_firstn.
    apply (Permutation_NoDup (l := map fst kept)).
    + symmetry. apply Permutation_map, sort_desc_by_perm.
    + apply NoDup_map_filter. rewrite (similarities_of_fst _ _ _ Hs).
      apply List.NoDup_filter, List.NoDup_filter, Hnd.
Qed.

(** X9. Raising the limit only appends: for [0 <= m <= n] the result for
    limit [m] is the first [m] entries of the result for limit [n]; in
    particular limit 0 returns nothing. *)
Theorem find_similar_incidents_limit_prefix (db : list Incident)
  (exclude_id : Z) (query : Embedding) (threshold : option Q) (m n : Z) :
  (0 <= m <= n)%Z ->
  find_similar_incidents cosine db exclude_id query threshold m
  = firstn (Z.to_nat m)
      (find_similar_incidents cosine db exclude_id query threshold n).
Proof.
  intros Hmn.
  set (t := match threshold with Some t => t | None => 75 # 100 end).
  assert (Hrun : forall k,
             find_similar_incidents cosine db exclude_id query threshold k
             = find_similar_incidents cosine db exclude_id query (Some t) k)
    by (intros k; destruct threshold; reflexivity).
  rewrite !Hrun, !find_similar_incidents_unfold.
  destruct (similarities_of cosine query _) as [sims|];
    [|rewrite firstn_nil; reflexivity].
  rewrite !slice_to_nonneg by lia.
  rewrite <- !firstn_map, firstn_firstn.
  replace (Nat.min (Z.to_nat m) (Z.to_nat n)) with (Z.to_nat m) by lia.
  reflexivity.
Qed.

End SimilarityMore.

Lemma find_similar_incidents_sound_witness :
  In {| id := 6; description := "more bottles"; embedding := Some [1; 0] |}
     incidents_table
  /\ (6 <> 1)%Z.
Proof.
  destruct (find_similar_incidents_sound cosine_of_unit_vectors
              incidents_table 1 [1; 0] None 5
              {| id := 6; description := "more bottles";
                 embedding := Some [1; 0] |}) as (H1 & H2 & _).
  - vm_compute. left. reflexivity.
  - split; assumption.
Defined.

Lemma find_similar_incidents_ranked_witness :
  List.NoDup
    (find_similar_incidents cosine_of_unit_vectors incidents_table 1 [1; 0]
       None 5).
Proof.
  apply (find_similar_incidents_ranked cosine_of_unit_vectors
           incidents_table 1 [1; 0] None 5).
  unfold incidents_table.
  repeat (constructor; [simpl; intuition discriminate|]). constructor.
Defined.

Lemma find_similar_incidents_limit_prefix_witness :
  find_similar_incidents cosine_of_unit_vectors incidents_table 1 [1; 0] None 1
  = firstn 1
      (find_similar_incidents cosine_of_unit_vectors incidents_table 1 [1; 0]
         None 5).
Proof.
  apply (find_similar_incidents_limit_prefix cosine_of_unit_vectors
           incidents_table 1 [1; 0] None 1 5).
  lia.
Defined.

(** ** Keyword extraction, without preconditions *)

Section KeywordsMore.

Context (word_tokenize : string -> option (list string)).

Lemma extract_keywords_unfold (self : AIService) (text : string) (top_n : Z) :
  extract_keywords word_tokenize self text top_n
  = match word_tokenize (lower text) with
    | Some tokens =>
        slice_to
          (map fst
             (sort_desc (fun item : string * Z => inject_Z (snd item))
                (count_words (List.filter (kept (stopwords self)) tokens))))
          top_n
    | None => []
    end.
Proof.
  unfold extract_keywords.
  destruct (word_tokenize (lower text)) as [tokens|]; [|reflexivity].
  unfold slice_to. rewrite length_map.
  destruct (top_n <? 0)%Z; symmetry; apply firstn_map.
Qed.

(** X10. Whatever [top_n] is, also when it is negative,
    [extract_keywords] returns no token twice, and every token it returns
    is a token of the lower-cased text that is purely alphabetic, longer
    than two characters and not a stopword. *)
Theorem extract_keywords_distinct_kept (self : AIService) (text : string)
  (top_n : Z) :
  List.NoDup (extract_keywords word_tokenize self text top_n)
  /\ forall w,
       In w (extract_keywords word_tokenize self text top_n) ->
       (exists tokens,
           word_tokenize (lower text) = Some tokens /\ In w tokens)
       /\ isalpha w = true /\ (2 < String.length w)%nat
       /\ ~ In w (stopwords self).
Proof.
  rewrite extract_keywords_unfold.
  destruct (word_tokenize (lower text)) as [tokens|];
    [|split; [constructor|intros w []]].
  destruct (ranking_spec (stopwords self) tokens) as (Hnd & Hin & _).
  destruct (slice_to_firstn
              (map fst
                 (sort_desc (fun item : string * Z => inject_Z (snd item))
                    (count_words (List.filter (kept (stopwords self)) tokens))))
              top_n) as [m Hm].
  rewrite Hm. split; [apply NoDup_firstn, Hnd|].
  intros w Hw. apply In_firstn, Hin in Hw. destruct Hw as [Hw Hk].
  split; [exists tokens; tauto|apply kept_facts, Hk].
Qed.

(** X11. Asking for more keywords only appends: for [0 <= m <= n] the
    result for [top_n = m] is the first [m] entries of the result for
    [top_n = n]. *)
Theorem extract_keywords_prefix (self : AIService) (text : string) (m n : Z) :
  (0 <= m <= n)%Z ->
  extract_keywords word_tokenize self text m
  = firstn (Z.to_nat m) (extract_keywords word_tokenize self text n).
Proof.
  intros Hmn. rewrite !extract_keywords_unfold.
  destruct (word_tokenize (lower text)) as [tokens|];
    [|rewrite firstn_nil; reflexivity].
  rewrite !slice_to_nonneg by lia. rewrite firstn_firstn.
  replace (Nat.min (Z.to_nat m) (Z.to_nat n)) with (Z.to_nat m) by lia.
  reflexivity.
Qed.

(** X12. The first keyword is a most frequent one: no kept token of the
    text occurs more often than the head of the result. *)
Theorem extract_keywords_head_most_frequent (self : AIService) (text : string)
  (top_n : Z) (tokens : list string) (w : string) (rest : list string) :
  (0 <= top_n)%Z ->
  word_tokenize (lower text) = Some tokens ->
  extract_keywords word_tokenize self text top_n = w :: rest ->
  forall w',
    In w' tokens -> kept (stopwords self) w' = true ->
    (frequency w' tokens <= frequency w tokens)%nat.
Proof.
  intros Hn Htok Hrun w' Hw' Hk'.
  rewrite extract_keywords_unfold, Htok, slice_to_nonneg in Hrun by exact Hn.
  destruct (ranking_spec (stopwords self) tokens) as (_ & Hin & Hsorted).
  cbv zeta in Hin, Hsorted.
  destruct (map fst
              (sort_desc (fun item : string * Z => inject_Z (snd item))
                 (count_words (List.filter (kept (stopwords self)) tokens))))
    as [|x ranking] eqn:E.
  - rewrite firstn_nil in Hrun. discriminate.
  - destruct (Z.to_nat top_n); [discriminate|]. simpl in Hrun.
    injection Hrun as -> _.
    apply StronglySorted_inv in Hsorted. destruct Hsorted as [_ Hhead].
    rewrite List.Forall_forall in Hhead.
    assert (Hmem : In w' (w :: ranking)) by (apply Hin; tauto).
    destruct Hmem as [<-|Hmem]; [lia|].
    destruct (Hhead w' Hmem) as [Hlt|[Heq _]]; lia.
Qed.

End KeywordsMore.

Lemma extract_keywords_prefix_witness :
  extract_keywords whitespace_tokenize two_axis_service
    "the glass bottle was near the glass door and the bin" 1
  = firstn 1
      (extract_keywords whitespace_tokenize two_axis_service
         "the glass bottle was near the glass door and the bin" 3).
Proof.
  apply (extract_keywords_prefix whitespace_tokenize two_axis_service
           "the glass bottle was near the glass door and the bin" 1 3).
  lia.
Defined.

Lemma extract_keywords_head_most_frequent_witness :
  (frequency "door"
     (split "the glass bottle was near the glass door and the bin")
   <= frequency "glass"
        (split "the glass bottle was near the glass door and the bin"))%nat.
Proof.
  apply (extract_keywords_head_most_frequent whitespace_tokenize
           two_axis_service
           "the glass bottle was near the glass door and the bin" 2
           (split "the glass bottle was near the glass door and the bin")
           "glass" ["bottle"]).
  - lia.
  - reflexivity.
  - reflexivity.
  - vm_compute. tauto.
  - reflexivity.
Defined.
End AIExtra.

(* ================================================================== *)
(** * Properties of start-up, incident processing and semantic search *)
(* ================================================================== *)

Module LifecycleExtra.
Import Py AI Spec Examples PyFacts AIProofs AIExtra AILifecycle Routes.
Import LifecycleSpec.
Local Open Scope Q_scope.

(** ** process_incident *)

(** X13. [process_incident] fails with "AI Service not initialized" when
    the model or the category embeddings are missing, and otherwise fails
    exactly when the encoder raises on the text [description location];
    an encoder failure on the description alone only degrades the
    classification.  When it succeeds, waste type and confidence are those
    of [classify_waste_type], the keywords are the at most five of
    [extract_keywords], and the embedding is the encoder's answer for the
    combined text. *)
Theorem process_incident_outcome
  (cosine : Embedding -> Embedding -> option Q)
  (word_tokenize : string -> option (list string))
  (self : AIService) (description location : string) :
  (model self = None \/ category_embeddings self = [] ->
   process_incident cosine word_tokenize self description location
   = Fail not_initialized)
  /\ (forall encode,
         model self = Some encode -> category_embeddings self <> [] ->
         match encode (description ++ " " ++ location) with
         | None =>
             process_incident cosine word_tokenize self description location
             = Fail ThirdParty
         | Some e =>
             exists category score,
               classify_waste_type cosine self description
               = Return (category, score)
               /\ process_incident cosine word_tokenize self description
                    location
                  = Done
                      {| waste_type := category;
                         confidence := score;
                         keywords :=
                           extract_keywords word_tokenize self description 5;
                         embedding := e |}
               /\ (length (extract_keywords word_tokenize self description 5)
                   <= 5)%nat
         end).
Proof.
  split.
  - intros H. unfold process_incident.
    rewrite (classify_uninitialized_raises cosine self description H).
    reflexivity.
  - intros encode Hm Hc. unfold process_incident.
    destruct (classify_initialized_returns cosine self description)
      as [[category score] Hrun]; [rewrite Hm; discriminate|exact Hc|].
    rewrite Hrun. unfold generate_embedding. rewrite Hm.
    destruct (encode (description ++ " " ++ location)) as [e|];
      [|reflexivity].
    exists category, score. split; [reflexivity|]. split; [reflexivity|].
    rewrite extract_keywords_unfold.
    destruct (word_tokenize (lower description)); [|simpl; lia].
    rewrite slice_to_nonneg by lia. rewrite length_firstn. lia.
Qed.

Lemma process_incident_outcome_witness :
  picky_encoder "Broken glass" = None
  /\ process_incident cosine_of_unit_vectors whitespace_tokenize picky_service
       "Broken glass" "Main Street"
     = Done {| waste_type := "glass"; confidence := 67 # 100;
               keywords := ["broken"; "glass"]; embedding := [1; 0] |}.
Proof.
  split; [reflexivity|].
  destruct (process_incident_outcome cosine_of_unit_vectors
              whitespace_tokenize picky_service "Broken glass" "Main Street")
    as [_ H].
  specialize (H picky_encoder eq_refl).
  destruct H as (category & score & Hclass & Hrun & _); [discriminate|].
  rewrite Hrun. vm_compute in Hclass. injection Hclass as <- <-.
  reflexivity.
Defined.

(** ** semantic_search *)

Lemma similarities_of_raises (cosine : Embedding -> Embedding -> option Q)
  (query : Embedding) (incidents : list Incident) :
  similarities_of cosine query incidents = None ->
  exists incident e,
    In incident incidents /\ AI.embedding incident = Some e /\ e <> []
    /\ cosine query e = None.
Proof.
  induction incidents as [|inc incidents IH]; simpl; [discriminate|].
  destruct (AI.embedding inc) as [e|] eqn:Ee.
  - destruct (0 <? length e)%nat eqn:El.
    + destruct (cosine query e) as [s|] eqn:Es.
      * destruct (similarities_of cosine query incidents); [discriminate|].
        intros _. destruct (IH eq_refl) as (i & e' & Hi & H).
        exists i, e'. split; [right; exact Hi|exact H].
      * intros _. exists inc, e. split; [left; reflexivity|].
        split; [exact Ee|]. split; [|exact Es]. intros ->. discriminate.
    + intros H. destruct (IH H) as (i & e' & Hi & H').
      exists i, e'. split; [right; exact Hi|exact H'].
  - intros H. destruct (IH H) as (i & e' & Hi & H').
    exists i, e'. split; [right; exact Hi|exact H'].
Qed.

(** X14. On a started service whose encoder answers the query, the
    semantic search is the similarity search that excludes nothing: its
    200 response is what [find_similar_incidents] returns for the query
    embedding and an id that no row has.  The two differ on failure only:
    where a similarity raises, the route answers with status 500 and the
    service method with the empty list. *)
Theorem semantic_search_is_similarity_search
  (cosine : Embedding -> Embedding -> option Q)
  (load_stopwords : option (list string))
  (load_model : option (string -> option Embedding))
  (service : Service) (db : list Incident) (query : string)
  (threshold : Q) (limit : Z)
  (encode : string -> option Embedding) (e : Embedding) (absent_id : Z) :
  _initialized service = true ->
  model (self service) = Some encode ->
  encode query = Some e ->
  (forall incident, In incident db -> id incident <> absent_id) ->
  fst (semantic_search cosine load_stopwords load_model service db query
         threshold limit) = service
  /\ match
       snd (semantic_search cosine load_stopwords load_model service db query
              threshold limit)
     with
     | Ok body =>
         body
         = find_similar_incidents cosine db absent_id e (Some threshold) limit
     | InternalServerError =>
         find_similar_incidents cosine db absent_id e (Some threshold) limit
         = []
         /\ exists incident e',
              In incident db /\ AI.embedding incident = Some e' /\ e' <> []
              /\ cosine e e' = None
     end.
Proof.
  intros Hinit Hm He Hid.
  unfold semantic_search, initialize. rewrite Hinit.
  unfold generate_embedding. rewrite Hm, He.
  rewrite find_similar_incidents_unfold, similarity_scan_spec.
  assert (Hfilter :
            List.filter
              (fun incident =>
                 negb (Z.eqb (id incident) absent_id)
                 && match AI.embedding incident with
                    | Some _ => true
                    | None => false
                    end) db
            = List.filter
                (fun incident =>
                   match AI.embedding incident with
                   | Some _ => true
                   | None => false
                   end) db).
  { apply filter_ext_in. intros inc Hin.
    replace (Z.eqb (id inc) absent_id) with false; [reflexivity|].
    symmetry. apply Z.eqb_neq, Hid, Hin. }
  rewrite Hfilter. clear Hfilter.
  cbv zeta.
  destruct (List.filter _ db) as [|inc rest] eqn:E.
  - simpl. split; [reflexivity|]. unfold slice_to.
    destruct (limit <? 0)%Z; simpl; rewrite ?firstn_nil; reflexivity.
  - destruct (similarities_of cosine e (inc :: rest)) as [sims|] eqn:Hs;
      cbn [fst snd]; split; try reflexivity.
    split; [reflexivity|].
    destruct (similarities_of_raises _ _ _ Hs) as (i & e' & Hi & H).
    exists i, e'. split; [|exact H].
    rewrite <- E in Hi. apply filter_In in Hi. tauto.
Qed.

Lemma semantic_search_is_similarity_search_witness :
  snd (semantic_search cosine_of_unit_vectors None None started_service
         incidents_table "bottles" (70 # 100) 10)
  = Ok (find_similar_incidents cosine_of_unit_vectors incidents_table 0
          [3 # 5; 4 # 5] (Some (70 # 100)) 10).
Proof.
  destruct (semantic_search_is_similarity_search cosine_of_unit_vectors
              None None started_service incidents_table "bottles"
              (70 # 100) 10 (fun _ => Some [3 # 5; 4 # 5]) [3 # 5; 4 # 5] 0)
    as [_ H].
  - reflexivity.
  - reflexivity.
  - reflexivity.
  - intros incident Hin. simpl in Hin.
    repeat (destruct Hin as [<-|Hin]; [discriminate|]). destruct Hin.
  - destruct (snd (semantic_search cosine_of_unit_vectors None None
                     started_service incidents_table "bottles"
                     (70 # 100) 10)) eqn:E.
    + rewrite H. reflexivity.
    + vm_compute in E. discriminate.
Defined.

(** ** initialize *)

(** One round of the loop: the category is stored behind the ones already
    encoded, in the place of its stale entry if there is one. *)
Lemma dict_set_behind (pre stale : list (string * Embedding))
  (c : string) (e : Embedding) (keys : list string) (n : nat) :
  ~ In c (map fst pre) ->
  map fst stale = firstn n (c :: keys) ->
  exists stale',
    dict_set (pre ++ stale)%list c e = ((pre ++ [(c, e)]) ++ stale')%list
    /\ map fst stale' = firstn (pred n) keys.
Proof.
  intros Hc Hs.
  induction pre as [|[k v] pre IH]; simpl.
  - destruct stale as [|[k v] stale]; simpl.
    + exists []. split; [reflexivity|].
      destruct n; simpl in *; [destruct keys; reflexivity|discriminate].
    + destruct n as [|n]; simpl in Hs; [discriminate|].
      injection Hs as -> Hs. rewrite String.eqb_refl.
      exists stale. split; [reflexivity|exact Hs].
  - destruct (String.eqb k c) eqn:E.
    + apply String.eqb_eq in E. exfalso. apply Hc. left. exact E.
    + destruct IH as (stale' & H1 & H2).
      { intros Hin. apply Hc. right. exact Hin. }
      exists stale'. split; [|exact H2]. rewrite H1. reflexivity.
Qed.

Lemma firstn_nil_keys (n : nat) (stale : list (string * Embedding)) :
  map fst stale = firstn n (@nil string) -> stale = [].
Proof.
  rewrite firstn_nil. destruct stale; [reflexivity|discriminate].
Qed.

Lemma encode_categories_complete (encode : string -> option Embedding) :
  forall descriptions pre stale n out,
    List.NoDup (map fst descriptions) ->
    (forall c, In c (map fst pre) -> ~ In c (map fst descriptions)) ->
    map fst stale = firstn n (map fst descriptions) ->
    embeddings_of encode descriptions = Some out ->
    encode_categories encode descriptions (pre ++ stale)%list
    = ((pre ++ out)%list, true).
Proof.
  induction descriptions as [|[c d] rest IH];
    intros pre stale n out Hnd Hpre Hs Hout; simpl in *.
  - injection Hout as <-. rewrite (firstn_nil_keys n stale Hs). reflexivity.
  - destruct (encode d) as [e|]; [|discriminate].
    destruct (embeddings_of encode rest) as [others|]; [|discriminate].
    injection Hout as <-.
    destruct (dict_set_behind pre stale c e (map fst rest) n)
      as (stale' & -> & Hs'); [intros Hin; apply (Hpre c Hin); now left|exact Hs|].
    rewrite (IH (pre ++ [(c, e)])%list stale' (pred n) others).
    + rewrite <- app_assoc. reflexivity.
    + apply List.NoDup_cons_iff in Hnd. tauto.
    + intros k Hk Hin. rewrite map_app in Hk. apply in_app_or in Hk.
      destruct Hk as [Hk|[<-|[]]].
      * apply (Hpre k Hk). now right.
      * apply List.NoDup_cons_iff in Hnd. tauto.
    + exact Hs'.
    + reflexivity.
Qed.

Lemma encode_categories_keys (encode : string -> option Embedding) :
  forall descriptions pre stale n,
    List.NoDup (map fst descriptions) ->
    (forall c, In c (map fst pre) -> ~ In c (map fst descriptions)) ->
    map fst stale = firstn n (map fst descriptions) ->
    exists m,
      map fst (fst (encode_categories encode descriptions (pre ++ stale)%list))
      = (map fst pre ++ firstn m (map fst descriptions))%list.
Proof.
  induction descriptions as [|[c d] rest IH];
    intros pre stale n Hnd Hpre Hs; simpl in *.
  - exists 0%nat. rewrite (firstn_nil_keys n stale Hs).
    simpl. rewrite !app_nil_r. reflexivity.
  - destruct (encode d) as [e|].
    + destruct (dict_set_behind pre stale c e (map fst rest) n)
        as (stale' & -> & Hs');
        [intros Hin; apply (Hpre c Hin); now left|exact Hs|].
      destruct (IH (pre ++ [(c, e)])%list stale' (pred n)) as [m Hm].
      * apply List.NoDup_cons_iff in Hnd. tauto.
      * intros k Hk Hin. rewrite map_app in Hk. apply in_app_or in Hk.
        destruct Hk as [Hk|[<-|[]]].
        -- apply (Hpre k Hk). now right.
        -- apply List.NoDup_cons_iff in Hnd. tauto.
      * exact Hs'.
      * exists (S m). rewrite Hm, map_app, <- app_assoc. reflexivity.
    + exists n. simpl. rewrite map_app, Hs. reflexivity.
Qed.

Lemma encode_categories_flag (encode : string -> option Embedding) :
  forall descriptions acc,
    snd (encode_categories encode descriptions acc) = true
    <-> embeddings_of encode descriptions <> None.
Proof.
  induction descriptions as [|[c d] rest IH]; intros acc; simpl.
  - split; [discriminate|reflexivity].
  - destruct (encode d) as [e|]; simpl.
    + rewrite IH. destruct (embeddings_of encode rest);
        split; congruence.
    + split; [discriminate|congruence].
Qed.

Lemma descriptions_distinct :
  List.NoDup (map fst WASTE_CATEGORY_DESCRIPTIONS).
Proof.
  simpl. repeat (constructor; [simpl; intuition discriminate|]).
  constructor.
Qed.

(** X15. A start-up whose loads and encodings all succeed ends with the
    flag raised, the loaded model and stopwords, and as category
    embeddings the encodings of the ten reference texts in the order of
    the table; the result is the same from a fresh service and from one
    left behind by a failed start-up.  A later call returns at once,
    whatever the loads would do then. *)
Theorem initialize_success
  (words : list string) (encode : string -> option Embedding)
  (service : Service) (embeddings : list (string * Embedding)) :
  restartable service ->
  embeddings_of encode WASTE_CATEGORY_DESCRIPTIONS = Some embeddings ->
  let started :=
    {| self := {| model := Some encode; stopwords := words;
                  category_embeddings := embeddings |};
       _initialized := true |} in
  initialize (Some words) (Some encode) service = (started, Done tt)
  /\ forall load_stopwords load_model,
       initialize load_stopwords load_model started = (started, Done tt).
Proof.
  intros [Hflag [n Hkeys]] Hout started. split; [|reflexivity].
  unfold initialize. rewrite Hflag.
  change (category_embeddings (self service))
    with ([] ++ category_embeddings (self service))%list.
  rewrite (encode_categories_complete encode WASTE_CATEGORY_DESCRIPTIONS []
             (category_embeddings (self service)) n embeddings
             descriptions_distinct (fun c H => False_ind _ H) Hkeys Hout).
  reflexivity.
Qed.

Lemma initialize_success_witness :
  initialize (Some ["the"]) (Some constant_encoder) half_started
  = initialize (Some ["the"]) (Some constant_encoder) fresh
  /\ _initialized (fst (initialize (Some ["the"]) (Some constant_encoder)
                          half_started)) = true.
Proof.
  assert (Hsome :
            exists embeddings,
              embeddings_of constant_encoder WASTE_CATEGORY_DESCRIPTIONS
              = Some embeddings).
  { eexists. reflexivity. }
  destruct Hsome as [embeddings Hsome].
  assert (Hhalf : restartable half_started).
  { split; [reflexivity|]. exists 2%nat. reflexivity. }
  assert (Hfresh : restartable fresh).
  { split; [reflexivity|]. exists 0%nat. reflexivity. }
  destruct (initialize_success ["the"] constant_encoder half_started
              embeddings Hhalf Hsome) as [-> _].
  destruct (initialize_success ["the"] constant_encoder fresh
              embeddings Hfresh Hsome) as [-> _].
  split; reflexivity.
Defined.

(** X16. A start-up of a service that is not started fails exactly when
    a load or the encoding of a reference text raises; the exception is
    passed on, the flag stays down and the embeddings stored so far are
    those of the first categories of the table, so that the next call
    starts from a state from which a start-up can succeed. *)
Theorem initialize_failure
  (load_stopwords : option (list string))
  (load_model : option (string -> option Embedding)) (service : Service) :
  restartable service ->
  let result := initialize load_stopwords load_model service in
  (snd result = Done tt
   <-> load_stopwords <> None
       /\ exists encode,
            load_model = Some encode
            /\ embeddings_of encode WASTE_CATEGORY_DESCRIPTIONS <> None)
  /\ (snd result <> Done tt ->
      snd result = Fail ThirdParty /\ restartable (fst result)).
Proof.
  intros [Hflag [n Hkeys]] result. subst result.
  unfold initialize, restartable. rewrite Hflag.
  pose proof descriptions_distinct as Hnd.
  remember WASTE_CATEGORY_DESCRIPTIONS as table eqn:Et. clear Et.
  destruct load_stopwords as [words|]; cbn [fst snd].
  2:{ split.
      - split; [discriminate|]. intros [H _]. congruence.
      - intros _. split; [reflexivity|]. split; [exact Hflag|eauto]. }
  destruct load_model as [encode|]; cbn [fst snd].
  2:{ split.
      - split; [discriminate|]. intros [_ [encode [H _]]]. discriminate.
      - intros _. split; [reflexivity|]. split; [reflexivity|].
        cbn. eauto. }
  pose proof (encode_categories_flag encode table
                (category_embeddings (self service))) as Hdone.
  destruct (encode_categories_keys encode table []
              (category_embeddings (self service)) n Hnd
              (fun c H => False_ind _ H) Hkeys) as [m Hm].
  change ([] ++ category_embeddings (self service))%list
    with (category_embeddings (self service)) in Hm.
  destruct (encode_categories encode table
              (category_embeddings (self service)))
    as [stored complete].
  cbn [fst snd] in *. destruct complete.
  - split; [|intros H; exfalso; apply H; reflexivity].
    split; [|reflexivity]. intros _.
    split; [discriminate|]. exists encode. split; [reflexivity|].
    apply Hdone. reflexivity.
  - split.
    + split; [discriminate|]. intros [_ [encode' [H1 H2]]].
      injection H1 as <-. apply Hdone in H2. discriminate.
    + intros _. split; [reflexivity|]. split; [reflexivity|].
      exists m. exact Hm.
Qed.

Lemma initialize_failure_witness :
  snd (initialize (Some ["the"]) (Some glass_blind_encoder) fresh)
  = Fail ThirdParty
  /\ map fst (category_embeddings
                (self (fst (initialize (Some ["the"])
                              (Some glass_blind_encoder) fresh))))
     = ["plastic"; "organic"; "paper"]
  /\ restartable (fst (initialize (Some ["the"]) (Some glass_blind_encoder)
                         fresh)).
Proof.
  assert (Hfresh : restartable fresh).
  { split; [reflexivity|]. exists 0%nat. reflexivity. }
  destruct (initialize_failure (Some ["the"]) (Some glass_blind_encoder)
              fresh Hfresh) as [_ H].
  assert (Hfail :
            snd (initialize (Some ["the"]) (Some glass_blind_encoder) fresh)
            <> Done tt).
  { vm_compute. discriminate. }
  destruct (H Hfail) as [H1 H2].
  split; [exact H1|]. split; [reflexivity|exact H2].
Defined.
End LifecycleExtra.

(* ================================================================== *)
(** * Further properties of the analytics service *)
(* ================================================================== *)

Module AnalyticsExtra.
Import Py Spec Analytics AnalyticsSpec Examples PyFacts AnalyticsProofs.
Local Open Scope R_scope.

(** ** How far a count can lie above the mean *)






Lemma length_positive {A : Type} (xs : list A) (x : A) :
  In x xs -> 0 < INR (length xs).
Proof.
  destruct xs as [|y xs]; [intros []|]. intros _.
  change (length (y :: xs)) with (S (length xs)). rewrite S_INR.
  pose proof (pos_INR (length xs)). lra.
Qed.











(** ** detect_anomalies *)

Lemma Rtotal_nonneg (counts : list Z) :
  (forall c, In c counts -> (0 <= c)%Z) -> 0 <= Rtotal (map IZR counts).
Proof.
  induction counts as [|c counts IH]; intros H; simpl; [lra|].
  pose proof (IZR_le _ _ (H c (or_introl eq_refl))).
  assert (0 <= Rtotal (map IZR counts)).
  { apply IH. intros c' Hc'. apply H. right. exact Hc'. }
  lra.
Qed.

Lemma mean_nonneg (counts : list Z) :
  (forall c, In c counts -> (0 <= c)%Z) -> 0 <= population_mean counts.
Proof.
  intros H. unfold population_mean.
  destruct counts as [|c counts].
  - simpl. unfold Rdiv. rewrite Rinv_0. lra.
  - pose proof (length_positive (c :: counts) c (or_introl eq_refl)) as Hn.
    apply Rmult_le_reg_l with (INR (length (c :: counts))); [exact Hn|].
    rewrite Rmult_0_r.
    replace (INR (length (c :: counts))
             * (Rtotal (map IZR (c :: counts)) / INR (length (c :: counts))))
      with (Rtotal (map IZR (c :: counts))) by (field; lra).
    apply Rtotal_nonneg, H.
Qed.

(** Numbers that all exceed a bound have a total above the bound taken as
    often. *)
Lemma total_above (bound : R) (xs : list R) :
  xs <> [] -> (forall x, In x xs -> bound < x) ->
  INR (length xs) * bound < Rtotal xs.
Proof.
  induction xs as [|x xs IH]; [congruence|]. intros _ H.
  change (length (x :: xs)) with (S (length xs)). rewrite S_INR.
  cbn [Rtotal]. pose proof (H x (or_introl eq_refl)) as Hx.
  destruct xs as [|y xs]; [simpl; lra|].
  assert (INR (length (y :: xs)) * bound < Rtotal (y :: xs)).
  { apply IH; [discriminate|]. intros z Hz. apply H. right. exact Hz. }
  lra.
Qed.

Lemma some_count_at_most_mean (counts : list Z) :
  counts <> [] ->
  exists c, In c counts /\ IZR c <= population_mean counts.
Proof.
  intros Hne.
  assert (Hdec : forall l : list Z,
             (exists c, In c l /\ IZR c <= population_mean counts)
             \/ (forall c, In c l -> population_mean counts < IZR c)).
  { induction l as [|c l [IH|IH]].
    - right. intros c [].
    - left. destruct IH as (c' & Hin & Hle). exists c'. split; [right|]; assumption.
    - destruct (Rle_lt_dec (IZR c) (population_mean counts)) as [Hle|Hlt].
      + left. exists c. split; [left; reflexivity|exact Hle].
      + right. intros c' [<-|Hin]; [exact Hlt|apply IH, Hin]. }
  destruct (Hdec counts) as [H|H]; [exact H|exfalso].
  assert (Hne' : map IZR counts <> []) by (destruct counts; [congruence|discriminate]).
  pose proof (total_above (population_mean counts) (map IZR counts) Hne') as Habove.
  rewrite length_map in Habove.
  assert (Hn : 0 < INR (length counts)).
  { destruct counts as [|c counts]; [congruence|].
    apply (length_positive (c :: counts) c). left. reflexivity. }
  assert (Heq : INR (length counts) * population_mean counts
                = Rtotal (map IZR counts)).
  { unfold population_mean. field. lra. }
  rewrite Heq in Habove. apply (Rlt_irrefl (Rtotal (map IZR counts))).
  apply Habove. intros x Hx. apply in_map_iff in Hx.
  destruct Hx as (c & <- & Hc). apply H, Hc.
Qed.

Lemma filter_fewer {A : Type} (p : A -> bool) (xs : list A) (x : A) :
  In x xs -> p x = false -> (length (List.filter p xs) < length xs)%nat.
Proof.
  induction xs as [|y xs IH]; [intros []|].
  intros [->|Hin] Hp; simpl.
  - rewrite Hp. pose proof (List.filter_length_le p xs). lia.
  - specialize (IH Hin Hp). destruct (p y); simpl; lia.
Qed.

(** X19. With counts that are not negative and a multiplier of at least
    one, as the default 2.0, [detect_anomalies] reports only locations
    whose count lies above the mean, and never every location: at least
    one of them stays unreported. *)
Theorem detect_anomalies_spares_one (rows : list (string * Z))
  (multiplier : R) :
  rows <> [] ->
  (forall row, In row rows -> (0 <= snd row)%Z) ->
  1 <= multiplier ->
  (length (detect_anomalies rows multiplier) < length rows)%nat
  /\ forall a,
       In a (detect_anomalies rows multiplier) ->
       population_mean (map snd rows) < IZR (count a)
       /\ (0 < count a)%Z.
Proof.
  intros Hne Hpos Hm.
  rewrite (detect_anomalies_unfold rows multiplier Hne).
  assert (Hmean : 0 <= population_mean (map snd rows)).
  { apply mean_nonneg. intros c Hc. apply in_map_iff in Hc.
    destruct Hc as (row & <- & Hrow). apply Hpos, Hrow. }
  assert (Hthr : population_mean (map snd rows)
                 <= population_mean (map snd rows) * multiplier) by nra.
  split.
  - rewrite length_map.
    destruct (some_count_at_most_mean (map snd rows)) as (c & Hc & Hle).
    { destruct rows; [congruence|discriminate]. }
    apply in_map_iff in Hc. destruct Hc as (row & <- & Hrow).
    apply (filter_fewer _ rows row Hrow).
    apply Rlt_bool_false. lra.
  - intros a Ha. apply in_map_iff in Ha. destruct Ha as (row & <- & Hrow).
    apply filter_In in Hrow. destruct Hrow as [_ Hlt].
    apply Rlt_bool_true in Hlt. cbn [count].
    assert (H : population_mean (map snd rows) < IZR (snd row)) by lra.
    split; [exact H|]. apply lt_IZR. lra.
Qed.

Lemma detect_anomalies_spares_one_witness :
  (length (detect_anomalies location_rows 2) < 4)%nat.
Proof.
  change 4%nat with (length location_rows).
  apply (detect_anomalies_spares_one location_rows 2).
  - discriminate.
  - intros row Hrow. simpl in Hrow.
    repeat (destruct Hrow as [<-|Hrow]; [simpl; lia|]). destruct Hrow.
  - lra.
Defined.

(** X20. Raising the multiplier can only remove anomalies: with counts
    that are not negative, every location reported for the larger
    multiplier is reported for the smaller one with the same count and
    mean, and what is of high severity for the larger multiplier is of
    high severity for the smaller one. *)
Theorem detect_anomalies_multiplier_monotone (rows : list (string * Z))
  (m1 m2 : R) (a2 : Anomaly) :
  (forall row, In row rows -> (0 <= snd row)%Z) ->
  m1 <= m2 ->
  In a2 (detect_anomalies rows m2) ->
  exists a1,
    In a1 (detect_anomalies rows m1)
    /\ location a1 = location a2
    /\ count a1 = count a2
    /\ mean a1 = mean a2
    /\ (severity a2 = high -> severity a1 = high).
Proof.
  intros Hpos Hm Hin.
  destruct rows as [|r rows]; [destruct Hin|].
  assert (Hne : r :: rows <> []) by discriminate.
  rewrite (detect_anomalies_unfold _ m2 Hne) in Hin.
  rewrite (detect_anomalies_unfold _ m1 Hne).
  set (mu := population_mean (map snd (r :: rows))) in *.
  assert (Hmean : 0 <= mu).
  { apply mean_nonneg. intros c Hc. apply in_map_iff in Hc.
    destruct Hc as (row & <- & Hrow). apply Hpos, Hrow. }
  apply in_map_iff in Hin. destruct Hin as (row & <- & Hrow).
  apply filter_In in Hrow. destruct Hrow as [Hrow Hlt].
  apply Rlt_bool_true in Hlt.
  assert (Hle : mu * m1 <= mu * m2) by nra.
  eexists. split.
  - apply in_map_iff. exists row. split; [reflexivity|].
    apply filter_In. split; [exact Hrow|]. apply Rlt_bool_true. lra.
  - cbn [location count mean severity].
    split; [reflexivity|]. split; [reflexivity|]. split; [reflexivity|].
    destruct (Rlt_bool (mu * m2 * (15 / 10)) (IZR (snd row))) eqn:E2;
      [|discriminate].
    apply Rlt_bool_true in E2. intros _.
    replace (Rlt_bool (mu * m1 * (15 / 10)) (IZR (snd row))) with true;
      [reflexivity|].
    symmetry. apply Rlt_bool_true. lra.
Qed.

Lemma detect_anomalies_multiplier_monotone_witness :
  exists a1,
    In a1 (detect_anomalies location_rows 1)
    /\ location a1 = "D" /\ count a1 = 40%Z
    /\ mean a1 = 1375 / 100.
Proof.
  assert (Hin : In {| location := "D"; count := 40; mean := 1375 / 100;
                      threshold := 275 / 10; severity := medium |}
                  (detect_anomalies location_rows 2)).
  { rewrite location_rows_anomalies. left. reflexivity. }
  assert (Hpos : forall row, In row location_rows -> (0 <= snd row)%Z).
  { intros row Hrow. simpl in Hrow.
    repeat (destruct Hrow as [<-|Hrow]; [simpl; lia|]). destruct Hrow. }
  assert (Hm : 1 <= 2) by lra.
  destruct (detect_anomalies_multiplier_monotone location_rows 1 2 _
              Hpos Hm Hin)
    as (a1 & H1 & H2 & H3 & H4 & _).
  exists a1. cbn [location count mean] in *. tauto.
Defined.

(** ** analyze_trends *)

Lemma round_half_even_ge (x : R) (z : Z) :
  IZR z <= x -> (z <= Analytics.round_half_even x)%Z.
Proof.
  intros H. pose proof (Zfloor_lub z x H) as Hf.
  unfold Analytics.round_half_even.
  destruct (Rlt_dec _ _); [exact Hf|].
  destruct (Rlt_dec _ _); [lia|].
  destruct (Z.even _); lia.
Qed.

Lemma round_half_even_le (x : R) (z : Z) :
  x <= IZR z -> (Analytics.round_half_even x <= z)%Z.
Proof.
  intros H. pose proof (Zfloor_bound x) as [Hlo Hhi].
  assert (Hf : (Zfloor x <= z)%Z) by (apply le_IZR; lra).
  unfold Analytics.round_half_even.
  destruct (Rlt_dec (x - IZR (Zfloor x)) (1 / 2)) as [Hlt|Hge]; [exact Hf|].
  assert (Hne : Zfloor x <> z).
  { intros Heq. apply Hge. rewrite Heq. lra. }
  destruct (Rlt_dec _ _); [lia|].
  destruct (Z.even _); lia.
Qed.

Lemma round_ge (x : R) (z : Z) (n : nat) :
  IZR z <= x -> IZR z <= Analytics.round x n.
Proof.
  intros H. unfold Analytics.round.
  set (p := Zpos (pow10 n)).
  assert (Hp : 0 < IZR p) by (apply IZR_lt; reflexivity).
  assert (Hz : (z * p <= Analytics.round_half_even (x * IZR p))%Z).
  { apply round_half_even_ge. rewrite mult_IZR. nra. }
  apply IZR_le in Hz. rewrite mult_IZR in Hz.
  apply Rmult_le_reg_r with (IZR p); [exact Hp|].
  unfold Rdiv. rewrite Rmult_assoc, Rinv_l by lra. lra.
Qed.

Lemma round_le (x : R) (z : Z) (n : nat) :
  x <= IZR z -> Analytics.round x n <= IZR z.
Proof.
  intros H. unfold Analytics.round.
  set (p := Zpos (pow10 n)).
  assert (Hp : 0 < IZR p) by (apply IZR_lt; reflexivity).
  assert (Hz : (Analytics.round_half_even (x * IZR p) <= z * p)%Z).
  { apply round_half_even_le. rewrite mult_IZR. nra. }
  apply IZR_le in Hz. rewrite mult_IZR in Hz.
  apply Rmult_le_reg_r with (IZR p); [exact Hp|].
  unfold Rdiv. rewrite Rmult_assoc, Rinv_l by lra. lra.
Qed.

(** The insertion sort by a real key puts larger keys first. *)
Lemma sort_desc_by_sorted {A : Type} (key : A -> R) (xs : list A) :
  StronglySorted (fun x y => key y <= key x)
    (sort_desc_by (fun x y => Rlt_bool (key x) (key y)) xs).
Proof.
  induction xs as [|x xs IH]; simpl; [constructor|].
  set (s := sort_desc_by _ xs) in *. clearbody s. clear xs.
  induction s as [|y s IHs]; simpl; [repeat constructor|].
  apply StronglySorted_inv in IH. destruct IH as [Hs Hy].
  destruct (Rlt_bool (key x) (key y)) eqn:E.
  - apply Rlt_bool_true in E. constructor; [apply IHs, Hs|].
    apply (Permutation_Forall (x := x :: s)).
    + symmetry. apply insert_desc_perm.
    + constructor; [lra|exact Hy].
  - apply Rlt_bool_false in E. constructor; [constructor; assumption|].
    constructor; [lra|].
    eapply List.Forall_impl; [|exact Hy]. intros z Hz. simpl in Hz. lra.
Qed.

Section TrendsMore.

Context (current_counts previous_counts : gmap string Z).

Local Abbreviation step := (trend_step current_counts previous_counts).

Lemma step_rising_change (wt : string) (item : TrendItem) :
  In item (b_rising (step empty_buckets wt)) ->
  20 <= change_percentage item /\ trend item = rising.
Proof.
  unfold trend_step.
  destruct ((default 0%Z (previous_counts !! wt) =? 0)%Z
            && (0 <? default 0%Z (current_counts !! wt))%Z);
    [intros []|].
  destruct (0 <? default 0%Z (previous_counts !! wt))%Z; [|intros []].
  destruct (Rlt_bool 20 _) eqn:E.
  - intros [<-|[]]. cbn [change_percentage trend].
    apply Rlt_bool_true in E. split; [|reflexivity].
    apply (round_ge _ 20 1). lra.
  - destruct (Rlt_bool _ (-20)); intros [].
Qed.

Lemma step_falling_change (wt : string) (item : TrendItem) :
  In item (b_falling (step empty_buckets wt)) ->
  change_percentage item <= -20 /\ trend item = falling.
Proof.
  unfold trend_step.
  destruct ((default 0%Z (previous_counts !! wt) =? 0)%Z
            && (0 <? default 0%Z (current_counts !! wt))%Z);
    [intros []|].
  destruct (0 <? default 0%Z (previous_counts !! wt))%Z; [|intros []].
  destruct (Rlt_bool 20 _) eqn:E; [intros []|].
  destruct (Rlt_bool _ (-20)) eqn:E'; [|intros []].
  intros [<-|[]]. cbn [change_percentage trend].
  apply Rlt_bool_true in E'. split; [|reflexivity].
  apply (round_le _ (-20) 1). lra.
Qed.

(** An iteration for a waste type with positive counts adds one record to
    one list. *)
Lemma step_adds_one (acc : Buckets) (wt : string) :
  (forall t c, current_counts !! t = Some c -> (0 < c)%Z) ->
  (forall t c, previous_counts !! t = Some c -> (0 < c)%Z) ->
  In wt (elements (dom current_counts ∪ dom previous_counts)) ->
  (length (b_rising (step acc wt)) + length (b_falling (step acc wt))
   + length (b_stable (step acc wt)) + length (b_new (step acc wt)))%nat
  = S (length (b_rising acc) + length (b_falling acc)
       + length (b_stable acc) + length (b_new acc))%nat.
Proof.
  intros Hcur Hprev Hin.
  apply list_elem_of_In, elem_of_elements, elem_of_union in Hin.
  rewrite !elem_of_dom in Hin.
  unfold trend_step.
  destruct (previous_counts !! wt) as [p|] eqn:Ep.
  - pose proof (Hprev wt p Ep) as Hp. cbn [from_option Datatypes.id].
    replace (p =? 0)%Z with false by (symmetry; apply Z.eqb_neq; lia).
    replace (0 <? p)%Z with true by (symmetry; apply Z.ltb_lt; lia).
    cbn [andb].
    destruct (Rlt_bool 20 _);
      [|destruct (Rlt_bool _ (-20))];
      cbn [b_rising b_falling b_stable b_new];
      rewrite ?length_app; cbn [length]; lia.
  - destruct (current_counts !! wt) as [c|] eqn:Ec.
    + pose proof (Hcur wt c Ec) as Hc. cbn [from_option Datatypes.id].
      replace (0 <? c)%Z with true by (symmetry; apply Z.ltb_lt; lia).
      cbn [andb Z.eqb b_rising b_falling b_stable b_new].
      rewrite ?length_app. cbn [length]. lia.
    + exfalso. destruct Hin as [[? H]|[? H]]; discriminate.
Qed.

Lemma fold_adds_all (wts : list string) :
  (forall t c, current_counts !! t = Some c -> (0 < c)%Z) ->
  (forall t c, previous_counts !! t = Some c -> (0 < c)%Z) ->
  (forall wt, In wt wts ->
              In wt (elements (dom current_counts ∪ dom previous_counts))) ->
  forall acc,
    (length (b_rising (fold_left step wts acc))
     + length (b_falling (fold_left step wts acc))
     + length (b_stable (fold_left step wts acc))
     + length (b_new (fold_left step wts acc)))%nat
    = (length wts
       + (length (b_rising acc) + length (b_falling acc)
          + length (b_stable acc) + length (b_new acc)))%nat.
Proof.
  intros Hcur Hprev. induction wts as [|wt wts IH]; intros Hin acc;
    [reflexivity|].
  cbn [fold_left]. rewrite IH by (intros t Ht; apply Hin; right; exact Ht).
  rewrite (step_adds_one acc wt Hcur Hprev (Hin wt (or_introl eq_refl))).
  simpl. lia.
Qed.

End TrendsMore.

(** X21. When every count of the two windows is positive, as the counts
    of a grouped query are, each waste type of either window is reported
    once: the numbers of rising, falling and stable trends and of new
    waste types in the summary and the report add up to the total number
    of waste types. *)
Theorem analyze_trends_counts_every_type
  (current_counts previous_counts : gmap string Z)
  (daily_counts : list (Z * Z)) (days : Z) :
  (forall t c, current_counts !! t = Some c -> (0 < c)%Z) ->
  (forall t c, previous_counts !! t = Some c -> (0 < c)%Z) ->
  let report :=
    analyze_trends current_counts previous_counts daily_counts days in
  (trending_up (summary report) + trending_down (summary report)
   + stable_count (summary report)
   + length (new_waste_types report))%nat
  = total_waste_types (summary report)
  /\ trending_up (summary report) = length (rising_trends report)
  /\ trending_down (summary report) = length (falling_trends report)
  /\ stable_count (summary report) = length (stable_trends report).
Proof.
  intros Hcur Hprev report. subst report. unfold analyze_trends.
  cbn [summary trending_up trending_down stable_count total_waste_types
       new_waste_types rising_trends falling_trends stable_trends].
  split; [|repeat split].
  rewrite !(Permutation_length (sort_desc_by_perm by_abs_change _)).
  rewrite (fold_adds_all current_counts previous_counts _ Hcur Hprev
             (fun wt H => H)).
  simpl. rewrite !Nat.add_0_r. reflexivity.
Qed.

Lemma analyze_trends_counts_every_type_witness :
  let report :=
    analyze_trends
      (<["glass" := 4%Z]> (<["paper" := 2%Z]> (<["metal" := 10%Z]> ∅)))
      (<["glass" := 3%Z]> (<["plastic" := 8%Z]> (<["metal" := 10%Z]> ∅)))
      week 7 in
  total_waste_types (summary report) = 4%nat
  /\ (trending_up (summary report) + trending_down (summary report)
      + stable_count (summary report)
      + length (new_waste_types report))%nat = 4%nat.
Proof.
  set (cur := <["glass" := 4%Z]> (<["paper" := 2%Z]> (<["metal" := 10%Z]> ∅))
              : gmap string Z).
  set (prev := <["glass" := 3%Z]> (<["plastic" := 8%Z]> (<["metal" := 10%Z]> ∅))
               : gmap string Z).
  assert (Hcur : forall t c, cur !! t = Some c -> (0 < c)%Z).
  { intros t c. unfold cur.
    rewrite !lookup_insert_Some, lookup_empty. intros H.
    repeat (destruct H as [[_ <-]|[_ H]]; [lia|]). discriminate. }
  assert (Hprev : forall t c, prev !! t = Some c -> (0 < c)%Z).
  { intros t c. unfold prev.
    rewrite !lookup_insert_Some, lookup_empty. intros H.
    repeat (destruct H as [[_ <-]|[_ H]]; [lia|]). discriminate. }
  cbv zeta.
  destruct (analyze_trends_counts_every_type cur prev week 7 Hcur Hprev)
    as [Hsum _].
  assert (Htotal : total_waste_types (summary (analyze_trends cur prev week 7))
                   = 4%nat).
  { cbn [analyze_trends summary total_waste_types]. vm_compute. reflexivity. }
  split; [exact Htotal|]. rewrite Hsum. exact Htotal.
Defined.

(** X22. The rising trends are listed from the largest reported increase
    down and the falling trends from the largest reported drop down; a
    rising record reports a change of at least 20.0 and a falling one of
    at most -20.0 (the bound is reached by rounding). *)
Theorem analyze_trends_order
  (current_counts previous_counts : gmap string Z)
  (daily_counts : list (Z * Z)) (days : Z) :
  let report :=
    analyze_trends current_counts previous_counts daily_counts days in
  StronglySorted
    (fun x y => change_percentage y <= change_percentage x)
    (rising_trends report)
  /\ StronglySorted
       (fun x y => change_percentage x <= change_percentage y)
       (falling_trends report)
  /\ (forall item,
         In item (rising_trends report) ->
         20 <= change_percentage item /\ trend item = rising)
  /\ (forall item,
         In item (falling_trends report) ->
         change_percentage item <= -20 /\ trend item = falling).
Proof.
  intros report.
  assert (Hr : forall item,
             In item (rising_trends report) ->
             20 <= change_percentage item /\ trend item = rising).
  { intros item Hin. apply report_rising_In in Hin.
    destruct Hin as (wt & _ & Hin).
    exact (step_rising_change _ _ wt item Hin). }
  assert (Hf : forall item,
             In item (falling_trends report) ->
             change_percentage item <= -20 /\ trend item = falling).
  { intros item Hin. apply report_falling_In in Hin.
    destruct Hin as (wt & _ & Hin).
    exact (step_falling_change _ _ wt item Hin). }
  split; [|split; [|split; assumption]].
  - apply (AIProofs.StronglySorted_weaken_In
             (fun x y => Rabs (change_percentage y)
                         <= Rabs (change_percentage x))).
    + intros x y Hx Hy. destruct (Hr x Hx) as [Hx' _].
      destruct (Hr y Hy) as [Hy' _].
      rewrite !Rabs_right by lra. tauto.
    + apply (sort_desc_by_sorted (fun x => Rabs (change_percentage x))).
  - apply (AIProofs.StronglySorted_weaken_In
             (fun x y => Rabs (change_percentage y)
                         <= Rabs (change_percentage x))).
    + intros x y Hx Hy. destruct (Hf x Hx) as [Hx' _].
      destruct (Hf y Hy) as [Hy' _].
      rewrite !Rabs_left by lra. lra.
    + apply (sort_desc_by_sorted (fun x => Rabs (change_percentage x))).
Qed.
End AnalyticsExtra.

(* ================================================================== *)
(** * Properties of the keyword frequencies and the waste type series *)
(* ================================================================== *)

Module QueriesExtra.
Import Py AI Spec PyFacts AIProofs AnalyticsQueries.
Local Open Scope Z_scope.

(** ** get_keyword_frequency *)

Lemma flatten_rows (rows : list (list string)) :
  forall acc,
    fold_left
      (fun (all_keywords : list string) (row : list string) =>
         match row with
         | [] => all_keywords
         | _ => (all_keywords ++ row)%list
         end)
      rows acc
    = (acc ++ concat rows)%list.
Proof.
  induction rows as [|row rows IH]; intros acc; simpl.
  - rewrite app_nil_r. reflexivity.
  - rewrite IH. destruct row; [reflexivity|]. rewrite app_assoc. reflexivity.
Qed.

Lemma StronglySorted_across {A : Type} (R : A -> A -> Prop) (xs ys : list A) :
  StronglySorted R (xs ++ ys) ->
  forall x y, In x xs -> In y ys -> R x y.
Proof.
  induction xs as [|a xs IH]; intros Hs x y Hx Hy; [destruct Hx|].
  simpl in Hs. apply StronglySorted_inv in Hs. destruct Hs as [Hs Ha].
  destruct Hx as [<-|Hx].
  - rewrite List.Forall_forall in Ha. apply Ha, in_or_app. right. exact Hy.
  - apply IH; assumption.
Qed.

(** The entries of the counter, by descending count. *)
Lemma counter_ranking (tokens : list string) :
  let ranking :=
    sort_desc (fun item : string * Z => inject_Z (snd item)) (Counter tokens) in
  List.NoDup (map fst ranking)
  /\ (forall w, In w (map fst ranking) <-> In w tokens)
  /\ (forall w c, In (w, c) ranking -> c = Z.of_nat (frequency w tokens))
  /\ StronglySorted (ranks_before tokens) (map fst ranking).
Proof.
  set (key := fun item : string * Z => inject_Z (snd item)).
  change (Counter tokens) with (count_words tokens).
  destruct (count_words_counted tokens) as (Hnd & Hkeys & Hcount & Hord).
  pose proof (sort_desc_by_perm (by_key key) (count_words tokens)) as Hperm.
  fold (sort_desc key (count_words tokens)) in Hperm.
  cbv zeta. split; [|split; [|split]].
  - apply (Permutation_NoDup (l := map fst (count_words tokens)));
      [|exact Hnd].
    symmetry. apply Permutation_map, Hperm.
  - intros w.
    rewrite (Permutation_in' (eq_refl w) (Permutation_map fst Hperm)).
    apply Hkeys.
  - intros w c Hin. apply Hcount. apply (Permutation_in _ Hperm), Hin.
  - apply (proj1 (StronglySorted_map fst (ranks_before tokens) _)).
    apply (StronglySorted_weaken_In
             (stable_order key
                (fun x y => first_before (fst x) (fst y) tokens))).
    + intros [a ca] [b cb] Ha Hb.
      apply (Permutation_in _ Hperm) in Ha.
      apply (Permutation_in _ Hperm) in Hb.
      rewrite (Hcount a ca Ha), (Hcount b cb Hb).
      unfold stable_order, key, ranks_before. cbn [fst snd].
      rewrite <- Zlt_Qlt, inject_Z_injective.
      intros [Hlt|[Heq Hbefore]]; [left; lia|right; split; [lia|exact Hbefore]].
    + apply sort_desc_stable.
      apply (proj2 (StronglySorted_map fst
                      (fun a b => first_before a b tokens) _)).
      exact Hord.
Qed.

(** X23. [get_keyword_frequency] lists at most [limit] keywords (none for
    a limit that is not positive), each once and with the number of its
    occurrences over all rows, the more frequent first and, at equal
    frequency, the one met first; a keyword that is left out ranks behind
    every listed one, and is left out only when the list is full. *)
Theorem get_keyword_frequency_spec (rows : list (list string)) (limit : Z) :
  let all_keywords := concat rows in
  let result := get_keyword_frequency rows limit in
  (length result <= Z.to_nat limit)%nat
  /\ List.NoDup (map keyword result)
  /\ (forall e,
         In e result ->
         In (keyword e) all_keywords
         /\ count e = Z.of_nat (frequency (keyword e) all_keywords))
  /\ StronglySorted (ranks_before all_keywords) (map keyword result)
  /\ (forall w,
         In w all_keywords -> ~ In w (map keyword result) ->
         length result = Z.to_nat limit
         /\ forall e, In e result -> ranks_before all_keywords (keyword e) w).
Proof.
  intros all_keywords result. subst result.
  unfold get_keyword_frequency, most_common. cbv zeta.
  rewrite flatten_rows. cbn [app]. fold all_keywords.
  destruct (counter_ranking all_keywords) as (Hnd & Hkeys & Hcount & Hord).
  cbv zeta in Hnd, Hkeys, Hcount, Hord.
  set (ranking := sort_desc (fun item : string * Z => inject_Z (snd item))
                    (Counter all_keywords)) in *.
  set (n := Z.to_nat limit).
  assert (Hmap : map keyword
                   (map (fun item : string * Z =>
                           {| keyword := fst item; count := snd item |})
                      (firstn n ranking))
                 = firstn n (map fst ranking)).
  { rewrite map_map. cbn [keyword]. symmetry. apply firstn_map. }
  rewrite Hmap, length_map.
  split; [apply firstn_le_length|].
  split.
  { rewrite <- (firstn_skipn n (map fst ranking)) in Hnd.
    apply List.NoDup_app_remove_r in Hnd. exact Hnd. }
  split.
  { intros e He. apply in_map_iff in He. destruct He as ([w c] & <- & Hin).
    apply In_firstn in Hin. cbn [keyword count fst snd]. split.
    - apply Hkeys, in_map_iff. exists (w, c). split; [reflexivity|exact Hin].
    - apply Hcount, Hin. }
  split; [apply StronglySorted_firstn, Hord|].
  intros w Hw Hout.
  assert (Hrest : In w (skipn n (map fst ranking))).
  { apply Hkeys in Hw. rewrite <- (firstn_skipn n (map fst ranking)) in Hw.
    apply in_app_or in Hw. tauto. }
  split.
  - rewrite length_firstn.
    destruct (Nat.le_gt_cases n (length ranking)) as [Hle|Hgt]; [lia|].
    rewrite skipn_all2 in Hrest by (rewrite length_map; lia).
    destruct Hrest.
  - intros e He. apply in_map_iff in He. destruct He as ([v c] & <- & Hin).
    cbn [keyword fst].
    rewrite <- (firstn_skipn n (map fst ranking)) in Hord.
    apply (StronglySorted_across _ _ _ Hord); [|exact Hrest].
    rewrite firstn_map. apply in_map_iff. exists (v, c).
    split; [reflexivity|exact Hin].
Qed.

(** ** get_waste_type_trends *)

Section Dicts.

Context {V : Type}.

Lemma dict_get_set (d : list (string * V)) (k k' : string) (v dflt : V) :
  dict_get (dict_set d k v) k' dflt
  = if String.eqb k k' then v else dict_get d k' dflt.
Proof.
  induction d as [|[k0 v0] d IH]; simpl.
  - destruct (String.eqb k k'); reflexivity.
  - destruct (String.eqb k0 k) eqn:E; simpl.
    + apply String.eqb_eq in E. subst k0.
      destruct (String.eqb k k'); reflexivity.
    + rewrite IH. destruct (String.eqb k0 k') eqn:E'; [|reflexivity].
      apply String.eqb_eq in E'. subst k0.
      rewrite String.eqb_sym, E. reflexivity.
Qed.

Lemma dict_set_keys (d : list (string * V)) (k : string) (v : V) :
  map fst (dict_set d k v)
  = if existsb (fun entry => String.eqb (fst entry) k) d
    then map fst d else (map fst d ++ [k])%list.
Proof.
  induction d as [|[k0 v0] d IH]; simpl; [reflexivity|].
  destruct (String.eqb k0 k) eqn:E; simpl; [reflexivity|].
  rewrite IH. destruct (existsb _ d); reflexivity.
Qed.

Lemma dict_set_twice (d : list (string * V)) (k : string) (v v' : V) :
  dict_set (dict_set d k v) k v' = dict_set d k v'.
Proof.
  induction d as [|[k0 v0] d IH]; simpl.
  - rewrite String.eqb_refl. reflexivity.
  - destruct (String.eqb k0 k) eqn:E; simpl; rewrite E; [reflexivity|].
    rewrite IH. reflexivity.
Qed.

Lemma dict_get_present (d : list (string * V)) (k : string) (v dflt : V) :
  List.NoDup (map fst d) -> In (k, v) d -> dict_get d k dflt = v.
Proof.
  induction d as [|[k0 v0] d IH]; intros Hnd Hin; [destruct Hin|].
  simpl in *. apply List.NoDup_cons_iff in Hnd. destruct Hnd as [Hk0 Hnd].
  destruct Hin as [[= -> ->]|Hin]; [rewrite String.eqb_refl; reflexivity|].
  destruct (String.eqb k0 k) eqn:E; [|apply IH; assumption].
  apply String.eqb_eq in E. subst k0. exfalso. apply Hk0.
  apply in_map_iff. exists (k, v). split; [reflexivity|exact Hin].
Qed.

Lemma NoDup_snoc {A : Type} (xs : list A) (x : A) :
  List.NoDup xs -> ~ In x xs -> List.NoDup (xs ++ [x]).
Proof.
  induction xs as [|y xs IH]; intros Hnd Hx; simpl.
  - constructor; [intros []|constructor].
  - apply List.NoDup_cons_iff in Hnd. destruct Hnd as [Hy Hnd].
    constructor.
    + rewrite in_app_iff. simpl. intros [H|[H|[]]]; [tauto|].
      subst. apply Hx. left. reflexivity.
    + apply IH; [exact Hnd|]. intros H. apply Hx. right. exact H.
Qed.

Lemma dict_has_In (d : list (string * V)) (k : string) :
  dict_has d k = true <-> In k (map fst d).
Proof.
  unfold dict_has. rewrite existsb_exists, in_map_iff. split.
  - intros (entry & Hin & E). apply String.eqb_eq in E. eauto.
  - intros (entry & E & Hin). exists entry. split; [exact Hin|].
    apply String.eqb_eq, E.
Qed.

End Dicts.

Import QueriesSpec.

Lemma series_of_snoc (wt : string) (done : list (Z * string * Z))
  (date : Z) (waste_type : string) (n : Z) :
  series_of wt (done ++ [(date, waste_type, n)])
  = (series_of wt done
     ++ if String.eqb waste_type wt then [(date, n)] else [])%list.
Proof.
  unfold series_of. rewrite List.filter_app, map_app. cbn [List.filter fst snd].
  destruct (String.eqb waste_type wt); reflexivity.
Qed.

(** One iteration: the point is appended to the series of its waste
    type, which is created when the waste type is met first. *)
Lemma trends_step (trends : list (string * list (Z * Z)))
  (waste_type : string) (point : Z * Z) :
  dict_set
    (if dict_has trends waste_type then trends
     else dict_set trends waste_type [])
    waste_type
    (dict_get
       (if dict_has trends waste_type then trends
        else dict_set trends waste_type [])
       waste_type [] ++ [point])%list
  = dict_set trends waste_type
      (dict_get trends waste_type [] ++ [point])%list.
Proof.
  destruct (dict_has trends waste_type) eqn:E; [reflexivity|].
  rewrite dict_set_twice, dict_get_set, String.eqb_refl.
  rewrite dict_get_absent; [reflexivity|].
  intros Hin. apply dict_has_In in Hin. congruence.
Qed.

Lemma trends_from (rows : list (Z * string * Z)) :
  forall done trends,
    List.NoDup (map fst trends) ->
    (forall wt, dict_get trends wt [] = series_of wt done) ->
    (forall wt, In wt (map fst trends) <-> series_of wt done <> []) ->
    let result :=
      fold_left
        (fun (trends : list (string * list (Z * Z))) (row : Z * string * Z) =>
           let '(date, waste_type, count) := row in
           let trends :=
             if dict_has trends waste_type then trends
             else dict_set trends waste_type [] in
           dict_set trends waste_type
             (dict_get trends waste_type [] ++ [(date, count)])%list)
        rows trends in
    List.NoDup (map fst result)
    /\ (forall wt, dict_get result wt [] = series_of wt (done ++ rows))
    /\ (forall wt,
           In wt (map fst result) <-> series_of wt (done ++ rows) <> []).
Proof.
  induction rows as [|[[date waste_type] n] rows IH];
    intros done trends Hnd Hget Hkeys; cbn [fold_left].
  - rewrite app_nil_r. tauto.
  - cbv zeta. rewrite trends_step.
    replace (done ++ (date, waste_type, n) :: rows)%list
      with ((done ++ [(date, waste_type, n)]) ++ rows)%list
      by (rewrite <- app_assoc; reflexivity).
    apply IH.
    + rewrite dict_set_keys. fold (dict_has trends waste_type).
      destruct (dict_has trends waste_type) eqn:E; [exact Hnd|].
      apply NoDup_snoc; [exact Hnd|].
      intros Hin. apply dict_has_In in Hin. congruence.
    + intros wt. rewrite dict_get_set, series_of_snoc.
      destruct (String.eqb waste_type wt) eqn:E.
      * apply String.eqb_eq in E. subst wt. rewrite Hget. reflexivity.
      * rewrite app_nil_r. apply Hget.
    + intros wt. rewrite dict_set_keys, series_of_snoc.
      fold (dict_has trends waste_type).
      destruct (String.eqb waste_type wt) eqn:E.
      * apply String.eqb_eq in E. subst wt. split.
        -- intros _ H. apply app_eq_nil in H. destruct H; discriminate.
        -- intros _. destruct (dict_has trends waste_type) eqn:E'.
           ++ apply dict_has_In, E'.
           ++ apply in_or_app. right. left. reflexivity.
      * rewrite app_nil_r. rewrite <- Hkeys.
        destruct (dict_has trends waste_type); [tauto|].
        rewrite in_app_iff. simpl. split; [|tauto].
        intros [H|[H|[]]]; [exact H|].
        subst wt. rewrite String.eqb_refl in E. discriminate.
Qed.

(** X24. [get_waste_type_trends] has one entry per waste type that
    occurs in the rows, and the entry holds the points of the rows of that
    waste type, in the order of the rows: no row is lost, none is put
    under another waste type, and no entry is empty. *)
Theorem get_waste_type_trends_spec (rows : list (Z * string * Z)) :
  let trends := get_waste_type_trends rows in
  List.NoDup (map fst trends)
  /\ (forall waste_type series,
         In (waste_type, series) trends <->
         series = series_of waste_type rows /\ series <> [])
  /\ (forall date waste_type n,
         In (date, waste_type, n) rows <->
         exists series,
           In (waste_type, series) trends
           /\ In (date, n) series).
Proof.
  cbv zeta.
  destruct (trends_from rows [] [] (List.NoDup_nil _)
              (fun wt => eq_refl)
              (fun wt => conj (fun H : In wt [] => False_ind _ H)
                              (fun H => False_ind _ (H eq_refl))))
    as (Hnd & Hget & Hkeys).
  cbv zeta in Hnd, Hget, Hkeys. cbn [app] in Hget, Hkeys.
  fold (get_waste_type_trends rows) in Hnd, Hget, Hkeys.
  assert (Hentry : forall waste_type series,
             In (waste_type, series) (get_waste_type_trends rows) <->
             series = series_of waste_type rows /\ series <> []).
  { intros wt series. split.
    - intros Hin.
      assert (Hs : series = series_of wt rows).
      { rewrite <- Hget. symmetry. apply dict_get_present; assumption. }
      split; [exact Hs|]. rewrite Hs. apply Hkeys.
      apply in_map_iff. exists (wt, series). split; [reflexivity|exact Hin].
    - intros [-> Hne]. apply Hkeys in Hne. apply in_map_iff in Hne.
      destruct Hne as ([wt' series] & Hfst & Hin). cbn [fst] in Hfst.
      subst wt'. rewrite <- Hget.
      rewrite (dict_get_present _ _ _ _ Hnd Hin). exact Hin. }
  split; [exact Hnd|]. split; [exact Hentry|].
  intros date wt n. split.
  - intros Hin. exists (series_of wt rows).
    assert (Hpoint : In (date, n) (series_of wt rows)).
    { unfold series_of. apply in_map_iff. exists (date, wt, n).
      split; [reflexivity|]. apply filter_In. split; [exact Hin|].
      apply String.eqb_refl. }
    split; [|exact Hpoint]. apply Hentry. split; [reflexivity|].
    intros H. rewrite H in Hpoint. destruct Hpoint.
  - intros (series & Hin & Hpoint). apply Hentry in Hin.
    destruct Hin as [-> _]. unfold series_of in Hpoint.
    apply in_map_iff in Hpoint. destruct Hpoint as ([[d w] c] & E & Hrow).
    apply filter_In in Hrow. destruct Hrow as [Hrow Hw].
    cbn [fst snd] in *. apply String.eqb_eq in Hw. subst w.
    injection E as -> ->. exact Hrow.
Qed.
End QueriesExtra.
